(** * spark_functions: the helpers of [utils.py] over a model of the dataframe engine

    [utils.py] is a layer of one-line helpers over PySpark.  The helpers are
    translated function by function (section "utils.py" below); the engine
    they call is modelled first:

    - a cell is a [value]; a dataframe is a list of column names and a list
      of rows (positional lists of cells);
    - a PySpark [Column] object is a term of the inductive type [F.Column];
      building a dataframe from such terms first resolves every column
      reference against the schema (this is where the engine raises
      [AnalysisException]) and then evaluates row by row;
    - Python exceptions are the [Raise] case of [result].

    Modelling conventions for the engine, which is not part of the
    repository: a column reference is resolved as the session resolves it,
    by [same_name] (two plain names are the same when they are equal once
    lower-cased, or simply equal when [spark.sql.caseSensitive] is set; how
    names with non-ASCII letters, dots or backquotes compare is left to the
    engine); a reference that matches no column or more than one column is
    an analysis error; every column of a dataframe is an attribute of its
    own; the groups of an aggregation and the rows of [distinct] come in an
    order of the engine's choosing; [double] arithmetic is exact rational
    arithmetic ([Qc]); a zero divisor gives null, as it does with
    [spark.sql.ansi.enabled] off, and the statements below keep divisors
    away from zero, and the integers Python hands to the engine within the
    Java type that receives them; what the wrapped libraries and the Python
    runtime do beyond that (string and date built-ins, [summary], [show],
    Unicode lower-casing, ...) is a field of the class [Builtins]. *)

From Stdlib Require Import List String Ascii ZArith QArith Qcanon Qround Qabs.
From Stdlib Require Import Bool Lia Lqa Permutation Sorted DecimalString.
Import ListNotations.

Local Close Scope Q_scope.
Local Close Scope Qc_scope.
Local Open Scope string_scope.
Local Open Scope Z_scope.

(** ** Python exceptions *)

Inductive analysis_error :=
| UnresolvedColumn (name : string)
| AmbiguousReference (name : string)
| MisplacedExpression (what : string)
| InvalidLimit (n : Z).

Inductive exn :=
| ValueError (msg : string)
| KeyError (key : string)
| AssertionError (msg : string)
| IndexError (msg : string)
| TypeError (msg : string)
| AnalysisException (e : analysis_error).

Inductive result (A : Type) :=
| Ok (a : A)
| Raise (e : exn).

Arguments Ok {A} a.
Arguments Raise {A} e.

Definition bind {A B} (m : result A) (k : A -> result B) : result B :=
  match m with
  | Ok a => k a
  | Raise e => Raise e
  end.

Notation "x <- m ;; k" := (bind m (fun x => k))
  (at level 61, m at next level, right associativity).

Fixpoint mapM {A B} (f : A -> result B) (l : list A) : result (list B) :=
  match l with
  | [] => Ok []
  | a :: l' => b <- f a ;; bs <- mapM f l' ;; Ok (b :: bs)
  end.

(** ** Cells *)

Record date := mkDate { d_year : Z; d_month : Z; d_day : Z }.

Inductive value :=
| VNull
| VBool (b : bool)
| VInt (z : Z)
| VDouble (q : Qc)
| VStr (s : string)
| VDate (d : date).

Definition Row := list value.

Definition date_eq_dec (a b : date) : {a = b} + {a <> b}.
Proof. decide equality; apply Z.eq_dec. Defined.

Definition value_eq_dec (a b : value) : {a = b} + {a <> b}.
Proof.
  decide equality;
    [ apply bool_dec | apply Z.eq_dec | apply Qc_eq_dec
    | apply string_dec | apply date_eq_dec ].
Defined.

Definition row_eq_dec : forall a b : Row, {a = b} + {a <> b} :=
  list_eq_dec value_eq_dec.

Definition is_null (v : value) : bool :=
  match v with VNull => true | _ => false end.

Definition Qc_of_Z (z : Z) : Qc := Q2Qc (inject_Z z).

(** Numeric cells, read as rationals. *)
Definition num_of (v : value) : option Qc :=
  match v with
  | VInt z => Some (Qc_of_Z z)
  | VDouble q => Some q
  | _ => None
  end.

Definition date_compare (a b : date) : comparison :=
  match d_year a ?= d_year b with
  | Eq => match d_month a ?= d_month b with
          | Eq => d_day a ?= d_day b
          | c => c
          end
  | c => c
  end.

Definition bool_compare (a b : bool) : comparison :=
  match a, b with
  | false, true => Lt
  | true, false => Gt
  | _, _ => Eq
  end.

(** Comparison of two non-null cells of the same kind; [None] when the kinds
    differ (the engine's implicit casts between kinds are not modelled). *)
Definition compare_same (a b : value) : option comparison :=
  match a, b with
  | VBool x, VBool y => Some (bool_compare x y)
  | VStr x, VStr y => Some (String.compare x y)
  | VDate x, VDate y => Some (date_compare x y)
  | _, _ =>
      match num_of a, num_of b with
      | Some x, Some y => Some (Qccompare x y)
      | _, _ => None
      end
  end.

Definition kind_rank (v : value) : Z :=
  match v with
  | VNull => 0
  | VBool _ => 1
  | VInt _ | VDouble _ => 2
  | VStr _ => 3
  | VDate _ => 4
  end.

(** The ascending sort order of the engine: nulls first, then by value. *)
Definition value_compare (a b : value) : comparison :=
  match a, b with
  | VNull, VNull => Eq
  | VNull, _ => Lt
  | _, VNull => Gt
  | _, _ =>
      match compare_same a b with
      | Some c => c
      | None => kind_rank a ?= kind_rank b
      end
  end.

(** ** Calendar arithmetic of [add_months] *)

Definition is_leap (y : Z) : bool :=
  ((y mod 4 =? 0) && negb (y mod 100 =? 0)) || (y mod 400 =? 0).

Definition days_in_month (y m : Z) : Z :=
  if m =? 2 then (if is_leap y then 29 else 28)
  else if (m =? 4) || (m =? 6) || (m =? 9) || (m =? 11) then 30
  else 31.

(** [LocalDate.plusMonths]: shift the month, clamp the day to the length of
    the month reached. *)
Definition add_months_date (d : date) (n : Z) : date :=
  let t := d_year d * 12 + (d_month d - 1) + n in
  let y := t / 12 in
  let m := t mod 12 + 1 in
  mkDate y m (Z.min (d_day d) (days_in_month y m)).

(** ** Rounding: [HALF_UP] at [scale] decimal places *)

Definition pow10 (scale : Z) : Q :=
  if 0 <=? scale then inject_Z (10 ^ scale)
  else Qinv (inject_Z (10 ^ (- scale))).

Definition round_half_up (q : Qc) (scale : Z) : Qc :=
  let f := pow10 scale in
  let n := Qfloor (Qplus (Qmult (Qabs (this q)) f) (1 # 2)) in
  let r := Qdiv (inject_Z n) f in
  Q2Qc (if Qnum (this q) <? 0 then Qopp r else r).

(** ** pyspark.sql.types and pyspark.sql.functions: column expressions *)

Module F.

Inductive DataType :=
| DateType
| DecimalType (precision scale : Z)
| IntegerType
| StringType
| FloatType.

(** Built-in scalar functions whose value-level behaviour is left to the
    engine ([Builtins] below). *)
Inductive ScalarFn :=
| fn_to_date
| fn_unix_timestamp
| fn_from_unixtime
| fn_date_format (fmt : string)
| fn_year
| fn_lpad (len : Z) (pad : string)
| fn_trim
| fn_length.

Inductive Column :=
| col (name : string)
| lit (v : value)
| alias (c : Column) (name : string)
| cast (c : Column) (t : DataType)
| isnull (c : Column)
| when (cond : Column) (v : Column)
| eqNullSafe (a b : Column)
| gt (a b : Column)
| mul (a b : Column)
| div (a b : Column)
| isin (c : Column) (vs : list value)
| sparkRound (c : Column) (scale : Z)
| add_months (c : Column) (months : Z)
| call (f : ScalarFn) (c : Column)
| udf (f : value -> value) (c : Column)
| count (c : Column)
| countDistinct (c : Column)
| sparkMax (c : Column)
| sparkMin (c : Column)
| sparkSum (c : Column)
| asc (c : Column)
| desc (c : Column).

Definition to_date := call fn_to_date.
Definition unix_timestamp := call fn_unix_timestamp.
Definition from_unixtime := call fn_from_unixtime.
Definition date_format (c : Column) (fmt : string) := call (fn_date_format fmt) c.
Definition year := call fn_year.
Definition lpad (c : Column) (len : Z) (pad : string) := call (fn_lpad len pad) c.
Definition trim := call fn_trim.
Definition length := call fn_length.

End F.

Import F.

(** ** Dataframes *)

Record SparkDataFrame := mkDF {
  columns : list string;
  rows : list Row
}.

(** What the session, the wrapped libraries and the Python runtime provide
    and no helper depends on in detail: the session setting
    [spark.sql.caseSensitive]; how the engine compares and resolves names
    that are not plain (see [plain] below); casts between kinds, string and
    date built-ins, [summary], [fillna], the text printed by [show] and
    [printSchema]; babel's [format_currency] (number, currency, locale);
    [str.lower] and [repr] on strings outside the ASCII cases written out
    below; the exception Python raises for a date outside the range of
    [datetime.date]; and the order in which the engine returns the groups
    of an aggregation or the rows of [distinct], some rearrangement of
    them. *)
Class Builtins := {
  spark_sql_caseSensitive : bool;
  builtin_same_name : string -> string -> bool;
  builtin_resolve : list string -> string -> analysis_error + nat;
  builtin_cast : DataType -> value -> value;
  builtin_fn : ScalarFn -> value -> value;
  engine_summary : SparkDataFrame -> SparkDataFrame;
  engine_fillna : SparkDataFrame -> value -> list string -> result SparkDataFrame;
  engine_show : SparkDataFrame -> Z -> bool -> list string;
  engine_printSchema : SparkDataFrame -> list string;
  format_currency : value -> string -> string -> value;
  unicode_lower : string -> string;
  unicode_repr : string -> string;
  date_out_of_range : date -> exn;
  engine_order : list Row -> list Row;
  engine_order_perm : forall l, Permutation (engine_order l) l
}.

(** *** Names *)

Fixpoint all_chars (p : ascii -> bool) (s : string) : bool :=
  match s with
  | EmptyString => true
  | String a s' => p a && all_chars p s'
  end.

Definition ascii_char (a : ascii) : bool := Nat.ltb (nat_of_ascii a) 128.

Definition is_ascii (s : string) : bool := all_chars ascii_char s.

(** A plain name: not empty, ASCII, and without the characters the engine
    reads as syntax in a column reference (the dot, the backquote and the
    star). *)
Definition plain_char (a : ascii) : bool :=
  let n := nat_of_ascii a in
  Nat.ltb n 128 && negb (Nat.eqb n 46) && negb (Nat.eqb n 96)
  && negb (Nat.eqb n 42).

Definition plain (s : string) : bool :=
  negb (String.eqb s EmptyString) && all_chars plain_char s.

Definition lower_ascii (a : ascii) : ascii :=
  let n := nat_of_ascii a in
  if (Nat.leb 65 n && Nat.leb n 90)%bool then ascii_of_nat (n + 32) else a.

Fixpoint ascii_lower (s : string) : string :=
  match s with
  | EmptyString => EmptyString
  | String a s' => String (lower_ascii a) (ascii_lower s')
  end.

(** *** Value-level meaning of the operators *)

Definition op_when (c v : value) : value :=
  match c with VBool true => v | _ => VNull end.

Definition op_eqNullSafe (a b : value) : value :=
  match a, b with
  | VNull, VNull => VBool true
  | VNull, _ | _, VNull => VBool false
  | _, _ => match compare_same a b with
            | Some Eq => VBool true
            | _ => VBool false
            end
  end.

Definition op_gt (a b : value) : value :=
  match a, b with
  | VNull, _ | _, VNull => VNull
  | _, _ => match compare_same a b with
            | Some c => VBool (match c with Gt => true | _ => false end)
            | None => VNull
            end
  end.

Definition op_mul (a b : value) : value :=
  match a, b with
  | VInt x, VInt y => VInt (x * y)
  | _, _ => match num_of a, num_of b with
            | Some x, Some y => VDouble (Qcmult x y)
            | _, _ => VNull
            end
  end.

(** Division is always fractional; a zero divisor gives null. *)
Definition op_div (a b : value) : value :=
  match num_of a, num_of b with
  | Some x, Some y =>
      if Qc_eq_dec y (Qc_of_Z 0) then VNull else VDouble (Qcdiv x y)
  | _, _ => VNull
  end.

Definition op_isin (v : value) (vs : list value) : value :=
  match v with
  | VNull => VNull
  | _ => VBool (existsb (fun w => match op_eqNullSafe v w with
                                  | VBool true => true
                                  | _ => false
                                  end) vs)
  end.

Definition op_round (scale : Z) (v : value) : value :=
  match v with
  | VInt z => if 0 <=? scale then VInt z
              else VInt (Qfloor (this (round_half_up (Qc_of_Z z) scale)))
  | VDouble q => VDouble (round_half_up q scale)
  | _ => VNull
  end.

Section Engine.
Context {B : Builtins}.

(** An integer that fits the 32 bits of [IntegerType] is its own cast. *)
Definition fits_int32 (z : Z) : bool := (- 2 ^ 31 <=? z) && (z <? 2 ^ 31).

Definition cast_value (t : DataType) (v : value) : value :=
  match v, t with
  | VNull, _ => VNull
  | VDate _, DateType => v
  | VStr _, StringType => v
  | VInt z, IntegerType => if fits_int32 z then v else builtin_cast t v
  | _, _ => builtin_cast t v
  end.

Definition op_add_months (months : Z) (v : value) : value :=
  match cast_value DateType v with
  | VDate d => VDate (add_months_date d months)
  | _ => VNull
  end.

(** *** Resolution of a column reference *)

(** What the session compares of a plain name. *)
Definition name_key (s : string) : string :=
  if spark_sql_caseSensitive then s else ascii_lower s.

(** The session's resolver, on the name of a column and the name asked
    for. *)
Definition same_name (c name : string) : bool :=
  if plain c && plain name then String.eqb (name_key c) (name_key name)
  else builtin_same_name c name.

Fixpoint positions (name : string) (cols : list string) (i : nat) : list nat :=
  match cols with
  | [] => []
  | c :: cols' =>
      if same_name c name then i :: positions name cols' (S i)
      else positions name cols' (S i)
  end.

Definition resolve (cols : list string) (name : string) : result nat :=
  if plain name then
    match positions name cols 0 with
    | [] => Raise (AnalysisException (UnresolvedColumn name))
    | [i] => Ok i
    | _ :: _ :: _ => Raise (AnalysisException (AmbiguousReference name))
    end
  else
    match builtin_resolve cols name with
    | inl e => Raise (AnalysisException e)
    | inr i => Ok i
    end.

Definition cell (i : nat) (r : Row) : value := nth i r VNull.

(** *** Aggregate functions over the cells of a group *)

Definition non_null (vs : list value) : list value :=
  List.filter (fun v => negb (is_null v)) vs.

Definition agg_count (vs : list value) : value :=
  VInt (Z.of_nat (List.length (non_null vs))).

Definition agg_countDistinct (vs : list value) : value :=
  VInt (Z.of_nat (List.length (nodup value_eq_dec (non_null vs)))).

Definition value_max (a b : value) : value :=
  match value_compare a b with Lt => b | _ => a end.

Definition value_min (a b : value) : value :=
  match a, b with
  | VNull, _ => b
  | _, VNull => a
  | _, _ => match value_compare a b with Gt => b | _ => a end
  end.

Definition agg_max (vs : list value) : value := fold_right value_max VNull vs.
Definition agg_min (vs : list value) : value := fold_right value_min VNull vs.

Definition value_add (a b : value) : value :=
  match a, b with
  | VNull, _ => b
  | _, VNull => a
  | VInt x, VInt y => VInt (x + y)
  | _, _ => match num_of a, num_of b with
            | Some x, Some y => VDouble (Qcplus x y)
            | _, _ => VNull
            end
  end.

Definition agg_sum (vs : list value) : value := fold_right value_add VNull vs.

(** *** Analysis: from a column expression to a function of the row *)

Definition lift1 {X} (op : value -> value) (m : result (X -> value))
  : result (X -> value) :=
  f <- m ;; Ok (fun x => op (f x)).

Definition lift2 {X} (op : value -> value -> value)
  (m1 m2 : result (X -> value)) : result (X -> value) :=
  f <- m1 ;; g <- m2 ;; Ok (fun x => op (f x) (g x)).

Definition misplaced {A} (what : string) : result A :=
  Raise (AnalysisException (MisplacedExpression what)).

Fixpoint compile (cols : list string) (c : Column) : result (Row -> value) :=
  match c with
  | col name => i <- resolve cols name ;; Ok (cell i)
  | lit v => Ok (fun _ => v)
  | alias e _ => compile cols e
  | cast e t => lift1 (cast_value t) (compile cols e)
  | isnull e => lift1 (fun v => VBool (is_null v)) (compile cols e)
  | when cnd e => lift2 op_when (compile cols cnd) (compile cols e)
  | eqNullSafe a b => lift2 op_eqNullSafe (compile cols a) (compile cols b)
  | gt a b => lift2 op_gt (compile cols a) (compile cols b)
  | mul a b => lift2 op_mul (compile cols a) (compile cols b)
  | div a b => lift2 op_div (compile cols a) (compile cols b)
  | isin e vs => lift1 (fun v => op_isin v vs) (compile cols e)
  | sparkRound e scale => lift1 (op_round scale) (compile cols e)
  | add_months e months => lift1 (op_add_months months) (compile cols e)
  | call fn e => lift1 (builtin_fn fn) (compile cols e)
  | udf f e => lift1 f (compile cols e)
  | count _ | countDistinct _ | sparkMax _ | sparkMin _ | sparkSum _ =>
      misplaced "aggregate function"
  | asc _ | desc _ => misplaced "sort order"
  end.

Definition over_group (agg : list value -> value) (m : result (Row -> value))
  : result (list Row -> value) :=
  f <- m ;; Ok (fun rs => agg (map f rs)).

(** The same for an expression of [agg]: aggregate functions range over the
    rows of the group, the operators above them work on their results. *)
Fixpoint compile_agg (cols : list string) (c : Column)
  : result (list Row -> value) :=
  match c with
  | col name => misplaced name
  | lit v => Ok (fun _ => v)
  | alias e _ => compile_agg cols e
  | cast e t => lift1 (cast_value t) (compile_agg cols e)
  | isnull e => lift1 (fun v => VBool (is_null v)) (compile_agg cols e)
  | when cnd e => lift2 op_when (compile_agg cols cnd) (compile_agg cols e)
  | eqNullSafe a b =>
      lift2 op_eqNullSafe (compile_agg cols a) (compile_agg cols b)
  | gt a b => lift2 op_gt (compile_agg cols a) (compile_agg cols b)
  | mul a b => lift2 op_mul (compile_agg cols a) (compile_agg cols b)
  | div a b => lift2 op_div (compile_agg cols a) (compile_agg cols b)
  | isin e vs => lift1 (fun v => op_isin v vs) (compile_agg cols e)
  | sparkRound e scale => lift1 (op_round scale) (compile_agg cols e)
  | add_months e months => lift1 (op_add_months months) (compile_agg cols e)
  | call fn e => lift1 (builtin_fn fn) (compile_agg cols e)
  | udf f e => lift1 f (compile_agg cols e)
  | count e => over_group agg_count (compile cols e)
  | countDistinct e => over_group agg_countDistinct (compile cols e)
  | sparkMax e => over_group agg_max (compile cols e)
  | sparkMin e => over_group agg_min (compile cols e)
  | sparkSum e => over_group agg_sum (compile cols e)
  | asc _ | desc _ => misplaced "sort order"
  end.

(** A sort key: the expression and whether it is descending.  A bare
    expression sorts ascending. *)
Definition compile_order (cols : list string) (c : Column)
  : result ((Row -> value) * bool) :=
  match c with
  | asc e => f <- compile cols e ;; Ok (f, false)
  | desc e => f <- compile cols e ;; Ok (f, true)
  | e => f <- compile cols e ;; Ok (f, false)
  end.

End Engine.

(** The name the engine gives to an output column: the alias if there is
    one, the column's own name for a reference (also under a cast), and
    otherwise a name generated from the expression. *)
Definition string_of_Z (z : Z) : string := NilZero.string_of_int (Z.to_int z).

Fixpoint output_name (c : Column) : string :=
  match c with
  | col name => name
  | alias _ name => name
  | cast e _ => output_name e
  | lit (VStr s) => s
  | lit (VInt z) => string_of_Z z
  | lit _ => "lit"
  | isnull e => "(" ++ output_name e ++ " IS NULL)"
  | when cnd e =>
      "CASE WHEN " ++ output_name cnd ++ " THEN " ++ output_name e ++ " END"
  | eqNullSafe a b => "(" ++ output_name a ++ " <=> " ++ output_name b ++ ")"
  | gt a b => "(" ++ output_name a ++ " > " ++ output_name b ++ ")"
  | mul a b => "(" ++ output_name a ++ " * " ++ output_name b ++ ")"
  | div a b => "(" ++ output_name a ++ " / " ++ output_name b ++ ")"
  | isin e _ => "(" ++ output_name e ++ " IN (...))"
  | sparkRound e scale =>
      "round(" ++ output_name e ++ ", " ++ string_of_Z scale ++ ")"
  | add_months e months =>
      "add_months(" ++ output_name e ++ ", " ++ string_of_Z months ++ ")"
  | call _ e => "fn(" ++ output_name e ++ ")"
  | udf _ e => "<lambda>(" ++ output_name e ++ ")"
  | count e => "count(" ++ output_name e ++ ")"
  | countDistinct e => "count(DISTINCT " ++ output_name e ++ ")"
  | sparkMax e => "max(" ++ output_name e ++ ")"
  | sparkMin e => "min(" ++ output_name e ++ ")"
  | sparkSum e => "sum(" ++ output_name e ++ ")"
  | asc e => output_name e ++ " ASC"
  | desc e => output_name e ++ " DESC"
  end.

(** ** Sorting *)

Fixpoint insert_by {A} (leb : A -> A -> bool) (x : A) (l : list A) : list A :=
  match l with
  | [] => [x]
  | y :: l' => if leb x y then x :: l else y :: insert_by leb x l'
  end.

Definition sort_by {A} (leb : A -> A -> bool) (l : list A) : list A :=
  fold_right (insert_by leb) [] l.

(** Rows are compared key by key; a descending key reverses the ascending
    order of the cells (so nulls come last). *)
Fixpoint rows_compare (keys : list ((Row -> value) * bool)) (r1 r2 : Row)
  : comparison :=
  match keys with
  | [] => Eq
  | (f, descending) :: keys' =>
      let c := value_compare (f r1) (f r2) in
      match (if descending then CompOpp c else c) with
      | Eq => rows_compare keys' r1 r2
      | c' => c'
      end
  end.

Definition rows_leb (keys : list ((Row -> value) * bool)) (r1 r2 : Row) : bool :=
  match rows_compare keys r1 r2 with Gt => false | _ => true end.

(** ** Methods of a dataframe *)

Record GroupedData := mkGrouped {
  gd_df : SparkDataFrame;
  gd_keys : list Column
}.

Module DF.
Section Methods.
Context {B : Builtins}.

Definition count (df : SparkDataFrame) : Z := Z.of_nat (List.length (rows df)).

(** A cell as Python receives it: a date must fit [datetime.date]. *)
Definition python_date (d : date) : bool :=
  (1 <=? d_year d) && (d_year d <=? 9999).

Definition to_python (v : value) : result value :=
  match v with
  | VDate d => if python_date d then Ok v else Raise (date_out_of_range d)
  | _ => Ok v
  end.

Definition collect (df : SparkDataFrame) : result (list Row) :=
  mapM (mapM to_python) (rows df).

Definition select (df : SparkDataFrame) (exprs : list Column)
  : result SparkDataFrame :=
  fs <- mapM (compile (columns df)) exprs ;;
  Ok (mkDF (map output_name exprs)
           (map (fun r => map (fun f => f r) fs) (rows df))).

Definition is_true (v : value) : bool :=
  match v with VBool true => true | _ => false end.

Definition filter (df : SparkDataFrame) (cond : Column) : result SparkDataFrame :=
  f <- compile (columns df) cond ;;
  Ok (mkDF (columns df) (List.filter (fun r => is_true (f r)) (rows df))).

Definition orderBy (df : SparkDataFrame) (specs : list Column)
  : result SparkDataFrame :=
  keys <- mapM (compile_order (columns df)) specs ;;
  Ok (mkDF (columns df) (sort_by (rows_leb keys) (rows df))).

Definition groupBy (df : SparkDataFrame) (keys : list Column) : GroupedData :=
  mkGrouped df keys.

Definition row_eqb (a b : Row) : bool :=
  if row_eq_dec a b then true else false.

(** The groups: one per distinct key, in the order the engine returns
    them, or the single group of all rows when there is no grouping key. *)
Definition group_keys (key : Row -> Row) (nkeys : nat) (rs : list Row)
  : list Row :=
  match nkeys with
  | O => [[]]
  | S _ => engine_order (nodup row_eq_dec (map key rs))
  end.

Definition members (key : Row -> Row) (k : Row) (rs : list Row) : list Row :=
  List.filter (fun r => row_eqb (key r) k) rs.

Definition agg_grouped (gd : GroupedData) (exprs : list Column)
  : result SparkDataFrame :=
  match exprs with
  | [] => Raise (AssertionError "exprs should not be empty")
  | _ =>
      let df := gd_df gd in
      kfs <- mapM (compile (columns df)) (gd_keys gd) ;;
      gs <- mapM (compile_agg (columns df)) exprs ;;
      let key := fun r => map (fun f => f r) kfs in
      Ok (mkDF (map output_name (gd_keys gd) ++ map output_name exprs)%list
               (map (fun k =>
                       (k ++ map (fun g => g (members key k (rows df))) gs)%list)
                    (group_keys key (List.length kfs) (rows df))))
  end.

Definition count_grouped (gd : GroupedData) : result SparkDataFrame :=
  agg_grouped gd [alias (F.count (lit (VInt 1))) "count"].

Definition agg (df : SparkDataFrame) (exprs : list Column)
  : result SparkDataFrame :=
  agg_grouped (groupBy df []) exprs.

Definition withColumnRenamed (df : SparkDataFrame) (existing new : string)
  : SparkDataFrame :=
  mkDF (map (fun c => if same_name c existing then new else c) (columns df))
       (rows df).

(** [withColumn] replaces the columns of that name, which take the name as
    it is given, or appends a new one. *)
Definition withColumn (df : SparkDataFrame) (name : string) (e : Column)
  : result SparkDataFrame :=
  f <- compile (columns df) e ;;
  if existsb (fun c => same_name c name) (columns df)
  then Ok (mkDF (map (fun c => if same_name c name then name else c)
                     (columns df))
             (map (fun r => map (fun cv => if same_name (fst cv) name
                                           then f r else snd cv)
                                (combine (columns df) r))
                  (rows df)))
  else Ok (mkDF (columns df ++ [name])%list
             (map (fun r => (r ++ [f r])%list) (rows df))).

Definition distinct (df : SparkDataFrame) : SparkDataFrame :=
  mkDF (columns df) (engine_order (nodup row_eq_dec (rows df))).

(** A negative limit is refused by the analysis. *)
Definition limit (df : SparkDataFrame) (n : Z) : result SparkDataFrame :=
  if n <? 0 then Raise (AnalysisException (InvalidLimit n))
  else Ok (mkDF (columns df) (firstn (Z.to_nat n) (rows df))).

Definition summary (df : SparkDataFrame) : SparkDataFrame := engine_summary df.

Definition fillna (df : SparkDataFrame) (v : value) (subset : list string)
  : result SparkDataFrame := engine_fillna df v subset.

Definition show (df : SparkDataFrame) (n : Z) (truncate : bool) : list string :=
  engine_show df n truncate.

Definition printSchema (df : SparkDataFrame) : list string :=
  engine_printSchema df.

End Methods.
End DF.

(** ** Python values and built-ins used by the helpers *)

(** A parameter documented as "string ou lista de strings". *)
Inductive str_or_list :=
| Str (s : string)
| Lst (l : list string).

Definition names_of (x : str_or_list) : list string :=
  match x with
  | Str s => [s]
  | Lst l => l
  end.

(** A [dict] from strings to strings, in insertion order. *)
Definition dict := list (string * string).

Definition keys (d : dict) : list string := map fst d.
Definition values (d : dict) : list string := map snd d.

Definition py_in (c : string) (l : list string) : bool :=
  existsb (String.eqb c) l.

(** [l.index(x)]: the first position of [x], [ValueError] if there is none. *)
Fixpoint py_index (x : string) (l : list string) : result nat :=
  match l with
  | [] => Raise (ValueError (x ++ " is not in list"))
  | y :: l' => if String.eqb y x then Ok O
               else i <- py_index x l' ;; Ok (S i)
  end.

(** [l[i]] and [l[i] = x]: [IndexError] out of range. *)
Fixpoint py_getitem {A} (l : list A) (i : nat) : result A :=
  match l, i with
  | [], _ => Raise (IndexError "list index out of range")
  | x :: _, O => Ok x
  | _ :: l', S i' => py_getitem l' i'
  end.

Fixpoint py_setitem {A} (l : list A) (i : nat) (x : A) : result (list A) :=
  match l, i with
  | [], _ => Raise (IndexError "list assignment index out of range")
  | _ :: l', O => Ok (x :: l')
  | y :: l', S i' => l'' <- py_setitem l' i' x ;; Ok (y :: l'')
  end.

Fixpoint enumerate_from {A} (i : nat) (l : list A) : list (nat * A) :=
  match l with
  | [] => []
  | x :: l' => (i, x) :: enumerate_from (S i) l'
  end.

Definition enumerate {A} (l : list A) : list (nat * A) := enumerate_from 0 l.

(** [try: m  except: h]. *)
Definition try_except {A} (m : result A) (h : result A) : result A :=
  match m with
  | Ok a => Ok a
  | Raise _ => h
  end.

Definition newline : string := String (ascii_of_nat 10) EmptyString.

(** A character that [repr] prints as it is, between single quotes:
    printable ASCII other than the quote and the backslash. *)
Definition repr_char (a : ascii) : bool :=
  let n := nat_of_ascii a in
  Nat.leb 32 n && Nat.ltb n 127 && negb (Nat.eqb n 39) && negb (Nat.eqb n 92).

Section Python.
Context {B : Builtins}.

(** [str.lower()]: on an ASCII string the letters A-Z are lower-cased; the
    Unicode case mapping of other strings is the runtime's. *)
Definition lower (s : string) : string :=
  if is_ascii s then ascii_lower s else unicode_lower s.

(** [repr] of a string, and [str] of a list of strings as an f-string
    prints it. *)
Definition py_repr_str (s : string) : string :=
  if all_chars repr_char s then "'" ++ s ++ "'" else unicode_repr s.

Definition py_str_names (x : str_or_list) : string :=
  match x with
  | Str s => s
  | Lst l => "[" ++ String.concat ", " (map py_repr_str l) ++ "]"
  end.

End Python.

(** The clock read by [datetime.now()]. *)
Record datetime := mkDatetime { dt_date : date; dt_seconds : Z }.

(** What the process environment gives the helpers: the clock, and the
    locale babel takes from the environment variables as its default. *)
Record Env := mkEnv { now : datetime; locale : string }.

Definition pad_left (width : nat) (s : string) : string :=
  let fix zeros (n : nat) : string :=
    match n with
    | O => EmptyString
    | S n' => String "0"%char (zeros n')
    end in
  zeros (width - String.length s)%nat ++ s.

(** [strftime("%Y-%m-%d")]. *)
Definition strftime_Ymd (t : datetime) : string :=
  let d := dt_date t in
  pad_left 4 (string_of_Z (d_year d)) ++ "-"
  ++ pad_left 2 (string_of_Z (d_month d)) ++ "-"
  ++ pad_left 2 (string_of_Z (d_day d)).

(** What a call prints, then what it returns or raises. *)
Definition Py (A : Type) : Type := list string * result A.

(** * utils.py *)

Section Utils.
Context {B : Builtins}.

(** ** Colunas de Data *)

Definition criar_col_dat_hoje (env : Env) (df : SparkDataFrame) (nm_col : string)
  : result SparkDataFrame :=
  DF.withColumn df nm_col (to_date (lit (VStr (strftime_Ymd (now env))))).

(** [collect()[0][0]] of the one-cell aggregate: a date, or [None]. *)
Definition obter_data_inicial (df : SparkDataFrame) (nm_col_filtrada : string)
  (n_meses : Z) : result value :=
  d <- DF.agg df [add_months (sparkMax (col nm_col_filtrada)) (- n_meses)] ;;
  collected <- DF.collect d ;;
  r <- py_getitem collected 0 ;;
  py_getitem r 0.

Definition filtrar_ultimos_n_meses (df : SparkDataFrame)
  (nm_col_filtrada : string) (n_meses : Z) : result SparkDataFrame :=
  data_inicial <- obter_data_inicial df nm_col_filtrada n_meses ;;
  DF.filter df (gt (cast (col nm_col_filtrada) DateType) (lit data_inicial)).

Definition obter_distrib_data (df : SparkDataFrame) (lst_cols_dat : list string)
  : result SparkDataFrame :=
  d1 <- DF.select df
          (map (fun c => alias (unix_timestamp (col c)) c) lst_cols_dat) ;;
  d2 <- DF.filter (DF.summary d1)
          (isin (col "summary")
                [VStr "min"; VStr "25%"; VStr "50%"; VStr "75%"; VStr "max"]) ;;
  DF.select d2
    (col "summary"
     :: map (fun c => alias (cast (from_unixtime (col c)) DateType) c)
            lst_cols_dat).

(** ** Colunas numéricas *)

Definition obter_distrib (df : SparkDataFrame) (cols_num : str_or_list)
  : result SparkDataFrame :=
  d <- DF.select df (map col (names_of cols_num)) ;;
  Ok (DF.summary d).

Definition obter_intervalo (df : SparkDataFrame) (nm_col_num : string)
  : result SparkDataFrame :=
  DF.agg df [alias (sparkMin (col nm_col_num)) "valor_inicial";
             alias (sparkMax (col nm_col_num)) "valor_final"].

(** ** Util *)

(** One turn of the loop of [renomear_cols]: the [try] looks the name up in
    the dictionary and stores the new name, the [except] stores the old. *)
Definition renomear_step (dict_cols : dict) (acc : result (list string))
  (ic : nat * string) : result (list string) :=
  cols_final <- acc ;;
  let (i, c) := ic in
  try_except
    (j <- py_index c (keys dict_cols) ;;
     v <- py_getitem (values dict_cols) j ;;
     py_setitem cols_final i v)
    (py_setitem cols_final i c).

Definition renomear_cols (df : SparkDataFrame) (dict_cols : dict)
  : result SparkDataFrame :=
  cols_final <- fold_left (renomear_step dict_cols) (enumerate (columns df))
                  (Ok (columns df)) ;;
  DF.select df
    (map (fun p => alias (col (fst p)) (snd p))
         (combine (columns df) cols_final)).

Definition remover_cols_hudi (df : SparkDataFrame) : result SparkDataFrame :=
  DF.select df (map col (skipn 5 (columns df))).

Definition renomear_cols_para_minusculo (df : SparkDataFrame)
  : result SparkDataFrame :=
  DF.select df (map (fun df_col => alias (col df_col) (lower df_col))
                    (columns df)).

Definition obter_pct (df : SparkDataFrame) (lst_nm_cols : list string)
  (total : Z) : result SparkDataFrame :=
  DF.select df
    (map (fun c => alias (sparkRound
                            (div (mul (col c) (lit (VInt 100)))
                                 (lit (VInt total))) 2) c)
         lst_nm_cols).

Definition cols_rest (df : SparkDataFrame) (lst : list string) : list string :=
  List.filter (fun c => negb (py_in c lst)) (columns df).

(** [format_currency(a, "BRL")] formats for babel's default locale, the one
    of the process environment. *)
Definition formatar_cols_moeda (env : Env) (df : SparkDataFrame)
  (lst_cols_moeda : list string) : result SparkDataFrame :=
  let format_currency_udf :=
    udf (fun a => format_currency a "BRL" (locale env)) in
  let lst_cols_rest := cols_rest df lst_cols_moeda in
  DF.select df
    (map col lst_cols_rest
     ++ map (fun c => alias (format_currency_udf (col c)) c) lst_cols_moeda)%list.

Definition formatar_cols_decimal (df : SparkDataFrame)
  (lst_cols_decimal : list string) (n_digitos : Z) : result SparkDataFrame :=
  let lst_cols_rest := cols_rest df lst_cols_decimal in
  d <- DF.select df
         (map col lst_cols_rest
          ++ map (fun c => alias (cast (col c) (DecimalType 18 n_digitos)) c)
                 lst_cols_decimal)%list ;;
  DF.select d (map col (columns df)).

Definition formatar_cols_float (df : SparkDataFrame)
  (lst_cols_float : list string) : result SparkDataFrame :=
  let lst_cols_rest := cols_rest df lst_cols_float in
  d <- DF.select df
         (map col lst_cols_rest
          ++ map (fun c => alias (cast (col c) FloatType) c)
                 lst_cols_float)%list ;;
  DF.select d (map col (columns df)).

Definition formatar_cols_int (df : SparkDataFrame) (lst_cols_int : list string)
  : result SparkDataFrame :=
  let lst_cols_rest := cols_rest df lst_cols_int in
  DF.select df
    (map col lst_cols_rest
     ++ map (fun c => cast (col c) IntegerType) lst_cols_int)%list.

Definition formatar_cols_zeros_a_esquerda (df : SparkDataFrame)
  (lst_cols_str : list string) (tam_pad : Z) : result SparkDataFrame :=
  let cols_df := columns df in
  let lst_cols_rest := List.filter (fun c => negb (py_in c lst_cols_str)) cols_df in
  d <- DF.select df
         (map col lst_cols_rest
          ++ map (fun c => alias (lpad (col c) tam_pad "0") c)
                 lst_cols_str)%list ;;
  DF.select d (map col cols_df).

Definition remover_espacos_extra (df : SparkDataFrame)
  (lst_nm_cols : list string) : result SparkDataFrame :=
  let lst_cols_rest := cols_rest df lst_nm_cols in
  DF.select df
    (map col lst_cols_rest
     ++ map (fun c => alias (trim (col c)) c) lst_nm_cols)%list.

Definition or_empty (l : option (list string)) : list string :=
  match l with
  | None => []
  | Some l' => l'
  end.

Definition agrupar (df : SparkDataFrame) (chv_agrup : str_or_list)
  (lst_cols_conta lst_cols_soma lst_cols_max lst_cols_min : option (list string))
  : result SparkDataFrame :=
  let lst_cols_conta := or_empty lst_cols_conta in
  let lst_cols_soma := or_empty lst_cols_soma in
  let lst_cols_max := or_empty lst_cols_max in
  let lst_cols_min := or_empty lst_cols_min in
  let lst_cols_conta :=
    map (fun c => alias (F.count (col c)) ("cont_" ++ c)) lst_cols_conta in
  let lst_cols_soma :=
    map (fun c => alias (sparkSum (col c)) ("soma_" ++ c)) lst_cols_soma in
  let lst_cols_max :=
    map (fun c => alias (sparkMax (col c)) ("max_" ++ c)) lst_cols_max in
  let lst_cols_min :=
    map (fun c => alias (sparkMin (col c)) ("min_" ++ c)) lst_cols_min in
  DF.agg_grouped (DF.groupBy df (map col (names_of chv_agrup)))
    (lst_cols_conta ++ lst_cols_soma ++ lst_cols_max ++ lst_cols_min)%list.

Definition or_count (df : SparkDataFrame) (tam_df : option Z) : Z :=
  match tam_df with
  | None => DF.count df
  | Some t => t
  end.

Definition mostrar_visao_geral (df : SparkDataFrame) (nm_df : string)
  (tam_df : option Z) : Py unit :=
  let tam_df := or_count df tam_df in
  let l1 := "Esquema de dados da base de " ++ nm_df ++ ":" in
  let l2 := "Tamanho da base de " ++ nm_df ++ ":" in
  let l3 := "(" ++ string_of_Z tam_df ++ ","
            ++ string_of_Z (Z.of_nat (List.length (columns df))) ++ ")" in
  let l4 := newline ++ "Visualizacao da base de " ++ nm_df ++ ":" in
  (([l1] ++ DF.printSchema df ++ [l2; l3; l4] ++ DF.show df 5 false)%list,
   Ok tt).

Definition mostrar_teste_granularidade (df : SparkDataFrame)
  (cols_chv : str_or_list) (tam_df : option Z) : Py unit :=
  let tam_df := or_count df tam_df in
  let printed := ["Tamanho da base:"; string_of_Z tam_df] in
  match DF.select df (map col (names_of cols_chv)) with
  | Raise e => (printed, Raise e)
  | Ok d =>
      let qtd_dist := DF.count (DF.distinct d) in
      let verdict :=
        if tam_df =? qtd_dist
        then newline ++ py_str_names cols_chv ++ " eh a chave da tabela"
        else newline ++ py_str_names cols_chv ++ " nao eh a chave da tabela" in
      ((printed
        ++ ["Quantidade de combinacoes de chave distintas:";
            string_of_Z qtd_dist; verdict])%list,
       Ok tt)
  end.

(** The loop that validates the values of [d_order]. *)
Fixpoint check_orders (orders : list string) : result unit :=
  match orders with
  | [] => Ok tt
  | order :: rest =>
      if negb (String.eqb order "asc") && negb (String.eqb order "desc")
      then Raise (ValueError ("Ordem " ++ order ++ " nao identificada"))
      else check_orders rest
  end.

(** One element of the list comprehension passed to [orderBy]. *)
Definition order_column (item : string * string) : option Column :=
  let (coluna, ordem) := item in
  if String.eqb ordem "asc" then Some (asc (col coluna))
  else if String.eqb ordem "desc" then Some (asc (col coluna))
  else None.

(** A [None] among the sort columns is a [TypeError]. *)
Fixpoint py_columns (l : list (option Column)) : result (list Column) :=
  match l with
  | [] => Ok []
  | None :: _ => Raise (TypeError "Invalid argument, not a string or column")
  | Some c :: l' => cs <- py_columns l' ;; Ok (c :: cs)
  end.

Definition orderBy_dict (df : SparkDataFrame) (d_order : dict)
  : result SparkDataFrame :=
  _ <- check_orders (values d_order) ;;
  cs <- py_columns (map order_column d_order) ;;
  DF.orderBy df cs.

Definition obter_top_valores (df : SparkDataFrame) (nm_col_vlr : string)
  (top_n : Z) (lst_cols_desc : list string) : result SparkDataFrame :=
  d1 <- DF.select df (map col (lst_cols_desc ++ [nm_col_vlr])%list) ;;
  d2 <- DF.orderBy d1 [desc (col nm_col_vlr)] ;;
  DF.limit d2 top_n.

(** ** Valores Ausentes *)

Definition preencher_nulos (df : SparkDataFrame) (vlr_a_preencher : value)
  (nm_cols_a_preencher : option str_or_list) : result SparkDataFrame :=
  let nm_cols_a_preencher :=
    match nm_cols_a_preencher with
    | None => columns df
    | Some x => names_of x
    end in
  DF.fillna df vlr_a_preencher nm_cols_a_preencher.

Definition or_columns (df : SparkDataFrame) (lst : option (list string))
  : list string :=
  match lst with
  | None => columns df
  | Some l => l
  end.

Definition obter_qtd_ausentes (df : SparkDataFrame)
  (lst_nm_cols : option (list string)) : result SparkDataFrame :=
  let lst_nm_cols := or_columns df lst_nm_cols in
  DF.agg df
    (map (fun c => alias (F.count (when (isnull (col c)) (lit (VStr c)))) c)
         lst_nm_cols).

Definition obter_pct_ausentes (df : SparkDataFrame)
  (lst_nm_cols : option (list string)) (tam_df : option Z)
  : result SparkDataFrame :=
  let lst_nm_cols := or_columns df lst_nm_cols in
  let tam_df := or_count df tam_df in
  d <- obter_qtd_ausentes df (Some lst_nm_cols) ;;
  obter_pct d lst_nm_cols tam_df.

(** ** Valores zerados *)

Definition obter_qtd_zeros (df : SparkDataFrame) (lst_nm_cols : list string)
  : result SparkDataFrame :=
  DF.agg df
    (map (fun c => alias (F.count (when (eqNullSafe (col c) (lit (VInt 0)))
                                        (lit (VStr c)))) c)
         lst_nm_cols).

Definition obter_pct_zeros (df : SparkDataFrame) (lst_nm_cols : list string)
  (tam_df : option Z) : result SparkDataFrame :=
  let tam_df := or_count df tam_df in
  d <- obter_qtd_zeros df lst_nm_cols ;;
  obter_pct d lst_nm_cols tam_df.

(** ** Valores Distintos *)

Definition obter_qtd_distintos (df : SparkDataFrame)
  (lst_nm_cols : option (list string)) : result SparkDataFrame :=
  let lst_nm_cols := or_columns df lst_nm_cols in
  DF.agg df (map (fun c => alias (countDistinct (col c)) c) lst_nm_cols).

Definition obter_pct_distintos (df : SparkDataFrame)
  (lst_nm_cols : option (list string)) (tam_df : option Z)
  : result SparkDataFrame :=
  let lst_nm_cols := or_columns df lst_nm_cols in
  let tam_df := or_count df tam_df in
  d <- obter_qtd_distintos df (Some lst_nm_cols) ;;
  obter_pct d lst_nm_cols tam_df.

Definition selecionar_cols_distintas (df : SparkDataFrame)
  (cols_chave : str_or_list) : result SparkDataFrame :=
  d <- DF.select df (map col (names_of cols_chave)) ;;
  Ok (DF.distinct d).

(** ** Análise Univariada *)

Definition obter_tab_freq (df : SparkDataFrame) (nm_col : str_or_list)
  (tam_df : option Z) : Py SparkDataFrame :=
  let tam_df := or_count df tam_df in
  (["Tabela de frequencias"],
   d1 <- DF.count_grouped (DF.groupBy df (map col (names_of nm_col))) ;;
   let d2 := DF.withColumnRenamed d1 "count" "freq_absoluta" in
   d3 <- DF.withColumn d2 "freq_relativa (%)"
           (sparkRound (div (mul (col "freq_absoluta") (lit (VInt 100)))
                            (lit (VInt tam_df))) 2) ;;
   DF.orderBy d3 [desc (col "freq_absoluta")]).

(** [d[k]] on a dictionary literal: [KeyError] for a missing key. *)
Fixpoint py_dict_get {A} (d : list (string * A)) (k : string) : result A :=
  match d with
  | [] => Raise (KeyError k)
  | (k', v) :: d' => if String.eqb k' k then Ok v else py_dict_get d' k
  end.

Definition obter_tab_freq_periodo (df : SparkDataFrame) (nm_col_dat : string)
  (periodo : string) (tam_df : option Z) : result SparkDataFrame :=
  let tam_df := or_count df tam_df in
  funcao_agregamento <-
    py_dict_get [("d", to_date (col nm_col_dat));
                 ("m", date_format (col nm_col_dat) "yyyyMM");
                 ("a", year (col nm_col_dat))] periodo ;;
  periodo <- py_dict_get [("d", "data"); ("m", "mes"); ("a", "ano")] periodo ;;
  d1 <- DF.count_grouped (DF.groupBy df [alias funcao_agregamento periodo]) ;;
  let d2 := DF.withColumnRenamed d1 "count" "qtd_ocorrencias" in
  d3 <- DF.withColumn d2 "%"
          (sparkRound (div (mul (col "qtd_ocorrencias") (lit (VInt 100)))
                           (lit (VInt tam_df))) 2) ;;
  DF.orderBy d3 [asc (col periodo)].

(** ** Criação de colunas *)

Definition criar_col_qtd_digitos (df : SparkDataFrame) (nm_col : string)
  : result SparkDataFrame :=
  DF.withColumn df "qtd_digitos" (F.length (cast (col nm_col) StringType)).

End Utils.

(** * The module as a whole: every public function and what a call gives *)

(** What a Python call returns: a dataframe handle, [None], or a plain
    value. *)
Inductive PyValue :=
| PyDataFrame (df : SparkDataFrame)
| PyNone
| PyScalar (v : value).

Inductive Call :=
| call_criar_col_dat_hoje (df : SparkDataFrame) (nm_col : string)
| call_filtrar_ultimos_n_meses (df : SparkDataFrame) (nm_col_filtrada : string)
    (n_meses : Z)
| call_obter_data_inicial (df : SparkDataFrame) (nm_col_filtrada : string)
    (n_meses : Z)
| call_obter_distrib_data (df : SparkDataFrame) (lst_cols_dat : list string)
| call_obter_distrib (df : SparkDataFrame) (cols_num : str_or_list)
| call_obter_intervalo (df : SparkDataFrame) (nm_col_num : string)
| call_renomear_cols (df : SparkDataFrame) (dict_cols : dict)
| call_remover_cols_hudi (df : SparkDataFrame)
| call_renomear_cols_para_minusculo (df : SparkDataFrame)
| call_obter_pct (df : SparkDataFrame) (lst_nm_cols : list string) (total : Z)
| call_formatar_cols_moeda (df : SparkDataFrame) (lst_cols_moeda : list string)
| call_formatar_cols_decimal (df : SparkDataFrame)
    (lst_cols_decimal : list string) (n_digitos : Z)
| call_formatar_cols_float (df : SparkDataFrame) (lst_cols_float : list string)
| call_formatar_cols_int (df : SparkDataFrame) (lst_cols_int : list string)
| call_formatar_cols_zeros_a_esquerda (df : SparkDataFrame)
    (lst_cols_str : list string) (tam_pad : Z)
| call_remover_espacos_extra (df : SparkDataFrame) (lst_nm_cols : list string)
| call_agrupar (df : SparkDataFrame) (chv_agrup : str_or_list)
    (lst_cols_conta lst_cols_soma lst_cols_max lst_cols_min
       : option (list string))
| call_mostrar_visao_geral (df : SparkDataFrame) (nm_df : string)
    (tam_df : option Z)
| call_mostrar_teste_granularidade (df : SparkDataFrame)
    (cols_chv : str_or_list) (tam_df : option Z)
| call_orderBy_dict (df : SparkDataFrame) (d_order : dict)
| call_obter_top_valores (df : SparkDataFrame) (nm_col_vlr : string)
    (top_n : Z) (lst_cols_desc : list string)
| call_preencher_nulos (df : SparkDataFrame) (vlr_a_preencher : value)
    (nm_cols_a_preencher : option str_or_list)
| call_obter_qtd_ausentes (df : SparkDataFrame)
    (lst_nm_cols : option (list string))
| call_obter_pct_ausentes (df : SparkDataFrame)
    (lst_nm_cols : option (list string)) (tam_df : option Z)
| call_obter_qtd_zeros (df : SparkDataFrame) (lst_nm_cols : list string)
| call_obter_pct_zeros (df : SparkDataFrame) (lst_nm_cols : list string)
    (tam_df : option Z)
| call_obter_qtd_distintos (df : SparkDataFrame)
    (lst_nm_cols : option (list string))
| call_obter_pct_distintos (df : SparkDataFrame)
    (lst_nm_cols : option (list string)) (tam_df : option Z)
| call_selecionar_cols_distintas (df : SparkDataFrame) (cols_chave : str_or_list)
| call_obter_tab_freq (df : SparkDataFrame) (nm_col : str_or_list)
    (tam_df : option Z)
| call_obter_tab_freq_periodo (df : SparkDataFrame) (nm_col_dat : string)
    (periodo : string) (tam_df : option Z)
| call_criar_col_qtd_digitos (df : SparkDataFrame) (nm_col : string).

Definition map_result {A C} (f : A -> C) (r : result A) : result C :=
  match r with
  | Ok a => Ok (f a)
  | Raise e => Raise e
  end.

(** A function that prints nothing and returns a dataframe. *)
Definition quiet (r : result SparkDataFrame) : Py PyValue :=
  ([], map_result PyDataFrame r).

Section Calls.
Context {B : Builtins}.

Definition run (env : Env) (c : Call) : Py PyValue :=
  match c with
  | call_criar_col_dat_hoje df nm => quiet (criar_col_dat_hoje env df nm)
  | call_filtrar_ultimos_n_meses df nm n =>
      quiet (filtrar_ultimos_n_meses df nm n)
  | call_obter_data_inicial df nm n =>
      ([], map_result PyScalar (obter_data_inicial df nm n))
  | call_obter_distrib_data df l => quiet (obter_distrib_data df l)
  | call_obter_distrib df x => quiet (obter_distrib df x)
  | call_obter_intervalo df nm => quiet (obter_intervalo df nm)
  | call_renomear_cols df d => quiet (renomear_cols df d)
  | call_remover_cols_hudi df => quiet (remover_cols_hudi df)
  | call_renomear_cols_para_minusculo df =>
      quiet (renomear_cols_para_minusculo df)
  | call_obter_pct df l t => quiet (obter_pct df l t)
  | call_formatar_cols_moeda df l => quiet (formatar_cols_moeda env df l)
  | call_formatar_cols_decimal df l n => quiet (formatar_cols_decimal df l n)
  | call_formatar_cols_float df l => quiet (formatar_cols_float df l)
  | call_formatar_cols_int df l => quiet (formatar_cols_int df l)
  | call_formatar_cols_zeros_a_esquerda df l n =>
      quiet (formatar_cols_zeros_a_esquerda df l n)
  | call_remover_espacos_extra df l => quiet (remover_espacos_extra df l)
  | call_agrupar df k c1 c2 c3 c4 => quiet (agrupar df k c1 c2 c3 c4)
  | call_mostrar_visao_geral df nm t =>
      let (out, r) := mostrar_visao_geral df nm t in
      (out, map_result (fun _ => PyNone) r)
  | call_mostrar_teste_granularidade df k t =>
      let (out, r) := mostrar_teste_granularidade df k t in
      (out, map_result (fun _ => PyNone) r)
  | call_orderBy_dict df d => quiet (orderBy_dict df d)
  | call_obter_top_valores df nm n l => quiet (obter_top_valores df nm n l)
  | call_preencher_nulos df v l => quiet (preencher_nulos df v l)
  | call_obter_qtd_ausentes df l => quiet (obter_qtd_ausentes df l)
  | call_obter_pct_ausentes df l t => quiet (obter_pct_ausentes df l t)
  | call_obter_qtd_zeros df l => quiet (obter_qtd_zeros df l)
  | call_obter_pct_zeros df l t => quiet (obter_pct_zeros df l t)
  | call_obter_qtd_distintos df l => quiet (obter_qtd_distintos df l)
  | call_obter_pct_distintos df l t => quiet (obter_pct_distintos df l t)
  | call_selecionar_cols_distintas df k =>
      quiet (selecionar_cols_distintas df k)
  | call_obter_tab_freq df k t =>
      let (out, r) := obter_tab_freq df k t in
      (out, map_result PyDataFrame r)
  | call_obter_tab_freq_periodo df nm p t =>
      quiet (obter_tab_freq_periodo df nm p t)
  | call_criar_col_qtd_digitos df nm => quiet (criar_col_qtd_digitos df nm)
  end.

End Calls.

(** The two shapes of result the specification allows: a dataframe, or
    [None] after printing something. *)
Definition dataframe_or_printed (o : Py PyValue) : Prop :=
  match o with
  | (_, Ok (PyDataFrame _)) => True
  | (out, Ok PyNone) => out <> []
  | (_, Ok (PyScalar _)) => False
  | (_, Raise _) => True
  end.

Definition is_obter_data_inicial (c : Call) : bool :=
  match c with
  | call_obter_data_inicial _ _ _ => true
  | _ => false
  end.




(** * A small instance of the built-ins, to run the helpers on examples *)

Definition digit_of (a : ascii) : option Z :=
  let n := nat_of_ascii a in
  if (Nat.leb 48 n && Nat.leb n 57)%bool then Some (Z.of_nat (n - 48)) else None.

Fixpoint digits_value (acc : Z) (s : string) : option Z :=
  match s with
  | EmptyString => Some acc
  | String a s' => match digit_of a with
                   | Some d => digits_value (10 * acc + d) s'
                   | None => None
                   end
  end.

(** [yyyy-mm-dd] to a date. *)
Definition parse_Ymd (s : string) : value :=
  if (Nat.eqb (String.length s) 10
      && String.eqb (substring 4 1 s) "-"
      && String.eqb (substring 7 1 s) "-")%bool
  then match digits_value 0 (substring 0 4 s),
             digits_value 0 (substring 5 2 s),
             digits_value 0 (substring 8 2 s) with
       | Some y, Some m, Some d => VDate (mkDate y m d)
       | _, _, _ => VNull
       end
  else VNull.

Definition sample_fn (fn : ScalarFn) (v : value) : value :=
  match fn, v with
  | fn_to_date, VStr s => parse_Ymd s
  | fn_to_date, VDate d => VDate d
  | fn_year, VDate d => VInt (d_year d)
  | fn_length, VStr s => VInt (Z.of_nat (String.length s))
  | _, _ => v
  end.

Definition sample_fill (v : value) (subset : list string)
  (cols : list string) (r : Row) : Row :=
  map (fun cv => if (py_in (fst cv) subset && is_null (snd cv))%bool
                 then v else snd cv)
      (combine cols r).

Definition sample_currency (v : value) (currency locale : string) : value :=
  match v with
  | VInt z =>
      if String.eqb locale "pt_BR"
      then VStr (currency ++ " " ++ string_of_Z z ++ ",00")
      else VStr (currency ++ string_of_Z z ++ ".00")
  | _ => VNull
  end.

Definition sample_builtins : Builtins := {|
  spark_sql_caseSensitive := false;
  builtin_same_name := String.eqb;
  builtin_resolve := fun _ name => inl (UnresolvedColumn name);
  builtin_cast := fun _ v => v;
  builtin_fn := sample_fn;
  engine_summary := fun df => mkDF ("summary" :: columns df) [];
  engine_fillna := fun df v subset =>
    Ok (mkDF (columns df) (map (sample_fill v subset (columns df)) (rows df)));
  engine_show := fun df _ _ => [String.concat "|" (columns df)];
  engine_printSchema := fun df =>
    "root" :: map (fun c => " |-- " ++ c) (columns df);
  format_currency := sample_currency;
  unicode_lower := ascii_lower;
  unicode_repr := fun s => "'" ++ s ++ "'";
  date_out_of_range := fun _ => ValueError "year is out of range";
  engine_order := fun l => l;
  engine_order_perm := fun l => Permutation_refl l
|}.

(** The same engine in a session where [spark.sql.caseSensitive] is set. *)
Definition case_sensitive_builtins : Builtins := {|
  spark_sql_caseSensitive := true;
  builtin_same_name := @builtin_same_name sample_builtins;
  builtin_resolve := @builtin_resolve sample_builtins;
  builtin_cast := @builtin_cast sample_builtins;
  builtin_fn := @builtin_fn sample_builtins;
  engine_summary := @engine_summary sample_builtins;
  engine_fillna := @engine_fillna sample_builtins;
  engine_show := @engine_show sample_builtins;
  engine_printSchema := @engine_printSchema sample_builtins;
  format_currency := @format_currency sample_builtins;
  unicode_lower := @unicode_lower sample_builtins;
  unicode_repr := @unicode_repr sample_builtins;
  date_out_of_range := @date_out_of_range sample_builtins;
  engine_order := @engine_order sample_builtins;
  engine_order_perm := @engine_order_perm sample_builtins
|}.

(** * Notions used to state the properties *)

(** Every row has one cell per column. *)
Definition well_formed (df : SparkDataFrame) : Prop :=
  Forall (fun r => List.length r = List.length (columns df)) (rows df).

(** The cell of a row under the (first) column of that name. *)
Fixpoint value_under (cols : list string) (r : Row) (name : string) : value :=
  match cols, r with
  | c :: cols', v :: r' =>
      if String.eqb c name then v else value_under cols' r' name
  | _, _ => VNull
  end.

Section Names.
Context {B : Builtins}.

(** How many columns the session takes for [name]. *)
Definition matches (cols : list string) (name : string) : nat :=
  List.length (List.filter (fun c => same_name c name) cols).

(** The name is plain, is the name of a column as it is spelled, and the
    session takes no other column for it. *)
Definition one_match (cols : list string) (name : string) : Prop :=
  plain name = true /\ In name cols /\ matches cols name = 1%nat.

(** The name designates exactly one column. *)
Definition names_one_column (df : SparkDataFrame) (name : string) : Prop :=
  one_match (columns df) name.

(** Plain names that the session tells apart: pairwise distinct, also when
    case is ignored unless the session is case-sensitive. *)
Definition unambiguous (cols : list string) : Prop :=
  Forall (fun c => plain c = true) cols /\ NoDup (map name_key cols).

(** The name of a grouping column that the session does not take for one of
    the names [obter_tab_freq] gives to its own columns. *)
Definition free_for_table (c : string) : Prop :=
  same_name c "count" = false
  /\ same_name c "freq_absoluta" = false
  /\ same_name c "freq_relativa (%)" = false.

End Names.

(** [d[k]] of a dictionary. *)
Fixpoint dict_get (d : dict) (k : string) : option string :=
  match d with
  | [] => None
  | (k', v) :: d' => if String.eqb k' k then Some v else dict_get d' k
  end.

(** The name of a column after renaming by the dictionary. *)
Definition renamed (d : dict) (name : string) : string :=
  match dict_get d name with
  | Some v => v
  | None => name
  end.

(** Dates: [a] is not after [b]; the cell holds a date after [d0]. *)
Definition date_leb (a b : date) : bool :=
  match date_compare a b with Gt => false | _ => true end.

Definition is_date_after (d0 : date) (v : value) : bool :=
  match v with
  | VDate d => match date_compare d d0 with Gt => true | _ => false end
  | _ => false
  end.

Definition is_date_or_null (v : value) : Prop :=
  match v with
  | VNull | VDate _ => True
  | _ => False
  end.

(** [m] is the latest date found in the column. *)
Definition latest_date (df : SparkDataFrame) (name : string) (m : date) : Prop :=
  (exists r, In r (rows df) /\ value_under (columns df) r name = VDate m)
  /\ forall r d, In r (rows df) ->
                 value_under (columns df) r name = VDate d ->
                 date_leb d m = true.

(** The grouping key of a row, and how many rows share a key. *)
Definition key_of (df : SparkDataFrame) (names : list string) (r : Row) : Row :=
  map (value_under (columns df) r) names.

Definition frequency (df : SparkDataFrame) (names : list string) (k : Row) : Z :=
  Z.of_nat (count_occ row_eq_dec (map (key_of df names) (rows df)) k).

(** The integer in the cell at a position (0 when it holds none). *)
Definition int_at (i : nat) (r : Row) : Z :=
  match cell i r with
  | VInt n => n
  | _ => 0
  end.

(** Sorted from the largest measure to the smallest. *)
Definition descending {A} (mu : A -> Z) : A -> A -> Prop :=
  fun a b => mu b <= mu a.

(** The exception comes from the engine's analysis of a query. *)
Definition is_analysis (e : exn) : Prop := exists a, e = AnalysisException a.

(** A call that returns a plain value, if it returns. *)
Definition scalar_or_raise (o : Py PyValue) : Prop :=
  match o with
  | (_, Ok (PyScalar _)) => True
  | (_, Ok _) => False
  | (_, Raise _) => True
  end.

Definition valid_order (o : string) : Prop := o = "asc" \/ o = "desc".

(** The position of the first column of that name. *)
Fixpoint first_index (name : string) (cols : list string) : nat :=
  match cols with
  | [] => O
  | c :: cols' => if String.eqb c name then O else S (first_index name cols')
  end.

(** A cell that equals zero: a null does not. *)
Definition is_zero (v : value) : bool :=
  match v with
  | VInt z => z =? 0
  | VDouble q => Qnum (this q) =? 0
  | _ => false
  end.

Definition is_numeric_or_null (v : value) : Prop :=
  match v with
  | VNull | VInt _ | VDouble _ => True
  | _ => False
  end.

(** How many rows satisfy a test on the cell under a column. *)
Definition count_rows (df : SparkDataFrame) (name : string)
  (test : value -> bool) : Z :=
  Z.of_nat (List.length
              (List.filter (fun r => test (value_under (columns df) r name))
                           (rows df))).

(** A count as a percentage of a total, rounded to two decimal places. *)
Definition pct (n total : Z) : value :=
  VDouble (round_half_up (Qcdiv (Qc_of_Z (n * 100)) (Qc_of_Z total)) 2).

(** Sorted from the smallest measure to the largest. *)
Definition ascending {A} (mu : A -> Z) : A -> A -> Prop :=
  fun a b => mu a <= mu b.

Definition is_int (v : value) : Prop :=
  match v with
  | VInt _ => True
  | _ => False
  end.

(** The column expressions [orderBy_dict] hands to the engine. *)
Definition ascending_keys (d : dict) : list Column :=
  map (fun coluna => asc (col coluna)) (keys d).

(** A row after [op] has been applied to the cells of the listed columns,
    the columns staying where they are. *)
Definition transformed_row (op : value -> value) (lst cols : list string)
  (r : Row) : Row :=
  map (fun c => if py_in c lst then op (value_under cols r c)
                else value_under cols r c)
      cols.

(** The same with the listed columns moved behind the others. *)
Definition moved_row (op : value -> value) (rest lst cols : list string)
  (r : Row) : Row :=
  (map (value_under cols r) rest
   ++ map (fun c => op (value_under cols r c)) lst)%list.

(** The non-null cells of a column, and how many different ones there are. *)
Definition column_values (df : SparkDataFrame) (name : string) : list value :=
  map (fun r => value_under (columns df) r name) (rows df).

Definition distinct_count (df : SparkDataFrame) (name : string) : Z :=
  Z.of_nat (List.length (nodup value_eq_dec (non_null (column_values df name)))).

Definition is_int_or_null (v : value) : Prop :=
  match v with
  | VNull | VInt _ => True
  | _ => False
  end.

(** A calendar date: a month of the year and a day of that month. *)
Definition valid_date (d : date) : Prop :=
  1 <= d_month d <= 12
  /\ 1 <= d_day d <= days_in_month (d_year d) (d_month d).

(** A number a column of [decimal(18, scale)] can hold. *)
Definition fits_decimal (scale : Z) (v : value) : Prop :=
  match v with
  | VNull => True
  | VInt z => Z.abs z < 10 ^ (18 - scale)
  | VDouble q => (Qabs (this q) < inject_Z (10 ^ (18 - scale)))%Q
  | _ => False
  end.

Definition sum_Z (l : list Z) : Z := fold_right Z.add 0 l.

(** The integers of a column add up within the 64 bits of a sum. *)
Definition magnitude (v : value) : Z :=
  match v with
  | VInt z => Z.abs z
  | _ => 0
  end.

Definition sum_fits (df : SparkDataFrame) (name : string) : Prop :=
  Forall is_int_or_null (column_values df name)
  /\ sum_Z (map magnitude (column_values df name)) < 2 ^ 63.

Definition is_number (v : value) : Prop :=
  match v with
  | VInt _ | VDouble _ => True
  | _ => False
  end.

(** Integers that Python hands to the engine as a Java [int] or [long]. *)
Definition is_int32 (z : Z) : Prop := - 2 ^ 31 <= z < 2 ^ 31.
Definition is_int64 (z : Z) : Prop := - 2 ^ 63 <= z < 2 ^ 63.

Definition is_int32_or_null (v : value) : Prop :=
  match v with
  | VNull => True
  | VInt z => - 2 ^ 31 <= z < 2 ^ 31
  | _ => False
  end.

Definition df_upper : SparkDataFrame :=
  mkDF ["Id"; "NOME"] [[VInt 1; VStr "ana"]; [VInt 2; VStr "rui"]].

Definition df_hudi : SparkDataFrame :=
  mkDF ["h1"; "h2"; "h3"; "h4"; "h5"; "id"]
       [[VStr "c"; VStr "s"; VStr "k"; VStr "p"; VStr "f"; VInt 7]].

Definition df_empty : SparkDataFrame := mkDF ["a"; "b"] [].

(** ** Example data *)

Definition df_ab : SparkDataFrame :=
  mkDF ["a"; "b"] [[VInt 2; VInt 10]; [VInt 1; VInt 20]; [VInt 3; VInt 30]].

Definition df_dates : SparkDataFrame :=
  mkDF ["d"; "x"]
       [[VDate (mkDate 2024 3 31); VInt 1];
        [VDate (mkDate 2024 1 15); VInt 2];
        [VNull; VInt 3];
        [VDate (mkDate 2023 11 30); VInt 4]].

Definition df_zeros : SparkDataFrame :=
  mkDF ["a"; "b"]
       [[VInt 0; VNull]; [VInt 1; VInt 0]; [VNull; VInt 0]; [VInt 0; VInt 5]].

(** Two columns of the same name, as a join or a renaming leaves them. *)
Definition df_dup : SparkDataFrame :=
  mkDF ["a"; "a"] [[VInt 1; VInt 2]].

Definition df_count : SparkDataFrame :=
  mkDF ["count"; "x"] [[VInt 7; VStr "u"]; [VInt 7; VStr "v"]].

(** Two columns whose names differ by case only, as a file read with its
    own header can have them. *)
Definition df_dD : SparkDataFrame :=
  mkDF ["d"; "D"]
       [[VDate (mkDate 2024 3 31); VInt 1]; [VDate (mkDate 2024 1 15); VInt 2]].

Definition env_may : Env := mkEnv (mkDatetime (mkDate 2024 5 7) 3600) "pt_BR".
Definition env_may_us : Env :=
  mkEnv (mkDatetime (mkDate 2024 5 7) 3600) "en_US".

(** * Properties *)

(** ** The error monad *)

Lemma bind_Raise_inv {A C} (m : result A) (k : A -> result C) (e : exn) :
  bind m k = Raise e -> m = Raise e \/ exists a, m = Ok a /\ k a = Raise e.
Proof. destruct m as [a|e']; simpl; intro H; [eauto | left; congruence]. Qed.

Lemma mapM_map_Ok {X A C} (f : A -> result C) (h : X -> A) (g : X -> C)
  (l : list X) :
  (forall x, In x l -> f (h x) = Ok (g x)) ->
  mapM f (map h l) = Ok (map g l).
Proof.
  induction l as [|a l IH]; intro H; simpl; [reflexivity|].
  rewrite (H a (or_introl eq_refl)). simpl.
  rewrite IH by (intros; apply H; right; assumption). reflexivity.
Qed.

Lemma mapM_Raise_inv {A C} (f : A -> result C) (l : list A) (e : exn) :
  mapM f l = Raise e -> exists x, In x l /\ f x = Raise e.
Proof.
  induction l as [|a l IH]; simpl; [discriminate|].
  intro H. apply bind_Raise_inv in H. destruct H as [H | [b [Hb H]]].
  - exists a; auto.
  - apply bind_Raise_inv in H. destruct H as [H | [bs [_ H]]]; [|discriminate].
    destruct (IH H) as [x [Hx Hf]]. exists x; auto.
Qed.

(** ** Analysis raises nothing but [AnalysisException] *)

Section Analysis.
Context {B : Builtins}.

Lemma resolve_raises cols name e :
  resolve cols name = Raise e -> is_analysis e.
Proof.
  unfold resolve. destruct (plain name).
  - destruct (positions name cols 0) as [|i [|j l]];
      intro H; inversion H; eexists; reflexivity.
  - destruct (builtin_resolve cols name);
      intro H; inversion H; eexists; reflexivity.
Qed.

Lemma lift1_raises {X} op (m : result (X -> value)) e :
  lift1 op m = Raise e -> m = Raise e.
Proof. destruct m; simpl; [discriminate | congruence]. Qed.

Lemma lift2_raises {X} op (m1 m2 : result (X -> value)) e :
  lift2 op m1 m2 = Raise e -> m1 = Raise e \/ m2 = Raise e.
Proof.
  destruct m1; simpl; [|left; congruence].
  destruct m2; simpl; [discriminate | right; congruence].
Qed.

Lemma compile_raises cols c e :
  compile cols c = Raise e -> is_analysis e.
Proof.
  induction c; simpl; intro H;
    try (apply lift1_raises in H; auto; fail);
    try (apply lift2_raises in H; destruct H; auto; fail);
    try (inversion H; eexists; reflexivity; fail);
    auto.
  apply bind_Raise_inv in H. destruct H as [H | [i [_ H]]]; [|discriminate].
  eapply resolve_raises; eassumption.
Qed.

Lemma compile_order_raises cols c e :
  compile_order cols c = Raise e -> is_analysis e.
Proof.
  intro H.
  assert (G : forall c', (f <- compile cols c' ;; Ok (f, false)) = Raise e
                         \/ (f <- compile cols c' ;; Ok (f, true)) = Raise e
                         -> is_analysis e).
  { intros c' [G | G]; apply bind_Raise_inv in G;
      (destruct G as [G | [f [_ G]]]; [|discriminate]);
      eapply compile_raises; eassumption. }
  destruct c; unfold compile_order in H;
    first [ apply (G _ (or_introl H)) | apply (G _ (or_intror H)) ].
Qed.

Lemma orderBy_raises df specs e :
  DF.orderBy df specs = Raise e -> is_analysis e.
Proof.
  unfold DF.orderBy. intro H.
  apply bind_Raise_inv in H. destruct H as [H | [ks [_ H]]]; [|discriminate].
  apply mapM_Raise_inv in H. destruct H as [x [_ H]].
  eapply compile_order_raises; eassumption.
Qed.

End Analysis.

(** ** orderBy_dict *)

Lemma valid_order_eqb o :
  negb (String.eqb o "asc") && negb (String.eqb o "desc") = false
  <-> valid_order o.
Proof.
  unfold valid_order.
  destruct (String.eqb_spec o "asc"), (String.eqb_spec o "desc");
    simpl; intuition congruence.
Qed.

Lemma check_orders_cases l :
  (check_orders l = Ok tt /\ Forall valid_order l)
  \/ (exists o, In o l /\ ~ valid_order o
                /\ check_orders l
                   = Raise (ValueError ("Ordem " ++ o ++ " nao identificada"))).
Proof.
  induction l as [|o l IH]; simpl.
  - left. split; [reflexivity | constructor].
  - destruct (negb (String.eqb o "asc") && negb (String.eqb o "desc")) eqn:E.
    + right. exists o. repeat split; auto.
      intro V. apply valid_order_eqb in V. congruence.
    + apply valid_order_eqb in E.
      destruct IH as [[IH1 IH2] | [o' [Hin [Hv Hr]]]].
      * left. split; [assumption | constructor; assumption].
      * right. exists o'. repeat split; auto.
Qed.

Lemma py_columns_valid d :
  Forall valid_order (values d) ->
  exists cs, py_columns (map order_column d) = Ok cs.
Proof.
  induction d as [|[k v] d IH]; simpl; intro H.
  - eexists; reflexivity.
  - inversion H as [|? ? Hv Hd]; subst.
    destruct (IH Hd) as [cs Hcs]. rewrite Hcs.
    destruct Hv as [-> | ->]; simpl; eexists; reflexivity.
Qed.

(** C10.  [orderBy_dict] raises [ValueError] exactly when some value of
    [d_order] is neither 'asc' nor 'desc'; and then the error is the one of
    the validation loop, whatever the dataframe: it is raised before any
    ordering is built or applied, and no result is produced. *)
Theorem orderBy_dict_ValueError_iff {B : Builtins}
  (df : SparkDataFrame) (d_order : dict) :
  ((exists msg, orderBy_dict df d_order = Raise (ValueError msg))
   <-> Exists (fun o => ~ valid_order o) (values d_order))
  /\ (Exists (fun o => ~ valid_order o) (values d_order) ->
      exists o, In o (values d_order) /\ ~ valid_order o
                /\ forall df', orderBy_dict df' d_order
                     = Raise (ValueError ("Ordem " ++ o ++ " nao identificada"))).
Proof.
  assert (Bad : Exists (fun o => ~ valid_order o) (values d_order) ->
      exists o, In o (values d_order) /\ ~ valid_order o
                /\ forall df', orderBy_dict df' d_order
                     = Raise (ValueError ("Ordem " ++ o ++ " nao identificada"))).
  { intro Hex. destruct (check_orders_cases (values d_order))
      as [[_ Hall] | [o [Hin [Hv Hr]]]].
    - exfalso. apply Exists_exists in Hex. destruct Hex as [o [Hin Hv]].
      rewrite Forall_forall in Hall. exact (Hv (Hall o Hin)).
    - exists o. repeat split; auto.
      intro df'. unfold orderBy_dict. rewrite Hr. reflexivity. }
  split; [split|exact Bad].
  - intros [msg Hraise].
    destruct (check_orders_cases (values d_order))
      as [[Hok Hall] | [o [Hin [Hv _]]]].
    + exfalso. unfold orderBy_dict in Hraise. rewrite Hok in Hraise.
      destruct (py_columns_valid d_order Hall) as [cs Hcs].
      simpl in Hraise. rewrite Hcs in Hraise. simpl in Hraise.
      apply orderBy_raises in Hraise. destruct Hraise as [a Ha]. discriminate.
    + apply Exists_exists. exists o. auto.
  - intro Hex. destruct (Bad Hex) as [o [_ [_ Hr]]]. eexists. apply Hr.
Qed.

Lemma orderBy_dict_ValueError_iff_witness :
  exists o, In o (values [("a", "asc"); ("b", "down")]) /\ ~ valid_order o
    /\ forall df', orderBy_dict (B := sample_builtins) df'
                     [("a", "asc"); ("b", "down")]
                   = Raise (ValueError ("Ordem " ++ o ++ " nao identificada")).
Proof.
  apply (proj2 (orderBy_dict_ValueError_iff (B := sample_builtins) df_ab
                  [("a", "asc"); ("b", "down")])).
  simpl. apply Exists_cons_tl. apply Exists_cons_hd.
  unfold valid_order. intros [H | H]; discriminate.
Defined.

(** C1.  On the dictionary [{'a': 'desc'}] the rows come back in ascending
    order of [a]: the comprehension builds [asc(col(coluna))] in the 'desc'
    branch as well. *)
Theorem orderBy_dict_desc_sorts_ascending {B : Builtins} :
  orderBy_dict df_ab [("a", "desc")]
  = Ok (mkDF ["a"; "b"]
             [[VInt 1; VInt 20]; [VInt 2; VInt 10]; [VInt 3; VInt 30]]).
Proof. destruct B as [[] ? ? ? ? ? ? ? ? ? ? ? ? ? ?]; reflexivity. Qed.

(** ** formatar_cols_moeda *)

(** C2.  Formatting column [a] of a dataframe with columns [a, b] gives the
    columns [b, a]: the formatted columns are moved behind the others, and
    the final [select(df.columns)] of [formatar_cols_decimal] is missing. *)
Theorem formatar_cols_moeda_reorders {B : Builtins} (env : Env) :
  formatar_cols_moeda env df_ab ["a"]
  = Ok (mkDF ["b"; "a"]
             [[VInt 10; format_currency (VInt 2) "BRL" (locale env)];
              [VInt 20; format_currency (VInt 1) "BRL" (locale env)];
              [VInt 30; format_currency (VInt 3) "BRL" (locale env)]]).
Proof. destruct B as [[] ? ? ? ? ? ? ? ? ? ? ? ? ? ?]; reflexivity. Qed.

(** ** What the functions return *)

Lemma quiet_ok r : dataframe_or_printed (quiet r).
Proof. destruct r; exact I. Qed.

(** C3, as the code has it.  Every public function except
    [obter_data_inicial] returns a dataframe, or returns [None] after
    printing; [obter_data_inicial] returns the plain value it collected
    (a date, or [None] for a column without dates). *)
Theorem returns_dataframe_or_prints {B : Builtins} (env : Env) (c : Call) :
  (is_obter_data_inicial c = false -> dataframe_or_printed (run env c))
  /\ (is_obter_data_inicial c = true -> scalar_or_raise (run env c)).
Proof.
  split; intro H; destruct c; try discriminate H; simpl;
    try apply quiet_ok.
  - unfold mostrar_visao_geral. simpl. discriminate.
  - unfold mostrar_teste_granularidade.
    destruct (DF.select _ _); simpl; [discriminate | exact I].
  - unfold obter_tab_freq. simpl.
    match goal with |- context [map_result _ ?r] => destruct r end; exact I.
  - destruct (obter_data_inicial _ _ _); exact I.
Qed.

Lemma returns_dataframe_or_prints_witness :
  dataframe_or_printed
    (run (B := sample_builtins) env_may
         (call_mostrar_visao_geral df_ab "vendas" None))
  /\ scalar_or_raise
       (run (B := sample_builtins) env_may
            (call_obter_data_inicial df_dates "d" 3)).
Proof.
  split.
  - apply (proj1 (returns_dataframe_or_prints (B := sample_builtins) env_may
                    (call_mostrar_visao_geral df_ab "vendas" None))).
    reflexivity.
  - apply (proj2 (returns_dataframe_or_prints (B := sample_builtins) env_may
                    (call_obter_data_inicial df_dates "d" 3))).
    reflexivity.
Defined.

(** C3 as stated fails: [obter_data_inicial] returns a date. *)
Lemma obter_data_inicial_returns_scalar :
  run (B := sample_builtins) env_may (call_obter_data_inicial df_dates "d" 3)
  = ([], Ok (PyScalar (VDate (mkDate 2023 12 31))))
  /\ ~ (forall (B : Builtins) (env : Env) (c : Call),
          dataframe_or_printed (run env c)).
Proof.
  assert (E : run (B := sample_builtins) env_may
                (call_obter_data_inicial df_dates "d" 3)
              = ([], Ok (PyScalar (VDate (mkDate 2023 12 31))))).
  { reflexivity. }
  split; [exact E|].
  intro H.
  specialize (H sample_builtins env_may (call_obter_data_inicial df_dates "d" 3)).
  rewrite E in H. exact H.
Qed.

(** ** Dependence on the environment *)




(** So does [formatar_cols_moeda] on the locale: the same amounts are
    written differently for pt_BR and for en_US. *)
Example formatar_cols_moeda_depends_on_locale :
  run (B := sample_builtins) env_may (call_formatar_cols_moeda df_ab ["a"])
  <> run (B := sample_builtins) env_may_us
         (call_formatar_cols_moeda df_ab ["a"]).
Proof. vm_compute. intro H. discriminate H. Qed.

(** ** Numbers *)

Lemma Qccompare_of_Z a b : Qccompare (Qc_of_Z a) (Qc_of_Z b) = (a ?= b).
Proof.
  unfold Qccompare, Qc_of_Z, Q2Qc. cbn [this].
  rewrite (Qcompare_comp _ _ (Qred_correct (inject_Z a))
                         _ _ (Qred_correct (inject_Z b))).
  unfold Qcompare, inject_Z. simpl. rewrite !Z.mul_1_r. reflexivity.
Qed.

Lemma Qccompare_zero q : Qccompare q (Qc_of_Z 0) = (Qnum (this q) ?= 0).
Proof.
  unfold Qccompare, Qc_of_Z.
  change (this (Q2Qc (inject_Z 0))) with (inject_Z 0).
  unfold Qcompare, inject_Z. simpl. rewrite Z.mul_1_r. reflexivity.
Qed.

Lemma Qc_of_Z_inj a b : Qc_of_Z a = Qc_of_Z b -> a = b.
Proof.
  intro H. apply Z.compare_eq. rewrite <- Qccompare_of_Z. rewrite H.
  apply Qceq_alt. reflexivity.
Qed.

(** Rounding to two places gives a number of hundredths that is at most
    half a hundredth away, and a tie goes away from zero. *)
Lemma round_half_up_2_near (q : Qc) :
  exists n : Z,
    round_half_up q 2 = Q2Qc (n # 100)%Q
    /\ (Qabs (this q - (n # 100)) <= 1 # 200)%Q.
Proof.
  unfold round_half_up.
  change (pow10 2) with (inject_Z 100).
  set (x := this q).
  set (n0 := Qfloor (Qabs x * inject_Z 100 + (1 # 2))%Q).
  assert (Hlo : (inject_Z n0 <= Qabs x * inject_Z 100 + (1 # 2))%Q)
    by apply Qfloor_le.
  assert (Hhi : (Qabs x * inject_Z 100 + (1 # 2) < inject_Z (n0 + 1))%Q)
    by apply Qlt_floor.
  rewrite inject_Z_plus in Hhi.
  change (inject_Z 100) with (100 # 1)%Q in *.
  change (inject_Z 1) with (1 # 1)%Q in *.
  assert (Hdiv : forall n : Z, (inject_Z n / (100 # 1) == n # 100)%Q).
  { intro n. rewrite (Qmake_Qdiv n 100). reflexivity. }
  destruct (Z.ltb_spec (Qnum x) 0) as [Hneg|Hpos].
  - exists (- n0). split.
    + apply Q2Qc_eq_iff. rewrite Hdiv. reflexivity.
    + assert (Hx : (x <= 0)%Q) by (unfold Qle; simpl; lia).
      rewrite (Qabs_neg x Hx) in Hlo, Hhi.
      assert (E : (- n0 # 100 == - (n0 # 100))%Q) by reflexivity.
      rewrite E. rewrite <- Hdiv in *.
      apply Qabs_Qle_condition.
      split; unfold Qdiv; change (/ (100 # 1))%Q with (1 # 100)%Q; lra.
  - exists n0. split.
    + apply Q2Qc_eq_iff. rewrite Hdiv. reflexivity.
    + assert (Hx : (0 <= x)%Q) by (unfold Qle; simpl; lia).
      rewrite (Qabs_pos x Hx) in Hlo, Hhi.
      rewrite <- Hdiv.
      apply Qabs_Qle_condition.
      split; unfold Qdiv; change (/ (100 # 1))%Q with (1 # 100)%Q; lra.
Qed.

Example round_half_up_ties :
  round_half_up (Q2Qc (1 # 8)%Q) 2 = Q2Qc (13 # 100)%Q
  /\ round_half_up (Q2Qc (- 1 # 8)%Q) 2 = Q2Qc (- 13 # 100)%Q
  /\ round_half_up (Q2Qc (2 # 3)%Q) 2 = Q2Qc (67 # 100)%Q.
Proof. repeat split; apply Qc_is_canon; reflexivity. Qed.

(** ** Resolution of names *)

Lemma NoDup_map_eq {A C} (f : A -> C) (l : list A) (x y : A) :
  NoDup (map f l) -> In x l -> In y l -> f x = f y -> x = y.
Proof.
  induction l as [|a l IH]; simpl; intros Hnd Hx Hy E; [destruct Hx|].
  inversion Hnd as [|? ? Hnotin Hnd']; subst.
  destruct Hx as [->|Hx], Hy as [->|Hy]; auto.
  - exfalso. apply Hnotin. rewrite E. apply in_map. assumption.
  - exfalso. apply Hnotin. rewrite <- E. apply in_map. assumption.
Qed.

Lemma NoDup_map_of_inj {A C} (f : A -> C) (l : list A) :
  NoDup l ->
  (forall x y, In x l -> In y l -> f x = f y -> x = y) ->
  NoDup (map f l).
Proof.
  induction 1 as [|a l Hnotin Hnd IH]; intro Hinj; simpl; constructor.
  - intro Hin. apply in_map_iff in Hin. destruct Hin as [y [E Hy]].
    assert (y = a) by (apply Hinj; simpl; auto). subst. contradiction.
  - apply IH. intros x y Hx Hy. apply Hinj; right; assumption.
Qed.

Lemma lower_ascii_idem a : lower_ascii (lower_ascii a) = lower_ascii a.
Proof. destruct a as [[] [] [] [] [] [] [] []]; reflexivity. Qed.

Lemma ascii_lower_idem s : ascii_lower (ascii_lower s) = ascii_lower s.
Proof.
  induction s as [|a s IH]; simpl; [reflexivity|].
  rewrite lower_ascii_idem, IH. reflexivity.
Qed.

Lemma lower_ascii_plain a :
  plain_char a = true -> plain_char (lower_ascii a) = true.
Proof. destruct a as [[] [] [] [] [] [] [] []]; intro H; exact H || reflexivity. Qed.

Lemma lower_ascii_ascii a :
  ascii_char a = true -> ascii_char (lower_ascii a) = true.
Proof. destruct a as [[] [] [] [] [] [] [] []]; intro H; exact H || reflexivity. Qed.

Lemma all_chars_lower (p : ascii -> bool) (s : string) :
  (forall a, p a = true -> p (lower_ascii a) = true) ->
  all_chars p s = true -> all_chars p (ascii_lower s) = true.
Proof.
  intro Hp. induction s as [|a s IH]; simpl; [reflexivity|].
  intro H. apply andb_true_iff in H. destruct H as [Ha Hs].
  rewrite (Hp a Ha), (IH Hs). reflexivity.
Qed.

Lemma ascii_lower_plain s : plain s = true -> plain (ascii_lower s) = true.
Proof.
  unfold plain. intro H. apply andb_true_iff in H. destruct H as [Hne Hs].
  rewrite (all_chars_lower plain_char s lower_ascii_plain Hs), andb_true_r.
  destruct s; [discriminate | reflexivity].
Qed.

Lemma plain_char_ascii a : plain_char a = true -> ascii_char a = true.
Proof.
  unfold plain_char, ascii_char. intro H.
  repeat (apply andb_true_iff in H; destruct H as [H _]). exact H.
Qed.

Lemma plain_is_ascii s : plain s = true -> is_ascii s = true.
Proof.
  unfold plain, is_ascii. intro H. apply andb_true_iff in H.
  destruct H as [_ H]. induction s as [|a s IH]; simpl in *; [reflexivity|].
  apply andb_true_iff in H. destruct H as [Ha Hs].
  rewrite (plain_char_ascii a Ha), (IH Hs). reflexivity.
Qed.

Section NameResolution.
Context {B : Builtins}.

Lemma same_name_plain c name :
  plain c = true -> plain name = true ->
  same_name c name = String.eqb (name_key c) (name_key name).
Proof. intros Hc Hn. unfold same_name. rewrite Hc, Hn. reflexivity. Qed.

Lemma same_name_refl name : plain name = true -> same_name name name = true.
Proof.
  intro H. rewrite same_name_plain by assumption. apply String.eqb_refl.
Qed.

Lemma matches_cons c cols name :
  matches (c :: cols) name
  = ((if same_name c name then 1 else 0) + matches cols name)%nat.
Proof. unfold matches. simpl. destruct (same_name c name); reflexivity. Qed.

Lemma matches_app l1 l2 name :
  matches (l1 ++ l2) name = (matches l1 name + matches l2 name)%nat.
Proof. unfold matches. rewrite filter_app, length_app. reflexivity. Qed.

Lemma matches_none l name :
  (forall c, In c l -> same_name c name = false) -> matches l name = 0%nat.
Proof.
  induction l as [|a l IH]; intro H; [reflexivity|].
  rewrite matches_cons, (H a (or_introl eq_refl)), IH; [reflexivity|].
  intros c Hc. apply H. right. assumption.
Qed.

Lemma matches_In name cols :
  plain name = true -> In name cols -> (1 <= matches cols name)%nat.
Proof.
  intros Hp. induction cols as [|c cols IH]; intro Hin; [destruct Hin|].
  rewrite matches_cons. destruct Hin as [->|Hin].
  - rewrite same_name_refl by assumption. lia.
  - specialize (IH Hin). lia.
Qed.

Lemma positions_length name cols k :
  List.length (positions name cols k) = matches cols name.
Proof.
  revert k. induction cols as [|c cols IH]; intro k; [reflexivity|].
  rewrite matches_cons. simpl. destruct (same_name c name); simpl;
    rewrite IH; reflexivity.
Qed.

Lemma positions_none name cols k :
  matches cols name = 0%nat -> positions name cols k = [].
Proof.
  intro H. rewrite <- (positions_length name cols k) in H.
  destruct (positions name cols k); [reflexivity | discriminate].
Qed.

Lemma positions_once name cols k :
  one_match cols name ->
  positions name cols k = [(k + first_index name cols)%nat].
Proof.
  intros [Hp [Hin Hm]]. revert k Hin Hm.
  induction cols as [|c cols IH]; intros k Hin Hm; [destruct Hin|].
  rewrite matches_cons in Hm. simpl.
  destruct (same_name c name) eqn:E.
  - rewrite positions_none by lia.
    destruct (String.eqb_spec c name) as [->|N].
    + rewrite Nat.add_0_r. reflexivity.
    + exfalso. destruct Hin as [Hin|Hin]; [contradiction|].
      pose proof (matches_In name cols Hp Hin). lia.
  - destruct (String.eqb_spec c name) as [->|N].
    + rewrite same_name_refl in E by assumption. discriminate.
    + destruct Hin as [Hin|Hin]; [contradiction|].
      rewrite IH by (assumption || exact Hm). f_equal. lia.
Qed.

Lemma resolve_once cols name :
  one_match cols name -> resolve cols name = Ok (first_index name cols).
Proof.
  intro H. unfold resolve. rewrite (proj1 H).
  rewrite positions_once by assumption. reflexivity.
Qed.

Lemma resolve_twice cols name :
  plain name = true -> (2 <= matches cols name)%nat ->
  resolve cols name = Raise (AnalysisException (AmbiguousReference name)).
Proof.
  intros Hp H. unfold resolve. rewrite Hp.
  rewrite <- (positions_length name cols 0) in H.
  destruct (positions name cols 0) as [|i [|j l]]; simpl in H;
    [lia | lia | reflexivity].
Qed.

Lemma resolve_absent cols name :
  plain name = true -> matches cols name = 0%nat ->
  resolve cols name = Raise (AnalysisException (UnresolvedColumn name)).
Proof.
  intros Hp H. unfold resolve. rewrite Hp, positions_none by assumption.
  reflexivity.
Qed.

Lemma one_match_In name cols : one_match cols name -> In name cols.
Proof. intros [_ [H _]]. exact H. Qed.

Lemma one_match_plain name cols : one_match cols name -> plain name = true.
Proof. intros [H _]. exact H. Qed.

(** The one column taken for the name is the column of that name. *)
Lemma one_match_unique cols name c :
  one_match cols name -> In c cols -> same_name c name = true -> c = name.
Proof.
  intros [Hp [Hin Hm]] Hc E. unfold matches in Hm.
  assert (H1 : In name (List.filter (fun c => same_name c name) cols))
    by (apply filter_In; split; [assumption | apply same_name_refl, Hp]).
  assert (H2 : In c (List.filter (fun c => same_name c name) cols))
    by (apply filter_In; split; assumption).
  destruct (List.filter (fun c => same_name c name) cols) as [|x [|y l]];
    try discriminate.
  destruct H1 as [<-|[]], H2 as [<-|[]]. reflexivity.
Qed.

Lemma count_occ_le_matches cols name :
  plain name = true ->
  (count_occ string_dec cols name <= matches cols name)%nat.
Proof.
  intro Hp. induction cols as [|c cols IH]; [apply Nat.le_refl|].
  rewrite matches_cons. cbn [count_occ].
  destruct (string_dec c name) as [->|N].
  - rewrite same_name_refl by assumption. lia.
  - destruct (same_name c name); lia.
Qed.

Lemma one_match_count_occ cols name :
  one_match cols name -> count_occ string_dec cols name = 1%nat.
Proof.
  intros [Hp [Hin Hm]].
  pose proof (count_occ_le_matches cols name Hp).
  pose proof (proj1 (count_occ_In string_dec cols name) Hin). lia.
Qed.

Lemma one_match_middle pre name post :
  plain name = true ->
  (forall c, In c pre -> same_name c name = false) ->
  (forall c, In c post -> same_name c name = false) ->
  one_match (pre ++ name :: post) name.
Proof.
  intros Hp Hpre Hpost. split; [assumption|]. split.
  - apply in_or_app. right. left. reflexivity.
  - rewrite matches_app, matches_cons, same_name_refl by assumption.
    rewrite (matches_none pre), (matches_none post) by assumption.
    reflexivity.
Qed.

Lemma none_same_not_In name l :
  plain name = true ->
  (forall c, In c l -> same_name c name = false) -> ~ In name l.
Proof.
  intros Hp H Hin. specialize (H name Hin).
  rewrite same_name_refl in H by assumption. discriminate.
Qed.

Lemma matches_count_key cols name :
  Forall (fun c => plain c = true) cols -> plain name = true ->
  matches cols name
  = count_occ string_dec (map name_key cols) (name_key name).
Proof.
  intros Hall Hp. induction Hall as [|c cols Hc Hall IH]; [reflexivity|].
  rewrite matches_cons, IH, same_name_plain by assumption.
  cbn [map count_occ].
  destruct (string_dec (name_key c) (name_key name)) as [E|N].
  - rewrite E, String.eqb_refl. reflexivity.
  - apply String.eqb_neq in N. rewrite N. reflexivity.
Qed.

Lemma unambiguous_NoDup cols : unambiguous cols -> NoDup cols.
Proof. intros [_ H]. apply (NoDup_map_inv name_key). exact H. Qed.

Lemma unambiguous_plain cols c :
  unambiguous cols -> In c cols -> plain c = true.
Proof. intros [H _] Hc. rewrite Forall_forall in H. auto. Qed.

(** Among unambiguous names every name designates its own column. *)
Lemma unambiguous_one_match name cols :
  unambiguous cols -> In name cols -> one_match cols name.
Proof.
  intros Hu Hin. pose proof (unambiguous_plain cols name Hu Hin) as Hp.
  destruct Hu as [Hall Hnd].
  split; [assumption|]. split; [assumption|].
  rewrite matches_count_key by assumption.
  pose proof (proj1 (NoDup_count_occ string_dec _) Hnd (name_key name)).
  pose proof (proj1 (count_occ_In string_dec (map name_key cols)
                       (name_key name)) (in_map name_key cols name Hin)).
  lia.
Qed.

Lemma unambiguous_perm cols cols' :
  Permutation cols cols' -> unambiguous cols -> unambiguous cols'.
Proof.
  intros Hperm [Hall Hnd]. split.
  - exact (Permutation_Forall Hperm Hall).
  - exact (Permutation_NoDup (Permutation_map name_key Hperm) Hnd).
Qed.

Lemma unambiguous_same cols x y :
  unambiguous cols -> In x cols -> In y cols ->
  same_name x y = true -> x = y.
Proof.
  intros Hu Hx Hy E.
  rewrite same_name_plain in E by (eapply unambiguous_plain; eassumption).
  apply String.eqb_eq in E.
  exact (NoDup_map_eq name_key cols x y (proj2 Hu) Hx Hy E).
Qed.

Lemma unambiguous_sub cols l :
  unambiguous cols -> NoDup l -> incl l cols -> unambiguous l.
Proof.
  intros Hu Hnd Hincl. split.
  - apply Forall_forall. intros c Hc.
    exact (unambiguous_plain cols c Hu (Hincl c Hc)).
  - apply NoDup_map_of_inj; [assumption|].
    intros x y Hx Hy E.
    exact (NoDup_map_eq name_key cols x y (proj2 Hu) (Hincl x Hx)
             (Hincl y Hy) E).
Qed.

(** Names that each designate one column, listed once each, are
    unambiguous among themselves. *)
Lemma one_match_all_unambiguous cols l :
  NoDup l -> (forall c, In c l -> one_match cols c) -> unambiguous l.
Proof.
  intros Hnd Hall. split.
  - apply Forall_forall. intros c Hc. exact (proj1 (Hall c Hc)).
  - apply NoDup_map_of_inj; [assumption|].
    intros x y Hx Hy E.
    apply (one_match_unique cols y x (Hall y Hy)).
    + exact (one_match_In x cols (Hall x Hx)).
    + rewrite same_name_plain
        by (apply (one_match_plain _ cols); auto).
      rewrite E. apply String.eqb_refl.
Qed.

(** Within unambiguous columns, the session matches a name exactly where
    the name occurs. *)
Lemma matches_count_occ cols l c :
  unambiguous cols -> incl l cols -> In c cols ->
  matches l c = count_occ string_dec l c.
Proof.
  intros Hu Hincl Hc. induction l as [|a l IH]; [reflexivity|].
  rewrite matches_cons. cbn [count_occ].
  rewrite IH by (intros x Hx; apply Hincl; right; assumption).
  assert (Ha : In a cols) by (apply Hincl; left; reflexivity).
  destruct (string_dec a c) as [->|N].
  - rewrite same_name_refl
      by (eapply unambiguous_plain; eassumption).
    reflexivity.
  - destruct (same_name a c) eqn:E; [|reflexivity].
    exfalso. apply N. exact (unambiguous_same cols a c Hu Ha Hc E).
Qed.

Lemma one_match_of_count cols l c :
  unambiguous cols -> incl l cols -> In c cols ->
  count_occ string_dec l c = 1%nat -> one_match l c.
Proof.
  intros Hu Hincl Hc H. split; [|split].
  - eapply unambiguous_plain; eassumption.
  - apply (count_occ_In string_dec). lia.
  - rewrite (matches_count_occ cols) by assumption. exact H.
Qed.

End NameResolution.

Lemma cell_first_index cols name r :
  In name cols ->
  cell (first_index name cols) r = value_under cols r name.
Proof.
  unfold cell. revert r. induction cols as [|c cols IH]; intros r Hin; simpl.
  - destruct Hin.
  - destruct (String.eqb_spec c name) as [E|E].
    + destruct r; reflexivity.
    + destruct Hin as [Hin|Hin]; [contradiction|].
      destruct r as [|v r]; simpl; [|apply IH; assumption].
      destruct (first_index name cols); reflexivity.
Qed.

Lemma first_index_app_absent name pre post :
  ~ In name pre ->
  first_index name (pre ++ name :: post) = List.length pre.
Proof.
  induction pre as [|c pre IH]; intro H; simpl.
  - rewrite String.eqb_refl. reflexivity.
  - destruct (String.eqb_spec c name) as [E|E].
    + exfalso. apply H. left. assumption.
    + f_equal. apply IH. intro Hin. apply H. right. assumption.
Qed.

Lemma count_occ_NoDup_In name cols :
  NoDup cols -> In name cols -> count_occ string_dec cols name = 1%nat.
Proof.
  intros Hnd Hin.
  pose proof (proj1 (NoDup_count_occ string_dec cols) Hnd name).
  pose proof (proj1 (count_occ_In string_dec cols name) Hin).
  lia.
Qed.

(** ** Aggregation over the whole dataframe *)

Lemma filter_all {A} (l : list A) : List.filter (fun _ => true) l = l.
Proof. induction l; simpl; congruence. Qed.

Section Aggregation.
Context {B : Builtins}.

Lemma compile_col cols name :
  one_match cols name ->
  compile cols (col name) = Ok (cell (first_index name cols)).
Proof. intro H. simpl. rewrite resolve_once by assumption. reflexivity. Qed.

Lemma agg_global df exprs gs :
  exprs <> [] ->
  mapM (compile_agg (columns df)) exprs = Ok gs ->
  DF.agg df exprs
  = Ok (mkDF (map output_name exprs) [map (fun g => g (rows df)) gs]).
Proof.
  intros Hne Hgs. unfold DF.agg, DF.agg_grouped.
  destruct exprs as [|e exprs]; [congruence|].
  cbn [DF.groupBy gd_df gd_keys]. rewrite Hgs.
  cbn [mapM bind map app List.length DF.group_keys].
  unfold DF.members, DF.row_eqb.
  destruct (row_eq_dec [] []) as [_|N]; [|congruence].
  rewrite filter_all. reflexivity.
Qed.

(** [count(when(p, c))] counts the rows where [p] holds. *)
Lemma count_when (p : Row -> bool) (c : string) (rs : list Row) :
  agg_count (map (fun r => op_when (VBool (p r)) (VStr c)) rs)
  = VInt (Z.of_nat (List.length (List.filter p rs))).
Proof.
  unfold agg_count, non_null.
  apply (f_equal VInt), (f_equal Z.of_nat).
  induction rs as [|r rs IH]; simpl in *; [reflexivity|].
  destruct (p r); simpl; congruence.
Qed.

End Aggregation.

Lemma eqNullSafe_zero v : op_eqNullSafe v (VInt 0) = VBool (is_zero v).
Proof.
  destruct v as [|b|z|q|s|d]; try reflexivity.
  - unfold op_eqNullSafe, compare_same, num_of, is_zero.
    rewrite Qccompare_of_Z. destruct (Z.eqb_spec z 0) as [->|N].
    + reflexivity.
    + destruct (z ?= 0) eqn:C; try reflexivity.
      apply Z.compare_eq in C. contradiction.
  - unfold op_eqNullSafe, compare_same, num_of, is_zero.
    rewrite Qccompare_zero. destruct (Z.eqb_spec (Qnum (this q)) 0) as [E|N].
    + rewrite E. reflexivity.
    + destruct (Qnum (this q) ?= 0) eqn:C; try reflexivity.
      apply Z.compare_eq in C. contradiction.
Qed.

(** ** obter_qtd_zeros *)

(** Closed instances of the hypotheses on names, for the examples. *)
Ltac listed := repeat first [left; reflexivity | right].

Ltac names_one := split; [reflexivity | split; [listed | reflexivity]].

Ltac unambiguous_names :=
  split; [repeat constructor
         | vm_compute; repeat constructor; simpl; intuition discriminate].

(** C9, as the code has it.  For a non-empty list of names that each
    designate exactly one column of the dataframe (a numeric one; the name
    is plain, spelled as the column is, and the session takes no other
    column for it), [obter_qtd_zeros] returns one row whose cell under each
    listed column is the number of rows with a zero in that column; a null
    is not a zero. *)
Theorem obter_qtd_zeros_counts {B : Builtins}
  (df : SparkDataFrame) (lst_nm_cols : list string) :
  lst_nm_cols <> [] ->
  (forall c, In c lst_nm_cols ->
     names_one_column df c
     /\ Forall (fun r => is_numeric_or_null (value_under (columns df) r c))
               (rows df)) ->
  obter_qtd_zeros df lst_nm_cols
  = Ok (mkDF lst_nm_cols
             [map (fun c => VInt (count_rows df c is_zero)) lst_nm_cols])
  /\ is_zero VNull = false.
Proof.
  intros Hne Hcols. split; [|reflexivity].
  unfold obter_qtd_zeros.
  rewrite (agg_global df _
             (map (fun c rs =>
                     agg_count
                       (map (fun r => op_when
                                        (op_eqNullSafe
                                           (cell (first_index c (columns df)) r)
                                           (VInt 0))
                                        (VStr c)) rs))
                  lst_nm_cols)).
  - rewrite !map_map. cbn [output_name]. rewrite map_id.
    do 3 f_equal. apply map_ext_in. intros c Hc.
    destruct (Hcols c Hc) as [Hone _].
    rewrite (map_ext _ (fun r => op_when
                         (VBool (is_zero (value_under (columns df) r c)))
                         (VStr c))).
    + apply count_when.
    + intro r. rewrite eqNullSafe_zero, cell_first_index; [reflexivity|].
      apply (one_match_In c). exact Hone.
  - destruct lst_nm_cols; [congruence | discriminate].
  - apply mapM_map_Ok. intros c Hc.
    destruct (Hcols c Hc) as [Hone _].
    cbn [compile_agg compile]. rewrite resolve_once by exact Hone.
    reflexivity.
Qed.

Lemma obter_qtd_zeros_counts_witness :
  obter_qtd_zeros (B := sample_builtins) df_zeros ["a"; "b"]
  = Ok (mkDF ["a"; "b"] [[VInt 2; VInt 2]])
  /\ is_zero VNull = false.
Proof.
  apply (obter_qtd_zeros_counts (B := sample_builtins) df_zeros ["a"; "b"]).
  - discriminate.
  - intros c [<- | [<- | []]]; (split; [names_one | repeat constructor]).
Defined.

(** C9 as stated fails on the empty list, for which [agg] refuses to run,
    and on a name borne by two columns. *)
Lemma obter_qtd_zeros_no_result :
  obter_qtd_zeros (B := sample_builtins) df_zeros []
  = Raise (AssertionError "exprs should not be empty")
  /\ obter_qtd_zeros (B := sample_builtins) df_dup ["a"]
     = Raise (AnalysisException (AmbiguousReference "a")).
Proof. split; reflexivity. Qed.

(** Two columns whose names differ by case only are two columns for Python
    and one name for the session. *)
Example obter_qtd_zeros_case :
  obter_qtd_zeros (B := sample_builtins) df_dD ["d"]
  = Raise (AnalysisException (AmbiguousReference "d")).
Proof. reflexivity. Qed.

(** ** obter_pct_ausentes *)

Lemma value_under_map (h : string -> value) lst c :
  In c lst -> value_under lst (map h lst) c = h c.
Proof.
  induction lst as [|a lst IH]; intro H; simpl.
  - destruct H.
  - destruct (String.eqb_spec a c) as [->|N]; [reflexivity|].
    destruct H as [H|H]; [contradiction | apply IH; assumption].
Qed.

Lemma pct_of_count n total :
  total <> 0 ->
  op_round 2 (op_div (op_mul (VInt n) (VInt 100)) (VInt total)) = pct n total.
Proof.
  intro H. unfold op_mul, op_div, num_of.
  destruct (Qc_eq_dec (Qc_of_Z total) (Qc_of_Z 0)) as [E|_].
  - apply Qc_of_Z_inj in E. contradiction.
  - reflexivity.
Qed.

Section Percentages.
Context {B : Builtins}.

Lemma obter_pct_single_row (lst : list string) (h : string -> Z) (total : Z) :
  unambiguous lst -> total <> 0 ->
  obter_pct (mkDF lst [map (fun c => VInt (h c)) lst]) lst total
  = Ok (mkDF lst [map (fun c => pct (h c) total) lst]).
Proof.
  intros Hnd Ht. unfold obter_pct, DF.select. cbn [columns rows].
  rewrite (mapM_map_Ok _ _
             (fun c r => op_round 2
                           (op_div (op_mul (cell (first_index c lst) r)
                                           (VInt 100))
                                   (VInt total)))).
  - cbn [bind map]. rewrite !map_map. cbn [output_name]. rewrite map_id.
    do 3 f_equal. apply map_ext_in. intros c Hc.
    rewrite cell_first_index by assumption.
    rewrite (value_under_map (fun c => VInt (h c))) by assumption.
    apply pct_of_count. assumption.
  - intros c Hc. cbn [compile].
    rewrite resolve_once by (apply unambiguous_one_match; assumption).
    reflexivity.
Qed.

Lemma obter_qtd_ausentes_counts (df : SparkDataFrame) (lst : list string) :
  lst <> [] ->
  (forall c, In c lst -> names_one_column df c) ->
  obter_qtd_ausentes df (Some lst)
  = Ok (mkDF lst [map (fun c => VInt (count_rows df c is_null)) lst]).
Proof.
  intros Hne Hcols. unfold obter_qtd_ausentes, or_columns.
  rewrite (agg_global df _
             (map (fun c rs =>
                     agg_count
                       (map (fun r => op_when
                                        (VBool (is_null
                                           (cell (first_index c (columns df)) r)))
                                        (VStr c)) rs))
                  lst)).
  - rewrite !map_map. cbn [output_name]. rewrite map_id.
    do 3 f_equal. apply map_ext_in. intros c Hc.
    rewrite (map_ext _ (fun r => op_when
                         (VBool (is_null (value_under (columns df) r c)))
                         (VStr c))).
    + apply count_when.
    + intro r. rewrite cell_first_index; [reflexivity|].
      eapply one_match_In, Hcols; assumption.
  - destruct lst; [congruence | discriminate].
  - apply mapM_map_Ok. intros c Hc.
    cbn [compile_agg compile]. rewrite resolve_once by (apply Hcols; assumption).
    reflexivity.
Qed.

End Percentages.

(** C7, as the code has it.  For a non-empty list of distinct names that
    each designate exactly one column (all the columns when [None]; each
    name is plain, spelled as the column is, and the session takes no other
    column for it) and a total other than zero (the number of rows when
    [None]; a 64-bit integer), [obter_pct_ausentes] returns one row whose
    cell under each listed column is the number of rows that are null in
    that column, times 100, divided by the total, rounded to two decimal
    places. *)
Theorem obter_pct_ausentes_pct {B : Builtins} (df : SparkDataFrame)
  (lst_nm_cols : option (list string)) (tam_df : option Z) :
  or_columns df lst_nm_cols <> [] ->
  NoDup (or_columns df lst_nm_cols) ->
  (forall c, In c (or_columns df lst_nm_cols) -> names_one_column df c) ->
  or_count df tam_df <> 0 ->
  is_int64 (or_count df tam_df) ->
  obter_pct_ausentes df lst_nm_cols tam_df
  = Ok (mkDF (or_columns df lst_nm_cols)
             [map (fun c => pct (count_rows df c is_null) (or_count df tam_df))
                  (or_columns df lst_nm_cols)]).
Proof.
  intros Hne Hnd Hcols Ht _. unfold obter_pct_ausentes.
  rewrite obter_qtd_ausentes_counts by assumption.
  cbn [bind]. apply obter_pct_single_row; [|assumption].
  exact (one_match_all_unambiguous (columns df) _ Hnd Hcols).
Qed.

Lemma obter_pct_ausentes_pct_witness :
  obter_pct_ausentes (B := sample_builtins) df_zeros None None
  = Ok (mkDF ["a"; "b"] [[pct 1 4; pct 1 4]]).
Proof.
  apply (obter_pct_ausentes_pct (B := sample_builtins) df_zeros None None).
  - discriminate.
  - repeat constructor; simpl; intuition discriminate.
  - intros c [<- | [<- | []]]; names_one.
  - discriminate.
  - vm_compute. split; [discriminate | reflexivity].
Defined.

(** C7 as stated fails on a list that repeats a name (the second step finds
    two columns of that name in the table of counts) and on the empty
    list. *)
Lemma obter_pct_ausentes_no_result :
  obter_pct_ausentes (B := sample_builtins) df_zeros (Some ["a"; "a"]) None
  = Raise (AnalysisException (AmbiguousReference "a"))
  /\ obter_pct_ausentes (B := sample_builtins) df_zeros (Some []) None
     = Raise (AssertionError "exprs should not be empty").
Proof. split; reflexivity. Qed.

(** ** renomear_cols *)

Lemma bind_assoc {A C D} (m : result A) (f : A -> result C) (g : C -> result D) :
  bind (bind m f) g = bind m (fun a => bind (f a) g).
Proof. destruct m; reflexivity. Qed.

Lemma index_then_getitem (d : dict) (c : string) :
  (j <- py_index c (keys d) ;; py_getitem (values d) j)
  = match dict_get d c with
    | Some v => Ok v
    | None => Raise (ValueError (c ++ " is not in list"))
    end.
Proof.
  induction d as [|[k v] d IH]; simpl; [reflexivity|].
  destruct (String.eqb k c); simpl; [reflexivity|].
  rewrite bind_assoc. simpl. exact IH.
Qed.

Lemma py_setitem_app {A} (l1 l2 : list A) (y x : A) :
  py_setitem (l1 ++ y :: l2) (List.length l1) x = Ok (l1 ++ x :: l2)%list.
Proof.
  induction l1 as [|a l1 IH]; simpl; [reflexivity|].
  rewrite IH. reflexivity.
Qed.

Lemma renomear_step_app (d : dict) (pre rest : list string) (c : string) :
  renomear_step d (Ok (pre ++ c :: rest)%list) (List.length pre, c)
  = Ok (pre ++ renamed d c :: rest)%list.
Proof.
  unfold renomear_step. cbn [bind].
  rewrite <- (bind_assoc (py_index c (keys d))).
  rewrite index_then_getitem. unfold renamed.
  destruct (dict_get d c) as [v|]; cbn [bind try_except];
    rewrite py_setitem_app; reflexivity.
Qed.

Lemma renomear_loop (d : dict) (rest pre : list string) :
  fold_left (renomear_step d) (enumerate_from (List.length pre) rest)
            (Ok (map (renamed d) pre ++ rest)%list)
  = Ok (map (renamed d) (pre ++ rest)).
Proof.
  revert pre. induction rest as [|c rest IH]; intro pre.
  - simpl. rewrite !app_nil_r. reflexivity.
  - cbn [enumerate_from fold_left].
    pose proof (renomear_step_app d (map (renamed d) pre) rest c) as Hs.
    rewrite length_map in Hs. rewrite Hs. clear Hs.
    specialize (IH (pre ++ [c])%list).
    rewrite length_app, map_app in IH. cbn [List.length map] in IH.
    rewrite <- !app_assoc in IH. cbn [app] in IH.
    rewrite Nat.add_1_r in IH. exact IH.
Qed.

Lemma combine_map_r {A C} (f : A -> C) (l : list A) :
  combine l (map f l) = map (fun a => (a, f a)) l.
Proof. induction l; simpl; congruence. Qed.

(** Reading every column of a well-formed row by its (unique) name gives the
    row back. *)
Lemma cells_by_name (cols : list string) (r : Row) :
  NoDup cols -> List.length r = List.length cols ->
  map (fun c => cell (first_index c cols) r) cols = r.
Proof.
  revert r. induction cols as [|c cols IH]; intros r Hnd Hlen.
  - destruct r; [reflexivity | discriminate].
  - destruct r as [|v r]; [discriminate|].
    inversion Hnd as [|? ? Hnotin Hnd']; subst.
    cbn [map first_index]. rewrite String.eqb_refl.
    unfold cell at 1. cbn [nth]. f_equal.
    transitivity (map (fun x => cell (first_index x cols) r) cols).
    + apply map_ext_in. intros x Hx.
      destruct (String.eqb_spec c x) as [->|_]; [contradiction|].
      reflexivity.
    + apply IH; [assumption | simpl in Hlen; lia].
Qed.

(** C6, as the code has it.  On a dataframe whose column names are plain
    and pairwise distinct for the session (also when case is ignored, unless
    the session is case-sensitive), [renomear_cols] returns the same rows
    under the same number of columns, the column at each position being
    renamed to [dict_cols[name]] when its name is a key of the dictionary
    and keeping its name otherwise. *)
Theorem renomear_cols_renames {B : Builtins}
  (df : SparkDataFrame) (dict_cols : dict) :
  well_formed df ->
  unambiguous (columns df) ->
  renomear_cols df dict_cols
  = Ok (mkDF (map (renamed dict_cols) (columns df)) (rows df)).
Proof.
  intros Hwf Hu. pose proof (unambiguous_NoDup _ Hu) as Hnd.
  unfold renomear_cols, enumerate.
  pose proof (renomear_loop dict_cols (columns df) []) as Hloop.
  cbn [List.length map app] in Hloop. rewrite Hloop. clear Hloop.
  cbn [bind].
  rewrite combine_map_r, map_map. cbn [fst snd].
  unfold DF.select.
  rewrite (mapM_map_Ok _ _ (fun c => cell (first_index c (columns df)))).
  - cbn [bind]. rewrite map_map. cbn [output_name].
    apply (f_equal Ok), (f_equal2 mkDF); [reflexivity|].
    rewrite <- (map_id (rows df)) at 2.
    apply map_ext_in. intros r Hr.
    rewrite map_map. apply cells_by_name; [assumption|].
    unfold well_formed in Hwf. rewrite Forall_forall in Hwf. auto.
  - intros c Hc. cbn [compile].
    rewrite resolve_once by (apply unambiguous_one_match; assumption).
    reflexivity.
Qed.

Lemma renomear_cols_renames_witness :
  renomear_cols (B := sample_builtins) df_ab [("b", "total"); ("z", "w")]
  = Ok (mkDF ["a"; "total"] (rows df_ab)).
Proof.
  apply (renomear_cols_renames (B := sample_builtins) df_ab
           [("b", "total"); ("z", "w")]).
  - repeat constructor.
  - unambiguous_names.
Defined.

(** C6 as stated fails on a dataframe with two columns of the same name:
    [col(c_antes)] is then ambiguous and nothing is returned. *)
Lemma renomear_cols_ambiguous :
  renomear_cols (B := sample_builtins) df_dup [("a", "z")]
  = Raise (AnalysisException (AmbiguousReference "a")).
Proof. reflexivity. Qed.

(** The same happens when two names differ by case only. *)
Example renomear_cols_case :
  renomear_cols (B := sample_builtins) df_dD [("x", "y")]
  = Raise (AnalysisException (AmbiguousReference "d")).
Proof. reflexivity. Qed.

(** ** filtrar_ultimos_n_meses *)

Ltac date_cases :=
  unfold date_leb, date_compare; simpl;
  repeat match goal with
         | |- context [?x ?= ?y] => destruct (Z.compare_spec x y)
         | H : context [?x ?= ?y] |- _ => destruct (Z.compare_spec x y)
         end;
  subst; try reflexivity; try discriminate; try lia.

Lemma date_leb_refl a : date_leb a a = true.
Proof. destruct a. date_cases. Qed.

Lemma date_leb_trans a b c :
  date_leb a b = true -> date_leb b c = true -> date_leb a c = true.
Proof. destruct a, b, c. date_cases. Qed.

Lemma date_compare_Lt_leb a b : date_compare a b = Lt -> date_leb a b = true.
Proof. unfold date_leb. intros ->. reflexivity. Qed.

Lemma date_compare_not_Lt_leb a b :
  date_compare a b <> Lt -> date_leb b a = true.
Proof.
  destruct a, b. date_cases;
    let Hn := fresh "Hn" in
    intro Hn; first [reflexivity | congruence | lia].
Qed.

(** The maximum of a column of dates and nulls. *)
Lemma agg_max_dates (l : list value) :
  Forall is_date_or_null l ->
  (agg_max l = VNull /\ forall d, ~ In (VDate d) l)
  \/ (exists m, agg_max l = VDate m /\ In (VDate m) l
                /\ forall d, In (VDate d) l -> date_leb d m = true).
Proof.
  induction l as [|a l IH]; intro H.
  - left. split; [reflexivity | intros d []].
  - inversion H as [|? ? Ha Hl]; subst.
    cbn [agg_max fold_right]. fold (agg_max l).
    destruct (IH Hl) as [[E Hno] | [m [E [Hin Hmax]]]]; rewrite E.
    + destruct a as [| | | | |x]; try contradiction.
      * left. split; [reflexivity|].
        intros d [Hd|Hd]; [discriminate | exact (Hno d Hd)].
      * right. exists x. split; [reflexivity|]. split; [left; reflexivity|].
        intros d [Hd|Hd].
        -- inversion Hd. apply date_leb_refl.
        -- destruct (Hno d Hd).
    + destruct a as [| | | | |x]; try contradiction.
      * right. exists m. split; [reflexivity|]. split; [right; assumption|].
        intros d [Hd|Hd]; [discriminate | auto].
      * unfold value_max, value_compare, compare_same.
        destruct (date_compare x m) eqn:C.
        -- right. exists x. split; [reflexivity|]. split; [left; reflexivity|].
           intros d [Hd|Hd].
           ++ inversion Hd. apply date_leb_refl.
           ++ apply (date_leb_trans d m x); [auto|].
              apply date_compare_not_Lt_leb. congruence.
        -- right. exists m. split; [reflexivity|]. split; [right; assumption|].
           intros d [Hd|Hd].
           ++ inversion Hd; subst. apply date_compare_Lt_leb. assumption.
           ++ auto.
        -- right. exists x. split; [reflexivity|]. split; [left; reflexivity|].
           intros d [Hd|Hd].
           ++ inversion Hd. apply date_leb_refl.
           ++ apply (date_leb_trans d m x); [auto|].
              apply date_compare_not_Lt_leb. congruence.
Qed.

Section Filter.
Context {B : Builtins}.

Lemma obter_data_inicial_value (df : SparkDataFrame) (nm : string) (n : Z) :
  names_one_column df nm ->
  obter_data_inicial df nm n
  = DF.to_python
      (op_add_months (- n)
         (agg_max (map (fun r => value_under (columns df) r nm) (rows df)))).
Proof.
  intro Hone. unfold obter_data_inicial.
  rewrite (agg_global df _
             [fun rs => op_add_months (- n)
                          (agg_max (map (cell (first_index nm (columns df)))
                                        rs))]).
  - cbn [bind DF.collect rows map mapM].
    rewrite (map_ext (cell (first_index nm (columns df)))
                     (fun r => value_under (columns df) r nm))
      by (intro r; apply cell_first_index, (one_match_In nm); exact Hone).
    destruct (DF.to_python _); reflexivity.
  - discriminate.
  - cbn [mapM compile_agg compile]. rewrite resolve_once by exact Hone.
    reflexivity.
Qed.

Lemma filter_after (df : SparkDataFrame) (nm : string) (d0 : date) :
  names_one_column df nm ->
  (forall r, In r (rows df) ->
             is_date_or_null (value_under (columns df) r nm)) ->
  DF.filter df (gt (cast (col nm) DateType) (lit (VDate d0)))
  = Ok (mkDF (columns df)
             (List.filter
                (fun r => is_date_after d0 (value_under (columns df) r nm))
                (rows df))).
Proof.
  intros Hone Hdates. unfold DF.filter. cbn [compile].
  rewrite resolve_once by exact Hone. cbn [bind lift1 lift2].
  do 2 f_equal. apply filter_ext_in. intros r Hr.
  rewrite cell_first_index by (apply (one_match_In nm); exact Hone).
  specialize (Hdates r Hr).
  destruct (value_under (columns df) r nm) as [| | | | |d];
    try contradiction; [reflexivity|].
  cbn. destruct (date_compare d d0); reflexivity.
Qed.

End Filter.




(** The result is that of the session the dataframe belongs to: where
    [spark.sql.caseSensitive] is set, d and D are two names and the same
    call returns. *)
Example filtrar_ultimos_n_meses_case_sensitive :
  filtrar_ultimos_n_meses (B := case_sensitive_builtins) df_dD "d" 3
  = Ok df_dD.
Proof. reflexivity. Qed.

(** It also fails when the bound leaves the years 1 to 9999 of
    [datetime.date]: the bound cannot be collected. *)
Example filtrar_ultimos_n_meses_out_of_range :
  filtrar_ultimos_n_meses (B := sample_builtins) df_dates "d" 120000
  = Raise (ValueError "year is out of range").
Proof. reflexivity. Qed.

(** ** Sorting *)

Section Sorting.
Context {A : Type} (leb : A -> A -> bool) (mu : A -> Z).

Lemma insert_by_perm x l : Permutation (insert_by leb x l) (x :: l).
Proof.
  induction l as [|y l IH]; simpl; [reflexivity|].
  destruct (leb x y); [reflexivity|].
  rewrite IH. apply perm_swap.
Qed.

Lemma sort_by_perm l : Permutation (sort_by leb l) l.
Proof.
  induction l as [|x l IH]; simpl; [reflexivity|].
  rewrite insert_by_perm. constructor. exact IH.
Qed.

Lemma insert_by_sorted x s :
  (forall b, In b s -> leb x b = (mu b <=? mu x)) ->
  StronglySorted (descending mu) s ->
  StronglySorted (descending mu) (insert_by leb x s).
Proof.
  intros Hleb Hs. induction Hs as [|y s Hs IH Hall]; simpl.
  - repeat constructor.
  - rewrite (Hleb y (or_introl eq_refl)).
    destruct (Z.leb_spec (mu y) (mu x)) as [Hle|Hlt].
    + constructor; [constructor; assumption|].
      constructor; [exact Hle|].
      rewrite Forall_forall in *. intros z Hz.
      specialize (Hall z Hz). unfold descending in *. lia.
    + constructor.
      * apply IH. intros b Hb. apply Hleb. right. assumption.
      * rewrite Forall_forall in *. intros z Hz.
        apply (Permutation_in _ (insert_by_perm x s)) in Hz.
        destruct Hz as [<-|Hz]; [unfold descending; lia | auto].
Qed.

Lemma sort_by_sorted l :
  (forall a b, In a l -> In b l -> leb a b = (mu b <=? mu a)) ->
  StronglySorted (descending mu) (sort_by leb l).
Proof.
  induction l as [|x l IH]; intro Hleb; simpl.
  - constructor.
  - apply insert_by_sorted.
    + intros b Hb. apply (Permutation_in _ (sort_by_perm l)) in Hb.
      apply Hleb; [left; reflexivity | right; assumption].
    + apply IH. intros a b Ha Hb. apply Hleb; right; assumption.
Qed.

End Sorting.

(** ** Grouping and counting *)

Lemma value_compare_ints a b : value_compare (VInt a) (VInt b) = (a ?= b).
Proof.
  unfold value_compare, compare_same, num_of. apply Qccompare_of_Z.
Qed.

Lemma count_ones {X} (rs : list X) :
  agg_count (map (fun _ => VInt 1) rs) = VInt (Z.of_nat (List.length rs)).
Proof.
  unfold agg_count, non_null. apply (f_equal VInt), (f_equal Z.of_nat).
  induction rs; simpl; congruence.
Qed.

Lemma group_keys_nonempty {B : Builtins} (key : Row -> Row) (n : nat)
  (rs : list Row) :
  n <> O ->
  DF.group_keys key n rs = engine_order (nodup row_eq_dec (map key rs)).
Proof. destruct n; [congruence | reflexivity]. Qed.

Lemma engine_order_In {B : Builtins} (l : list Row) (k : Row) :
  In k (engine_order l) <-> In k l.
Proof.
  split; apply Permutation_in;
    [apply engine_order_perm | apply Permutation_sym, engine_order_perm].
Qed.

Lemma engine_order_NoDup {B : Builtins} (l : list Row) :
  NoDup l -> NoDup (engine_order l).
Proof.
  apply Permutation_NoDup, Permutation_sym, engine_order_perm.
Qed.


Lemma members_length (key : Row -> Row) (k : Row) (rs : list Row) :
  List.length (DF.members key k rs) = count_occ row_eq_dec (map key rs) k.
Proof.
  unfold DF.members, DF.row_eqb.
  induction rs as [|r rs IH]; simpl; [reflexivity|].
  destruct (row_eq_dec (key r) k); simpl; congruence.
Qed.

Section Frequencies.
Context {B : Builtins}.

Lemma count_grouped_table (df : SparkDataFrame) (names : list string) :
  names <> [] ->
  (forall c, In c names -> names_one_column df c) ->
  DF.count_grouped (DF.groupBy df (map col names))
  = Ok (mkDF (names ++ ["count"])%list
             (map (fun k => (k ++ [VInt (frequency df names k)])%list)
                  (engine_order
                     (nodup row_eq_dec (map (key_of df names) (rows df)))))).
Proof.
  intros Hne Hcols. unfold DF.count_grouped, DF.agg_grouped.
  cbn [DF.groupBy gd_df gd_keys].
  rewrite (mapM_map_Ok _ _ (fun c => cell (first_index c (columns df)))).
  2:{ intros c Hc. apply compile_col. apply Hcols. assumption. }
  cbn [bind mapM compile_agg compile over_group map output_name].
  set (key := fun r : Row => map (fun f : Row -> value => f r)
                               (map (fun c => cell (first_index c (columns df)))
                                    names)).
  assert (Hkey : forall r, key r = key_of df names r).
  { intro r. unfold key, key_of. rewrite map_map.
    apply map_ext_in. intros c Hc. apply cell_first_index.
    eapply one_match_In, Hcols; assumption. }
  rewrite length_map, group_keys_nonempty
    by (destruct names; [congruence | discriminate]).
  match goal with
  | |- context [nodup row_eq_dec ?m] =>
      assert (Hkeys : m = map (key_of df names) (rows df))
        by (apply map_ext; exact Hkey)
  end.
  rewrite Hkeys. rewrite map_map, map_id.
  apply (f_equal Ok), (f_equal2 mkDF); [reflexivity|].
  apply map_ext. intro k. cbn [map]. do 2 f_equal.
  rewrite count_ones. unfold frequency.
  rewrite members_length. apply (f_equal VInt), (f_equal Z.of_nat).
  apply (f_equal (fun l => count_occ row_eq_dec l k)).
  apply map_ext. exact Hkey.
Qed.

End Frequencies.

(** ** obter_tab_freq *)

Lemma cell_after (k : Row) (v : value) (rest : Row) :
  cell (List.length k) (k ++ v :: rest)%list = v.
Proof. unfold cell. rewrite nth_middle. reflexivity. Qed.

Lemma rows_leb_desc_ints (i : nat) (r1 r2 : Row) (n1 n2 : Z) :
  cell i r1 = VInt n1 -> cell i r2 = VInt n2 ->
  rows_leb [(cell i, true)] r1 r2 = (int_at i r2 <=? int_at i r1).
Proof.
  intros H1 H2. unfold rows_leb, rows_compare, int_at.
  rewrite H1, H2, value_compare_ints.
  destruct (Z.compare_spec n1 n2), (Z.leb_spec n2 n1);
    simpl; try reflexivity; lia.
Qed.

Section FrequencyTable.
Context {B : Builtins}.

Lemma rename_last (names : list string) (old new : string) :
  plain old = true ->
  (forall c, In c names -> same_name c old = false) ->
  map (fun c => if same_name c old then new else c) (names ++ [old])
  = (names ++ [new])%list.
Proof.
  intros Hp H. rewrite map_app. cbn [map].
  rewrite same_name_refl by assumption. f_equal.
  rewrite <- (map_id names) at 2. apply map_ext_in. intros c Hc.
  rewrite (H c Hc). reflexivity.
Qed.

Lemma existsb_none (name : string) (l : list string) :
  (forall c, In c l -> same_name c name = false) ->
  existsb (fun c => same_name c name) l = false.
Proof.
  intro H. induction l as [|c l IH]; simpl; [reflexivity|].
  rewrite (H c (or_introl eq_refl)). apply IH.
  intros x Hx. apply H. right. assumption.
Qed.

(** The two names the table adds are different names in every session. *)
Lemma freq_names_differ :
  same_name "freq_absoluta" "freq_relativa (%)" = false
  /\ same_name "freq_relativa (%)" "freq_absoluta" = false.
Proof.
  unfold same_name, name_key.
  destruct spark_sql_caseSensitive; split; reflexivity.
Qed.

Lemma obter_tab_freq_value (df : SparkDataFrame) (nm_col : str_or_list)
  (tam_df : option Z) :
  names_of nm_col <> [] ->
  (forall c, In c (names_of nm_col) ->
     names_one_column df c /\ free_for_table c) ->
  obter_tab_freq df nm_col tam_df
  = (["Tabela de frequencias"],
     Ok (mkDF (names_of nm_col ++ ["freq_absoluta"; "freq_relativa (%)"])%list
          (sort_by (rows_leb [(cell (List.length (names_of nm_col)), true)])
             (map (fun k =>
                     (k ++ [VInt (frequency df (names_of nm_col) k);
                            op_round 2
                              (op_div
                                 (op_mul
                                    (VInt (frequency df (names_of nm_col) k))
                                    (VInt 100))
                                 (VInt (or_count df tam_df)))])%list)
                  (engine_order
                     (nodup row_eq_dec
                        (map (key_of df (names_of nm_col)) (rows df)))))))).
Proof.
  set (names := names_of nm_col). set (tam := or_count df tam_df).
  intros Hne Hcols.
  assert (Hcount : forall c, In c names -> same_name c "count" = false)
    by (intros c H; apply Hcols in H; unfold free_for_table in H; tauto).
  assert (Hfa : forall c, In c names -> same_name c "freq_absoluta" = false)
    by (intros c H; apply Hcols in H; unfold free_for_table in H; tauto).
  assert (Hfr : forall c, In c names ->
                          same_name c "freq_relativa (%)" = false)
    by (intros c H; apply Hcols in H; unfold free_for_table in H; tauto).
  assert (Hnot : ~ In "freq_absoluta" names)
    by (apply none_same_not_In; [reflexivity | assumption]).
  assert (HD : forall k,
            In k (engine_order
                    (nodup row_eq_dec (map (key_of df names) (rows df)))) ->
            List.length k = List.length names).
  { intros k Hk. apply engine_order_In, nodup_In in Hk.
    apply in_map_iff in Hk.
    destruct Hk as [r [<- _]]. unfold key_of. apply length_map. }
  unfold obter_tab_freq. fold names. fold tam. f_equal.
  rewrite count_grouped_table by (try assumption; intros c Hc; apply Hcols, Hc).
  cbn [bind]. unfold DF.withColumnRenamed. cbn [columns rows].
  rewrite rename_last by (reflexivity || assumption).
  unfold DF.withColumn. cbn [columns rows compile].
  rewrite resolve_once
    by (apply one_match_middle; [reflexivity | assumption | intros c []]).
  rewrite first_index_app_absent by assumption.
  cbn [bind lift1 lift2].
  rewrite existsb_none.
  2:{ intros c H. apply in_app_or in H. destruct H as [H|[<-|[]]];
        [auto | apply freq_names_differ]. }
  cbn [bind]. unfold DF.orderBy. cbn [columns rows mapM compile_order compile].
  rewrite <- app_assoc. cbn [app].
  rewrite resolve_once
    by (apply one_match_middle;
        [reflexivity | assumption
        | intros c [<-|[]]; apply freq_names_differ]).
  rewrite first_index_app_absent by assumption.
  cbn [bind].
  apply (f_equal Ok), (f_equal2 mkDF); [reflexivity|].
  f_equal. rewrite map_map. apply map_ext_in. intros k Hk.
  rewrite <- (HD k Hk). rewrite cell_after, <- app_assoc. reflexivity.
Qed.

End FrequencyTable.

(** C8, as the code has it.  For grouping columns that each designate
    exactly one column of the dataframe (plain names, spelled as the columns
    are, listed once each) and that the session does not take for 'count',
    'freq_absoluta' or 'freq_relativa (%)', and a total other than zero (the
    number of rows when [None]; a 64-bit integer), [obter_tab_freq] prints
    its title and
    returns one row per distinct combination of values of the grouping
    columns, followed by the number of input rows with that combination
    (freq_absoluta) and by that number times 100 divided by the total,
    rounded to two decimal places (freq_relativa (%)); the rows are ordered
    by freq_absoluta, descending. *)
Theorem obter_tab_freq_table {B : Builtins}
  (df : SparkDataFrame) (nm_col : str_or_list) (tam_df : option Z) :
  names_of nm_col <> [] ->
  NoDup (names_of nm_col) ->
  (forall c, In c (names_of nm_col) ->
     names_one_column df c /\ free_for_table c) ->
  or_count df tam_df <> 0 ->
  is_int64 (or_count df tam_df) ->
  exists table,
    obter_tab_freq df nm_col tam_df
    = (["Tabela de frequencias"],
       Ok (mkDF (names_of nm_col ++ ["freq_absoluta"; "freq_relativa (%)"])%list
                table))
    /\ Permutation table
         (map (fun k => (k ++ [VInt (frequency df (names_of nm_col) k);
                               pct (frequency df (names_of nm_col) k)
                                   (or_count df tam_df)])%list)
              (nodup row_eq_dec (map (key_of df (names_of nm_col)) (rows df))))
    /\ StronglySorted
         (descending (int_at (List.length (names_of nm_col)))) table.
Proof.
  set (names := names_of nm_col). set (tam := or_count df tam_df).
  intros Hne _ Hcols Htam _.
  set (D := engine_order
              (nodup row_eq_dec (map (key_of df names) (rows df)))).
  assert (HD : forall k, In k D -> List.length k = List.length names).
  { intros k Hk. apply engine_order_In, nodup_In in Hk.
    apply in_map_iff in Hk.
    destruct Hk as [r [<- _]]. unfold key_of. apply length_map. }
  set (full := fun k => (k ++ [VInt (frequency df names k);
                               pct (frequency df names k) tam])%list).
  set (i := List.length names).
  exists (sort_by (rows_leb [(cell i, true)]) (map full D)).
  split; [|split].
  - rewrite obter_tab_freq_value by assumption.
    fold names. fold tam. fold D. fold i.
    do 4 f_equal. apply map_ext. intro k. unfold full.
    rewrite pct_of_count by assumption. reflexivity.
  - rewrite sort_by_perm. apply Permutation_map, engine_order_perm.
  - apply (sort_by_sorted _ (int_at i)).
    intros a b Ha Hb.
    apply in_map_iff in Ha. destruct Ha as [ka [<- Hka]].
    apply in_map_iff in Hb. destruct Hb as [kb [<- Hkb]].
    apply (rows_leb_desc_ints i _ _ (frequency df names ka)
                              (frequency df names kb));
      unfold full, i; [rewrite <- (HD ka Hka) | rewrite <- (HD kb Hkb)];
      apply cell_after.
Qed.

Lemma obter_tab_freq_table_witness :
  exists table,
    obter_tab_freq (B := sample_builtins) df_zeros (Str "a") None
    = (["Tabela de frequencias"],
       Ok (mkDF ["a"; "freq_absoluta"; "freq_relativa (%)"] table))
    /\ Permutation table
         (map (fun k => (k ++ [VInt (frequency df_zeros ["a"] k);
                               pct (frequency df_zeros ["a"] k) 4])%list)
              (nodup row_eq_dec (map (key_of df_zeros ["a"]) (rows df_zeros))))
    /\ StronglySorted (descending (int_at 1)) table.
Proof.
  apply (obter_tab_freq_table (B := sample_builtins) df_zeros (Str "a") None).
  - discriminate.
  - repeat constructor. intros [].
  - intros c [<- | []]. split; [names_one | repeat split].
  - discriminate.
  - vm_compute. split; [discriminate | reflexivity].
Defined.

(** C8 as stated fails when the grouping column is itself called 'count':
    the renaming then produces two columns 'freq_absoluta' and the
    percentage cannot be computed. *)
Lemma obter_tab_freq_count_column :
  obter_tab_freq (B := sample_builtins) df_count (Str "count") None
  = (["Tabela de frequencias"],
     Raise (AnalysisException (AmbiguousReference "freq_absoluta"))).
Proof. reflexivity. Qed.

(** ** The helpers on the example data *)

(** The engine does sort descending when asked to; [orderBy_dict] never asks. *)
Example orderBy_desc_example {B : Builtins} :
  DF.orderBy df_ab [desc (col "a")]
  = Ok (mkDF ["a"; "b"]
             [[VInt 3; VInt 30]; [VInt 2; VInt 10]; [VInt 1; VInt 20]]).
Proof. destruct B as [[] ? ? ? ? ? ? ? ? ? ? ? ? ? ?]; reflexivity. Qed.

(** [formatar_cols_decimal] ends with [select(df.columns)] and so keeps the
    order of the columns. *)
Example formatar_cols_decimal_keeps_order {B : Builtins} :
  map_result columns (formatar_cols_decimal df_ab ["a"] 2) = Ok ["a"; "b"].
Proof. destruct B as [[] ? ? ? ? ? ? ? ? ? ? ? ? ? ?]; reflexivity. Qed.

(** Three months before the latest date, 2024-03-31, is 2023-12-31; the rows
    of January and March 2024 are kept. *)
Example filtrar_ultimos_n_meses_example :
  filtrar_ultimos_n_meses (B := sample_builtins) df_dates "d" 3
  = Ok (mkDF ["d"; "x"]
             [[VDate (mkDate 2024 3 31); VInt 1];
              [VDate (mkDate 2024 1 15); VInt 2]]).
Proof. reflexivity. Qed.

(** One null among four rows is 25 percent. *)
Example pct_example : pct 1 4 = VDouble (Q2Qc (25 # 1)%Q).
Proof. unfold pct. f_equal. apply Qc_is_canon. reflexivity. Qed.

(** * Further properties of the helpers *)

(** ** orderBy_dict: what the ordering really is *)

Lemma py_columns_ascending d :
  Forall valid_order (values d) ->
  py_columns (map order_column d) = Ok (ascending_keys d).
Proof.
  unfold ascending_keys.
  induction d as [|[k v] d IH]; simpl; intro H; [reflexivity|].
  inversion H as [|? ? Hv Hd]; subst. rewrite (IH Hd).
  destruct Hv as [-> | ->]; reflexivity.
Qed.

Lemma check_orders_valid l : Forall valid_order l -> check_orders l = Ok tt.
Proof.
  induction l as [|o l IH]; simpl; intro H; [reflexivity|].
  inversion H as [|? ? Hv Hl]; subst.
  apply valid_order_eqb in Hv. rewrite Hv. auto.
Qed.

Lemma StronglySorted_weaken {A} (R S : A -> A -> Prop) (l : list A) :
  (forall a b, R a b -> S a b) -> StronglySorted R l -> StronglySorted S l.
Proof.
  intros HRS H. induction H as [|a l Hl IH Hall]; constructor; [assumption|].
  rewrite Forall_forall in *. auto.
Qed.

Section OrderByDict.
Context {B : Builtins}.

Lemma orderBy_dict_valid df d :
  Forall valid_order (values d) ->
  orderBy_dict df d = DF.orderBy df (ascending_keys d).
Proof.
  intro H. unfold orderBy_dict.
  rewrite check_orders_valid by assumption. cbn [bind].
  rewrite py_columns_ascending by assumption. reflexivity.
Qed.

(** X1.  The directions written in the dictionary have no effect: two
    dictionaries with the same columns in the same order, and valid
    directions, give the same result. *)
Theorem orderBy_dict_ignores_direction df d1 d2 :
  keys d1 = keys d2 ->
  Forall valid_order (values d1) ->
  Forall valid_order (values d2) ->
  orderBy_dict df d1 = orderBy_dict df d2.
Proof.
  intros Hk H1 H2. rewrite !orderBy_dict_valid by assumption.
  unfold ascending_keys. rewrite Hk. reflexivity.
Qed.

(** X2.  When [orderBy_dict] returns, the result has the columns of the
    input and its rows are the rows of the input, rearranged: no row is
    lost, added or changed. *)
Theorem orderBy_dict_permutes df d df' :
  orderBy_dict df d = Ok df' ->
  columns df' = columns df /\ Permutation (rows df') (rows df).
Proof.
  unfold orderBy_dict, DF.orderBy. intro H.
  destruct (check_orders (values d)); [|discriminate].
  cbn [bind] in H.
  destruct (py_columns (map order_column d)) as [cs|]; [|discriminate].
  cbn [bind] in H.
  destruct (mapM (compile_order (columns df)) cs) as [ks|]; [|discriminate].
  cbn [bind] in H. inversion H; subst. cbn [columns rows].
  split; [reflexivity | apply sort_by_perm].
Qed.

(** A column of the dictionary that the session finds in no column of the
    dataframe makes the call fail in the engine's analysis
    ([AnalysisException]), provided the directions are valid. *)
Theorem orderBy_dict_unknown_column df d :
  Forall valid_order (values d) ->
  (exists k, In k (keys d) /\ plain k = true
             /\ matches (columns df) k = 0%nat) ->
  exists e, orderBy_dict df d = Raise (AnalysisException e).
Proof.
  intros Hv [k [Hk [Hp Hno]]]. rewrite orderBy_dict_valid by assumption.
  unfold DF.orderBy, ascending_keys.
  destruct (mapM (compile_order (columns df))
                 (map (fun coluna => asc (col coluna)) (keys d)))
    as [ks|e] eqn:E.
  - exfalso. revert ks E. induction (keys d) as [|c l IH]; [destruct Hk|].
    intros ks E. cbn [map mapM compile_order compile] in E.
    destruct Hk as [->|Hk].
    + rewrite resolve_absent in E by assumption. discriminate.
    + destruct (resolve (columns df) c); [|discriminate].
      cbn [bind] in E.
      destruct (mapM (compile_order (columns df))
                     (map (fun coluna => asc (col coluna)) l)) eqn:E';
        [|discriminate].
      eapply IH; [assumption | reflexivity].
  - cbn [bind]. apply mapM_Raise_inv in E. destruct E as [x [_ E]].
    apply compile_order_raises in E. destruct E as [a ->]. eauto.
Qed.

(** X3.  Sorting by one column of integers (the name designating exactly
    one column for the session) gives the rows in ascending order of that
    column, whether the dictionary says 'asc' or 'desc'. *)
Theorem orderBy_dict_one_key_ascending df coluna ordem :
  valid_order ordem ->
  names_one_column df coluna ->
  (forall r, In r (rows df) -> is_int (value_under (columns df) r coluna)) ->
  exists table,
    orderBy_dict df [(coluna, ordem)] = Ok (mkDF (columns df) table)
    /\ Permutation table (rows df)
    /\ StronglySorted
         (ascending (fun r => match value_under (columns df) r coluna with
                              | VInt n => n
                              | _ => 0
                              end))
         table.
Proof.
  intros Hv Hone Hint.
  set (i := first_index coluna (columns df)).
  exists (sort_by (rows_leb [(cell i, false)]) (rows df)).
  assert (Hcell : forall r, cell i r = value_under (columns df) r coluna).
  { intro r. apply cell_first_index, (one_match_In coluna), Hone. }
  split; [|split].
  - rewrite orderBy_dict_valid by (constructor; [assumption | constructor]).
    unfold DF.orderBy, ascending_keys.
    cbn [keys map fst mapM compile_order compile].
    rewrite resolve_once by assumption. reflexivity.
  - apply sort_by_perm.
  - pose proof (sort_by_sorted (rows_leb [(cell i, false)])
                  (fun r => - int_at i r) (rows df)) as Hs.
    assert (Hleb : forall a b, In a (rows df) -> In b (rows df) ->
              rows_leb [(cell i, false)] a b
              = (- int_at i b <=? - int_at i a)).
    { intros a b Ha Hb. unfold rows_leb, rows_compare, int_at.
      pose proof (Hint a Ha) as Ia. pose proof (Hint b Hb) as Ib.
      rewrite <- Hcell in Ia, Ib.
      destruct (cell i a) as [| |na| | |]; try contradiction.
      destruct (cell i b) as [| |nb| | |]; try contradiction.
      rewrite value_compare_ints.
      destruct (Z.compare_spec na nb), (Z.leb_spec (- nb) (- na));
        simpl; try reflexivity; lia. }
    specialize (Hs Hleb).
    eapply StronglySorted_weaken; [|exact Hs].
    intros a b H. unfold descending, ascending, int_at in *.
    rewrite <- !Hcell. lia.
Qed.

End OrderByDict.

Ltac valid_orders :=
  repeat (apply Forall_cons;
          [first [left; reflexivity | right; reflexivity]|]);
  apply Forall_nil.

Lemma orderBy_dict_ignores_direction_witness :
  orderBy_dict (B := sample_builtins) df_ab [("a", "asc"); ("b", "desc")]
  = orderBy_dict (B := sample_builtins) df_ab [("a", "desc"); ("b", "asc")].
Proof.
  apply (orderBy_dict_ignores_direction (B := sample_builtins) df_ab
           [("a", "asc"); ("b", "desc")] [("a", "desc"); ("b", "asc")]).
  - reflexivity.
  - valid_orders.
  - valid_orders.
Defined.

Lemma orderBy_dict_permutes_witness :
  columns (mkDF ["a"; "b"]
             [[VInt 1; VInt 20]; [VInt 2; VInt 10]; [VInt 3; VInt 30]])
  = columns df_ab
  /\ Permutation
       (rows (mkDF ["a"; "b"]
                [[VInt 1; VInt 20]; [VInt 2; VInt 10]; [VInt 3; VInt 30]]))
       (rows df_ab).
Proof.
  apply (orderBy_dict_permutes (B := sample_builtins) df_ab [("a", "desc")]).
  reflexivity.
Defined.

Lemma orderBy_dict_unknown_column_witness :
  exists e, orderBy_dict (B := sample_builtins) df_ab [("z", "asc")]
            = Raise (AnalysisException e).
Proof.
  apply (orderBy_dict_unknown_column (B := sample_builtins) df_ab
           [("z", "asc")]).
  - repeat constructor.
  - exists "z". split; [left; reflexivity|]. split; reflexivity.
Defined.

Lemma orderBy_dict_one_key_ascending_witness :
  exists table,
    orderBy_dict (B := sample_builtins) df_ab [("a", "desc")]
    = Ok (mkDF (columns df_ab) table)
    /\ Permutation table (rows df_ab)
    /\ StronglySorted
         (ascending (fun r => match value_under (columns df_ab) r "a" with
                              | VInt n => n
                              | _ => 0
                              end))
         table.
Proof.
  apply (orderBy_dict_one_key_ascending (B := sample_builtins) df_ab "a" "desc").
  - right. reflexivity.
  - names_one.
  - intros r [<- | [<- | [<- | []]]]; exact I.
Defined.

(** ** The formatting helpers: which columns move and which cells change *)

Lemma py_in_In c l : py_in c l = true <-> In c l.
Proof.
  unfold py_in. rewrite existsb_exists. split.
  - intros [x [Hx E]]. apply String.eqb_eq in E. subst. assumption.
  - intro H. exists c. split; [assumption | apply String.eqb_refl].
Qed.

Lemma py_in_not_In c l : py_in c l = false <-> ~ In c l.
Proof.
  rewrite <- py_in_In. destruct (py_in c l); intuition congruence.
Qed.

Lemma cols_rest_In df lst c :
  In c (cols_rest df lst) <-> In c (columns df) /\ ~ In c lst.
Proof.
  unfold cols_rest. rewrite filter_In, negb_true_iff, py_in_not_In.
  reflexivity.
Qed.

Lemma mapM_app {A C} (f : A -> result C) (l1 l2 : list A) (a b : list C) :
  mapM f l1 = Ok a -> mapM f l2 = Ok b -> mapM f (l1 ++ l2) = Ok (a ++ b)%list.
Proof.
  revert a. induction l1 as [|x l1 IH]; intros a H1 H2; simpl in *.
  - inversion H1. assumption.
  - destruct (f x); [|discriminate]. cbn [bind] in *.
    destruct (mapM f l1) as [a'|]; [|discriminate]. cbn [bind] in *.
    inversion H1; subst. rewrite (IH a' eq_refl H2). reflexivity.
Qed.

Section Formatting.
Context {B : Builtins}.

(** The projection all these helpers start with: the other columns first,
    then the listed ones, transformed. *)
Lemma select_rest_then (df : SparkDataFrame) (lst : list string)
  (mk : string -> Column) (op : value -> value) :
  unambiguous (columns df) ->
  incl lst (columns df) ->
  (forall c, output_name (mk c) = c) ->
  (forall c, In c lst ->
     compile (columns df) (mk c)
     = Ok (fun r => op (cell (first_index c (columns df)) r))) ->
  DF.select df (map col (cols_rest df lst) ++ map mk lst)%list
  = Ok (mkDF (cols_rest df lst ++ lst)%list
             (map (moved_row op (cols_rest df lst) lst (columns df))
                  (rows df))).
Proof.
  intros Hu Hincl Hname Hmk. unfold DF.select.
  rewrite (mapM_app _ _ _
             (map (fun c => cell (first_index c (columns df)))
                  (cols_rest df lst))
             (map (fun c r => op (cell (first_index c (columns df)) r)) lst)).
  - cbn [bind]. rewrite map_app, !map_map. cbn [output_name].
    rewrite map_id, (map_ext _ (fun c => c) Hname), map_id.
    apply (f_equal Ok), (f_equal2 mkDF); [reflexivity|].
    apply map_ext. intro r. unfold moved_row.
    rewrite map_app, !map_map. f_equal.
    + apply map_ext_in. intros c Hc. apply cell_first_index.
      apply cols_rest_In in Hc. tauto.
    + apply map_ext_in. intros c Hc. f_equal. apply cell_first_index. auto.
  - apply mapM_map_Ok. intros c Hc. apply compile_col.
    apply unambiguous_one_match; [assumption|].
    apply cols_rest_In in Hc. tauto.
  - apply mapM_map_Ok. exact Hmk.
Qed.

(** X4.  [formatar_cols_moeda] returns the other columns first, unchanged,
    and then the listed columns, each number replaced by its currency string
    in the locale of the environment: the listed columns move to the end. *)
Theorem formatar_cols_moeda_result (env : Env) (df : SparkDataFrame)
  (lst : list string) :
  unambiguous (columns df) ->
  incl lst (columns df) ->
  (forall r c, In r (rows df) -> In c lst ->
               is_number (value_under (columns df) r c)) ->
  formatar_cols_moeda env df lst
  = Ok (mkDF (cols_rest df lst ++ lst)%list
             (map (moved_row (fun a => format_currency a "BRL" (locale env))
                             (cols_rest df lst) lst (columns df))
                  (rows df))).
Proof.
  intros Hu Hincl _. unfold formatar_cols_moeda.
  apply select_rest_then; try assumption; [reflexivity|].
  intros c Hc. cbn [compile].
  rewrite resolve_once by (apply unambiguous_one_match; auto). reflexivity.
Qed.

Lemma cast_int32 (v : value) :
  is_int32_or_null v -> cast_value IntegerType v = v.
Proof.
  destruct v as [| |z| | |]; simpl; try contradiction; [reflexivity|].
  intro H. unfold fits_int32.
  destruct (Z.leb_spec (- 2 ^ 31) z), (Z.ltb_spec z (2 ^ 31));
    try reflexivity; lia.
Qed.

(** X5.  [formatar_cols_int] likewise moves the listed columns to the end
    and keeps their names; integers that fit 32 bits, and nulls, are left as
    they are by the cast. *)
Theorem formatar_cols_int_result (df : SparkDataFrame) (lst : list string) :
  unambiguous (columns df) ->
  incl lst (columns df) ->
  (forall r c, In r (rows df) -> In c lst ->
               is_int32_or_null (value_under (columns df) r c)) ->
  formatar_cols_int df lst
  = Ok (mkDF (cols_rest df lst ++ lst)%list
             (map (moved_row (fun v => v) (cols_rest df lst) lst (columns df))
                  (rows df))).
Proof.
  intros Hu Hincl Hint. unfold formatar_cols_int.
  rewrite (select_rest_then df lst (fun c => cast (col c) IntegerType)
             (cast_value IntegerType)); try assumption; try reflexivity.
  - apply (f_equal Ok), (f_equal2 mkDF); [reflexivity|].
    apply map_ext_in. intros r Hr. unfold moved_row. f_equal.
    apply map_ext_in. intros c Hc. apply cast_int32. auto.
  - intros c Hc. cbn [compile].
    rewrite resolve_once by (apply unambiguous_one_match; auto). reflexivity.
Qed.

(** X6.  [remover_espacos_extra] moves the listed columns to the end,
    trimmed. *)
Theorem remover_espacos_extra_result (df : SparkDataFrame) (lst : list string) :
  unambiguous (columns df) ->
  incl lst (columns df) ->
  remover_espacos_extra df lst
  = Ok (mkDF (cols_rest df lst ++ lst)%list
             (map (moved_row (builtin_fn fn_trim)
                             (cols_rest df lst) lst (columns df))
                  (rows df))).
Proof.
  intros Hu Hincl. unfold remover_espacos_extra.
  apply select_rest_then; try assumption; [reflexivity|].
  intros c Hc. unfold trim. cbn [compile].
  rewrite resolve_once by (apply unambiguous_one_match; auto). reflexivity.
Qed.

End Formatting.

Lemma value_under_app_l (h : string -> value) (l1 l2 : list string)
  (r2 : Row) (c : string) :
  In c l1 -> value_under (l1 ++ l2)%list (map h l1 ++ r2)%list c = h c.
Proof.
  induction l1 as [|a l1 IH]; intro H; simpl; [destruct H|].
  destruct (String.eqb_spec a c) as [->|N]; [reflexivity|].
  destruct H as [H|H]; [contradiction | auto].
Qed.

Lemma value_under_app_r (h : string -> value) (l1 l2 : list string)
  (r2 : Row) (c : string) :
  ~ In c l1 ->
  value_under (l1 ++ l2)%list (map h l1 ++ r2)%list c = value_under l2 r2 c.
Proof.
  induction l1 as [|a l1 IH]; intro H; simpl; [reflexivity|].
  destruct (String.eqb_spec a c) as [->|N].
  - exfalso. apply H. left. reflexivity.
  - apply IH. intro Hin. apply H. right. assumption.
Qed.

Lemma count_occ_rest_then df lst c :
  NoDup (columns df) -> NoDup lst -> In c (columns df) ->
  count_occ string_dec (cols_rest df lst ++ lst)%list c = 1%nat.
Proof.
  intros Hnd Hlst Hc. rewrite count_occ_app.
  assert (Hrest : NoDup (cols_rest df lst)) by (apply NoDup_filter; assumption).
  destruct (in_dec string_dec c lst) as [Hin|Hout].
  - rewrite (proj1 (count_occ_not_In string_dec _ c)).
    + rewrite count_occ_NoDup_In by assumption. reflexivity.
    + intro H. apply cols_rest_In in H. tauto.
  - rewrite (count_occ_NoDup_In c (cols_rest df lst)).
    + rewrite (proj1 (count_occ_not_In string_dec lst c) Hout). reflexivity.
    + assumption.
    + apply cols_rest_In. tauto.
Qed.

Lemma rest_then_incl df lst :
  incl lst (columns df) -> incl (cols_rest df lst ++ lst)%list (columns df).
Proof.
  intros Hincl c Hc. apply in_app_or in Hc. destruct Hc as [Hc|Hc].
  - apply cols_rest_In in Hc. tauto.
  - auto.
Qed.

Section FormattingInPlace.
Context {B : Builtins}.

(** After the projection every column is still designated by its name. *)
Lemma one_match_rest_then df lst c :
  unambiguous (columns df) -> NoDup lst -> incl lst (columns df) ->
  In c (columns df) ->
  one_match (cols_rest df lst ++ lst)%list c.
Proof.
  intros Hu Hlst Hincl Hc.
  apply (one_match_of_count (columns df)); try assumption.
  - apply rest_then_incl. assumption.
  - apply count_occ_rest_then; try assumption.
    apply unambiguous_NoDup. assumption.
Qed.

(** The same projection followed by [select(df.columns)]: the columns are
    back in their order. *)
Lemma select_rest_then_columns (df : SparkDataFrame) (lst : list string)
  (mk : string -> Column) (op : value -> value) :
  unambiguous (columns df) ->
  NoDup lst ->
  incl lst (columns df) ->
  (forall c, output_name (mk c) = c) ->
  (forall c, In c lst ->
     compile (columns df) (mk c)
     = Ok (fun r => op (cell (first_index c (columns df)) r))) ->
  (d <- DF.select df (map col (cols_rest df lst) ++ map mk lst)%list ;;
   DF.select d (map col (columns df)))
  = Ok (mkDF (columns df)
             (map (transformed_row op lst (columns df)) (rows df))).
Proof.
  intros Hu Hlst Hincl Hname Hmk.
  rewrite (select_rest_then df lst mk op) by assumption.
  cbn [bind]. unfold DF.select. cbn [columns rows].
  rewrite (mapM_map_Ok _ _
             (fun c => cell (first_index c (cols_rest df lst ++ lst)%list))).
  - cbn [bind].
    apply (f_equal Ok), (f_equal2 mkDF).
    { rewrite map_map. cbn [output_name]. apply map_id. }
    rewrite map_map. apply map_ext. intro r. unfold transformed_row.
    rewrite map_map. apply map_ext_in. intros c Hc.
    rewrite cell_first_index
      by (apply (one_match_In c), one_match_rest_then; assumption).
    unfold moved_row.
    destruct (py_in c lst) eqn:E.
    + apply py_in_In in E.
      rewrite value_under_app_r by (intro H; apply cols_rest_In in H; tauto).
      apply (value_under_map (fun c => op (value_under (columns df) r c))).
      assumption.
    + apply py_in_not_In in E.
      apply (value_under_app_l (value_under (columns df) r)).
      apply cols_rest_In. tauto.
  - intros c Hc. apply compile_col, one_match_rest_then; assumption.
Qed.

(** X7.  [formatar_cols_decimal] keeps the columns in their order and their
    names; the cells of the listed columns, numbers that decimal(18,
    n_digitos) can hold, are cast to that type and all other cells are
    unchanged. *)
Theorem formatar_cols_decimal_result (df : SparkDataFrame)
  (lst : list string) (n_digitos : Z) :
  unambiguous (columns df) ->
  NoDup lst ->
  incl lst (columns df) ->
  0 <= n_digitos <= 18 ->
  (forall r c, In r (rows df) -> In c lst ->
               fits_decimal n_digitos (value_under (columns df) r c)) ->
  formatar_cols_decimal df lst n_digitos
  = Ok (mkDF (columns df)
             (map (transformed_row (cast_value (DecimalType 18 n_digitos))
                                   lst (columns df))
                  (rows df))).
Proof.
  intros Hu Hlst Hincl _ _. unfold formatar_cols_decimal.
  apply select_rest_then_columns; try assumption; [reflexivity|].
  intros c Hc. cbn [compile].
  rewrite resolve_once by (apply unambiguous_one_match; auto). reflexivity.
Qed.

(** X8.  [formatar_cols_float] keeps the columns in their order; only the
    cells of the listed columns, numbers or nulls, change: they are cast to
    float. *)
Theorem formatar_cols_float_result (df : SparkDataFrame) (lst : list string) :
  unambiguous (columns df) ->
  NoDup lst ->
  incl lst (columns df) ->
  (forall r c, In r (rows df) -> In c lst ->
               is_numeric_or_null (value_under (columns df) r c)) ->
  formatar_cols_float df lst
  = Ok (mkDF (columns df)
             (map (transformed_row (cast_value FloatType) lst (columns df))
                  (rows df))).
Proof.
  intros Hu Hlst Hincl _. unfold formatar_cols_float.
  apply select_rest_then_columns; try assumption; [reflexivity|].
  intros c Hc. cbn [compile].
  rewrite resolve_once by (apply unambiguous_one_match; auto). reflexivity.
Qed.

(** X9.  [formatar_cols_zeros_a_esquerda] keeps the columns in their
    order; only the cells of the listed columns change, left-padded with
    zeros to [tam_pad], a 32-bit integer. *)
Theorem formatar_cols_zeros_a_esquerda_result (df : SparkDataFrame)
  (lst : list string) (tam_pad : Z) :
  unambiguous (columns df) ->
  NoDup lst ->
  incl lst (columns df) ->
  is_int32 tam_pad ->
  formatar_cols_zeros_a_esquerda df lst tam_pad
  = Ok (mkDF (columns df)
             (map (transformed_row (builtin_fn (fn_lpad tam_pad "0"))
                                   lst (columns df))
                  (rows df))).
Proof.
  intros Hu Hlst Hincl _. unfold formatar_cols_zeros_a_esquerda.
  apply (select_rest_then_columns df lst
           (fun c => alias (lpad (col c) tam_pad "0") c)); try assumption;
    [reflexivity|].
  intros c Hc. unfold lpad. cbn [compile].
  rewrite resolve_once by (apply unambiguous_one_match; auto). reflexivity.
Qed.

(** X10.  A name listed twice makes [formatar_cols_decimal] fail: the
    intermediate table then has two columns of that name and
    [select(df.columns)] cannot choose. *)
Theorem formatar_cols_decimal_repeated_name (df : SparkDataFrame)
  (lst : list string) (n_digitos : Z) :
  unambiguous (columns df) ->
  incl lst (columns df) ->
  0 <= n_digitos <= 18 ->
  ~ NoDup lst ->
  exists name,
    In name lst
    /\ formatar_cols_decimal df lst n_digitos
       = Raise (AnalysisException (AmbiguousReference name)).
Proof.
  intros Hu Hincl _ Hdup. unfold formatar_cols_decimal.
  rewrite (select_rest_then df lst
             (fun c => alias (cast (col c) (DecimalType 18 n_digitos)) c)
             (cast_value (DecimalType 18 n_digitos)))
    by (try assumption; try reflexivity;
        intros c Hc; cbn [compile];
        rewrite resolve_once by (apply unambiguous_one_match; auto);
        reflexivity).
  cbn [bind]. unfold DF.select. cbn [columns rows].
  set (cols' := (cols_rest df lst ++ lst)%list).
  assert (Hex : exists c, In c (columns df)
                          /\ (2 <= count_occ string_dec lst c)%nat).
  { destruct (Forall_dec (fun c => (count_occ string_dec lst c <= 1)%nat))
      with (l := lst) as [Hall|Hnot].
    - intro c. destruct (le_dec (count_occ string_dec lst c) 1); auto.
    - exfalso. apply Hdup. apply (NoDup_count_occ string_dec). intro c.
      destruct (in_dec string_dec c lst) as [Hin|Hout].
      + rewrite Forall_forall in Hall. auto.
      + rewrite (proj1 (count_occ_not_In string_dec lst c) Hout). lia.
    - apply Exists_Forall_neg in Hnot.
      + apply Exists_exists in Hnot. destruct Hnot as [c [Hc Hn]].
        exists c. split; [auto | lia].
      + intro c. destruct (le_dec (count_occ string_dec lst c) 1); auto. }
  assert (Hcount : forall c, In c (columns df) ->
            (count_occ string_dec lst c <= 1)%nat ->
            count_occ string_dec cols' c = 1%nat).
  { intros c Hc H1. unfold cols'. rewrite count_occ_app.
    destruct (in_dec string_dec c lst) as [Hin|Hout].
    - rewrite (proj1 (count_occ_not_In string_dec _ c)).
      + pose proof (proj1 (count_occ_In string_dec lst c) Hin). lia.
      + intro H. apply cols_rest_In in H. tauto.
    - rewrite (count_occ_NoDup_In c (cols_rest df lst)).
      + rewrite (proj1 (count_occ_not_In string_dec lst c) Hout).
        reflexivity.
      + apply NoDup_filter, unambiguous_NoDup. assumption.
      + apply cols_rest_In. tauto. }
  assert (Hamb : forall c, In c (columns df) ->
            (2 <= count_occ string_dec lst c)%nat ->
            resolve cols' c
            = Raise (AnalysisException (AmbiguousReference c))).
  { intros c Hc H2. apply resolve_twice.
    - eapply unambiguous_plain; eassumption.
    - rewrite (matches_count_occ (columns df))
        by (assumption || apply rest_then_incl; assumption).
      unfold cols'. rewrite count_occ_app. lia. }
  assert (Hone : forall c, In c (columns df) ->
            (count_occ string_dec lst c <= 1)%nat ->
            resolve cols' c = Ok (first_index c cols')).
  { intros c Hc H1. apply resolve_once.
    apply (one_match_of_count (columns df)); try assumption.
    - apply rest_then_incl. assumption.
    - apply Hcount; assumption. }
  clear Hcount Hdup Hincl Hu.
  induction (columns df) as [|c cs IH].
  - destruct Hex as [c [[] _]].
  - cbn [map mapM compile].
    destruct (le_dec 2 (count_occ string_dec lst c)) as [H2|H1].
    + rewrite (Hamb c (or_introl eq_refl) H2). cbn [bind].
      exists c. split; [|reflexivity].
      apply (count_occ_In string_dec). lia.
    + rewrite (Hone c (or_introl eq_refl)) by lia. cbn [bind].
      destruct IH as [name [Hname E]].
      * destruct Hex as [x [[<-|Hx] Hx2]]; [lia | eauto].
      * intros c' Hc'. apply Hamb. right. assumption.
      * intros c' Hc'. apply Hone. right. assumption.
      * exists name. split; [assumption|].
        destruct (mapM (compile cols') (map col cs)); [discriminate|].
        cbn [bind] in *. congruence.
Qed.

End FormattingInPlace.

(** ** Renaming and dropping columns *)

Lemma dataframe_eta (df : SparkDataFrame) : mkDF (columns df) (rows df) = df.
Proof. destruct df; reflexivity. Qed.

Lemma renamed_absent (d : dict) (c : string) :
  ~ In c (keys d) -> renamed d c = c.
Proof.
  unfold renamed. induction d as [|[k v] d IH]; simpl; intro H; [reflexivity|].
  destruct (String.eqb_spec k c) as [->|N].
  - exfalso. apply H. left. reflexivity.
  - apply IH. intro Hin. apply H. right. assumption.
Qed.

Section Renaming.
Context {B : Builtins}.

(** Selecting every column under a new name keeps the rows. *)
Lemma select_renamed (df : SparkDataFrame) (f : string -> string) :
  well_formed df ->
  unambiguous (columns df) ->
  DF.select df (map (fun c => alias (col c) (f c)) (columns df))
  = Ok (mkDF (map f (columns df)) (rows df)).
Proof.
  intros Hwf Hu. unfold DF.select.
  rewrite (mapM_map_Ok _ _ (fun c => cell (first_index c (columns df)))).
  - cbn [bind]. rewrite map_map. cbn [output_name].
    apply (f_equal Ok), (f_equal2 mkDF); [reflexivity|].
    rewrite <- (map_id (rows df)) at 2.
    apply map_ext_in. intros r Hr.
    rewrite map_map. apply cells_by_name.
    + apply unambiguous_NoDup. assumption.
    + unfold well_formed in Hwf. rewrite Forall_forall in Hwf. auto.
  - intros c Hc. apply compile_col, unambiguous_one_match; assumption.
Qed.

Lemma renomear_cols_select (df : SparkDataFrame) (d : dict) :
  renomear_cols df d
  = DF.select df (map (fun c => alias (col c) (renamed d c)) (columns df)).
Proof.
  unfold renomear_cols, enumerate.
  pose proof (renomear_loop d (columns df) []) as Hloop.
  cbn [List.length map app] in Hloop. rewrite Hloop. cbn [bind].
  rewrite combine_map_r, map_map. reflexivity.
Qed.

(** X11.  Entries of the dictionary whose key is not a column are ignored
    without error: if no key is a column, the dataframe comes back as it
    was. *)
Theorem renomear_cols_unknown_keys (df : SparkDataFrame) (d : dict) :
  well_formed df ->
  unambiguous (columns df) ->
  (forall k, In k (keys d) -> ~ In k (columns df)) ->
  renomear_cols df d = Ok df.
Proof.
  intros Hwf Hu Hkeys. rewrite renomear_cols_select.
  rewrite (select_renamed df (renamed d)) by assumption.
  rewrite (map_ext_in (renamed d) (fun c => c)), map_id.
  - rewrite dataframe_eta. reflexivity.
  - intros c Hc. apply renamed_absent. intro Hk. exact (Hkeys c Hk Hc).
Qed.

(** X12.  Renaming and renaming back: when the new names are unambiguous
    too and the second dictionary maps each new name to the old one, the
    two calls in sequence return the original dataframe. *)
Theorem renomear_cols_round_trip (df : SparkDataFrame) (d d' : dict) :
  well_formed df ->
  unambiguous (columns df) ->
  unambiguous (map (renamed d) (columns df)) ->
  (forall c, In c (columns df) -> renamed d' (renamed d c) = c) ->
  (x <- renomear_cols df d ;; renomear_cols x d') = Ok df.
Proof.
  intros Hwf Hu Hu' Hinv. rewrite renomear_cols_select.
  rewrite (select_renamed df (renamed d)) by assumption. cbn [bind].
  rewrite renomear_cols_select. cbn [columns].
  rewrite (select_renamed (mkDF (map (renamed d) (columns df)) (rows df))).
  - cbn [columns rows]. rewrite map_map.
    rewrite (map_ext_in _ (fun c => c) _ Hinv), map_id, dataframe_eta.
    reflexivity.
  - unfold well_formed in *. cbn [columns rows]. rewrite length_map.
    assumption.
  - assumption.
Qed.

(** On a plain name [str.lower] is the lower-casing of A-Z, which leaves a
    plain name, and one that the session compares as it is. *)
Lemma lower_plain (c : string) : plain c = true -> lower c = ascii_lower c.
Proof. intro H. unfold lower. rewrite plain_is_ascii by assumption. reflexivity. Qed.

Lemma lower_lower (c : string) : plain c = true -> lower (lower c) = lower c.
Proof.
  intro H. rewrite (lower_plain c H).
  rewrite lower_plain by (apply ascii_lower_plain; assumption).
  apply ascii_lower_idem.
Qed.

Lemma name_key_lower (c : string) :
  plain c = true -> name_key (lower c) = lower c.
Proof.
  intro H. rewrite (lower_plain c H). unfold name_key.
  destruct spark_sql_caseSensitive; [reflexivity | apply ascii_lower_idem].
Qed.

Lemma unambiguous_lower (cols : list string) :
  unambiguous cols -> NoDup (map lower cols) -> unambiguous (map lower cols).
Proof.
  intros [Hall _] Hnd. rewrite Forall_forall in Hall. split.
  - apply Forall_forall. intros x Hx. apply in_map_iff in Hx.
    destruct Hx as [c [<- Hc]]. rewrite lower_plain by auto.
    apply ascii_lower_plain. auto.
  - rewrite map_map.
    rewrite (map_ext_in (fun c => name_key (lower c)) lower); [assumption|].
    intros c Hc. apply name_key_lower. auto.
Qed.

(** X13.  [renomear_cols_para_minusculo] returns the same rows under the
    lower-cased names, when the names are plain (so that lower-casing
    touches the letters A-Z only) and unambiguous. *)
Theorem renomear_cols_para_minusculo_result (df : SparkDataFrame) :
  well_formed df ->
  unambiguous (columns df) ->
  renomear_cols_para_minusculo df
  = Ok (mkDF (map ascii_lower (columns df)) (rows df)).
Proof.
  intros Hwf Hu. unfold renomear_cols_para_minusculo.
  rewrite (select_renamed df lower) by assumption.
  apply (f_equal Ok), (f_equal2 mkDF); [|reflexivity].
  apply map_ext_in. intros c Hc. apply lower_plain.
  eapply unambiguous_plain; eassumption.
Qed.

(** X14.  Lower-casing is idempotent: applied to its own result,
    [renomear_cols_para_minusculo] returns that result again, provided no
    two names coincide once lower-cased. *)
Theorem renomear_cols_para_minusculo_idempotent (df : SparkDataFrame) :
  well_formed df ->
  unambiguous (columns df) ->
  NoDup (map lower (columns df)) ->
  (x <- renomear_cols_para_minusculo df ;; renomear_cols_para_minusculo x)
  = renomear_cols_para_minusculo df.
Proof.
  intros Hwf Hu Hnd. unfold renomear_cols_para_minusculo.
  rewrite (select_renamed df lower) by assumption.
  cbn [bind].
  rewrite (select_renamed (mkDF (map lower (columns df)) (rows df)) lower).
  - cbn [columns rows]. rewrite map_map.
    apply (f_equal Ok), (f_equal2 mkDF); [|reflexivity].
    apply map_ext_in. intros c Hc. apply lower_lower.
    eapply unambiguous_plain; eassumption.
  - unfold well_formed in *. cbn [columns rows]. rewrite length_map.
    assumption.
  - cbn [columns]. apply unambiguous_lower; assumption.
Qed.

(** X15.  [remover_cols_hudi] drops the first five columns and the first
    five cells of every row; a dataframe with five columns or fewer is left
    with no column at all, and no error is raised. *)
Theorem remover_cols_hudi_result (df : SparkDataFrame) :
  well_formed df ->
  unambiguous (columns df) ->
  remover_cols_hudi df
  = Ok (mkDF (skipn 5 (columns df)) (map (skipn 5) (rows df)))
  /\ ((List.length (columns df) <= 5)%nat -> skipn 5 (columns df) = []).
Proof.
  intros Hwf Hu. split; [|apply skipn_all2].
  unfold remover_cols_hudi, DF.select.
  rewrite (mapM_map_Ok _ _ (fun c => cell (first_index c (columns df)))).
  - cbn [bind]. rewrite map_map. cbn [output_name]. rewrite map_id.
    apply (f_equal Ok), (f_equal2 mkDF); [reflexivity|].
    apply map_ext_in. intros r Hr. rewrite map_map.
    rewrite <- (skipn_map (fun c => cell (first_index c (columns df)) r)).
    rewrite cells_by_name; [reflexivity | |].
    + apply unambiguous_NoDup. assumption.
    + unfold well_formed in Hwf. rewrite Forall_forall in Hwf. auto.
  - intros c Hc. apply compile_col, unambiguous_one_match; [assumption|].
    rewrite <- (firstn_skipn 5 (columns df)). apply in_or_app. right.
    assumption.
Qed.

End Renaming.

(** ** Counting nulls, zeros and distinct values *)

Section Counting.
Context {B : Builtins}.

(** [agg(count(when(cond, c)).alias(c) for c in lst)] for a condition that
    tests the cell of column [c]. *)
Lemma agg_count_when (df : SparkDataFrame) (lst : list string)
  (cond : string -> Column) (test : value -> bool) :
  lst <> [] ->
  (forall c, In c lst ->
     exists f, compile (columns df) (cond c) = Ok f
               /\ forall r, f r = VBool (test (value_under (columns df) r c))) ->
  DF.agg df
    (map (fun c => alias (F.count (when (cond c) (lit (VStr c)))) c) lst)
  = Ok (mkDF lst [map (fun c => VInt (count_rows df c test)) lst]).
Proof.
  intros Hne Hcond.
  set (g := fun c => match compile (columns df) (cond c) with
                     | Ok f => f
                     | Raise _ => fun _ => VNull
                     end).
  rewrite (agg_global df _
             (map (fun c rs =>
                     agg_count (map (fun r => op_when (g c r) (VStr c)) rs))
                  lst)).
  - apply (f_equal Ok), (f_equal2 mkDF).
    + rewrite map_map. cbn [output_name]. apply map_id.
    + f_equal. rewrite map_map. apply map_ext_in. intros c Hc.
      destruct (Hcond c Hc) as [f [Ef Hf]].
      rewrite (map_ext _ (fun r => op_when
                           (VBool (test (value_under (columns df) r c)))
                           (VStr c))).
      * apply count_when.
      * intro r. unfold g. rewrite Ef, Hf. reflexivity.
  - destruct lst; [congruence | discriminate].
  - apply mapM_map_Ok. intros c Hc.
    destruct (Hcond c Hc) as [f [Ef _]].
    cbn [compile_agg compile]. unfold g. rewrite Ef. reflexivity.
Qed.

Lemma obter_qtd_zeros_value (df : SparkDataFrame) (lst : list string) :
  lst <> [] ->
  (forall c, In c lst -> names_one_column df c) ->
  obter_qtd_zeros df lst
  = Ok (mkDF lst [map (fun c => VInt (count_rows df c is_zero)) lst]).
Proof.
  intros Hne Hcols. unfold obter_qtd_zeros.
  apply agg_count_when; [assumption|]. intros c Hc.
  eexists. split.
  - cbn [compile]. rewrite resolve_once by (apply Hcols; assumption).
    reflexivity.
  - intro r. cbn beta. rewrite eqNullSafe_zero, cell_first_index; [reflexivity|].
    eapply one_match_In, Hcols; assumption.
Qed.

Lemma count_rows_bounds (df : SparkDataFrame) (c : string) (test : value -> bool) :
  0 <= count_rows df c test <= DF.count df.
Proof.
  unfold count_rows, DF.count.
  pose proof (filter_length_le
                (fun r => test (value_under (columns df) r c)) (rows df)).
  lia.
Qed.

(** X16.  [obter_qtd_ausentes] returns one row holding, under each listed
    column (every column when the list is [None]), the number of rows that
    are null in it: a number between 0 and the number of rows. *)
Theorem obter_qtd_ausentes_result (df : SparkDataFrame)
  (lst_nm_cols : option (list string)) :
  or_columns df lst_nm_cols <> [] ->
  (forall c, In c (or_columns df lst_nm_cols) -> names_one_column df c) ->
  obter_qtd_ausentes df lst_nm_cols
  = Ok (mkDF (or_columns df lst_nm_cols)
             [map (fun c => VInt (count_rows df c is_null))
                  (or_columns df lst_nm_cols)])
  /\ forall c, 0 <= count_rows df c is_null <= DF.count df.
Proof.
  intros Hne Hcols. split; [|intro c; apply count_rows_bounds].
  unfold obter_qtd_ausentes.
  apply agg_count_when; [assumption|]. intros c Hc.
  eexists. split.
  - cbn [compile]. rewrite resolve_once by (apply Hcols; assumption).
    reflexivity.
  - intro r. cbn beta. rewrite cell_first_index; [reflexivity|].
    eapply one_match_In, Hcols; assumption.
Qed.

Lemma null_or_zero_length (vs : list value) :
  (List.length (List.filter is_null vs) + List.length (List.filter is_zero vs)
   <= List.length vs)%nat.
Proof.
  induction vs as [|v vs IH]; simpl; [lia|].
  destruct v; simpl; try lia.
  - destruct (z =? 0); simpl; lia.
  - destruct (Qnum (this q) =? 0); simpl; lia.
Qed.

Lemma count_rows_column (df : SparkDataFrame) (c : string) (test : value -> bool) :
  count_rows df c test
  = Z.of_nat (List.length (List.filter test (column_values df c))).
Proof.
  unfold count_rows, column_values. f_equal.
  induction (rows df) as [|r rs IH]; simpl; [reflexivity|].
  destruct (test (value_under (columns df) r c)); simpl; congruence.
Qed.

(** X17.  For one column of numbers and nulls, the count of nulls given by
    [obter_qtd_ausentes] and the count of zeros given by [obter_qtd_zeros]
    never add up to more than the number of rows: no row is counted as
    both. *)
Theorem nulls_and_zeros_disjoint (df : SparkDataFrame) (c : string) :
  names_one_column df c ->
  Forall is_numeric_or_null (column_values df c) ->
  exists n z,
    obter_qtd_ausentes df (Some [c]) = Ok (mkDF [c] [[VInt n]])
    /\ obter_qtd_zeros df [c] = Ok (mkDF [c] [[VInt z]])
    /\ 0 <= n /\ 0 <= z /\ n + z <= DF.count df.
Proof.
  intros Hone _.
  exists (count_rows df c is_null), (count_rows df c is_zero).
  assert (Hcols : forall x, In x [c] -> names_one_column df x)
    by (intros x [<-|[]]; assumption).
  split; [|split].
  - unfold obter_qtd_ausentes. cbn [or_columns].
    rewrite (agg_count_when df [c] (fun c => isnull (col c)) is_null);
      [reflexivity | discriminate |].
    intros x Hx. eexists. split.
    + cbn [compile]. rewrite resolve_once by (apply Hcols; assumption).
      reflexivity.
    + intro r. cbn beta. rewrite cell_first_index; [reflexivity|].
      eapply one_match_In, Hcols; assumption.
  - rewrite obter_qtd_zeros_value by (auto; discriminate). reflexivity.
  - pose proof (count_rows_bounds df c is_null).
    pose proof (count_rows_bounds df c is_zero).
    repeat split; try lia.
    rewrite !count_rows_column. unfold DF.count.
    pose proof (null_or_zero_length (column_values df c)) as H1.
    unfold column_values in H1 at 3. rewrite length_map in H1. lia.
Qed.

(** [obter_pct_zeros] returns, under each listed column, the number
    of zeros of that column as a percentage of the total (the number of
    rows when [None]), rounded to two decimal places. *)
Theorem obter_pct_zeros_result (df : SparkDataFrame) (lst : list string)
  (tam_df : option Z) :
  lst <> [] ->
  NoDup lst ->
  (forall c, In c lst -> names_one_column df c) ->
  or_count df tam_df <> 0 ->
  obter_pct_zeros df lst tam_df
  = Ok (mkDF lst [map (fun c => pct (count_rows df c is_zero)
                                    (or_count df tam_df)) lst]).
Proof.
  intros Hne Hnd Hcols Ht. unfold obter_pct_zeros.
  rewrite obter_qtd_zeros_value by assumption. cbn [bind].
  apply obter_pct_single_row; [|assumption].
  exact (one_match_all_unambiguous (columns df) _ Hnd Hcols).
Qed.

End Counting.

Lemma length_nodup_le (l : list value) :
  (List.length (nodup value_eq_dec l) <= List.length l)%nat.
Proof.
  apply NoDup_incl_length; [apply NoDup_nodup|].
  intros x Hx. apply nodup_In in Hx. assumption.
Qed.

Lemma distinct_count_bounds (df : SparkDataFrame) (c : string) :
  0 <= distinct_count df c <= DF.count df.
Proof.
  unfold distinct_count, DF.count, non_null, column_values.
  pose proof (length_nodup_le
                (List.filter (fun v => negb (is_null v))
                   (map (fun r => value_under (columns df) r c) (rows df)))).
  pose proof (filter_length_le (fun v => negb (is_null v))
                (map (fun r => value_under (columns df) r c) (rows df))) as H2.
  rewrite length_map in H2. lia.
Qed.

Lemma this_Qc_of_Z z : (this (Qc_of_Z z) == inject_Z z)%Q.
Proof. unfold Qc_of_Z, Q2Qc. cbn [this]. apply Qred_correct. Qed.

Lemma ratio_bounds n total :
  0 <= n <= total -> 0 < total ->
  (0 <= this (Qcdiv (Qc_of_Z (n * 100)) (Qc_of_Z total)) <= 100 # 1)%Q.
Proof.
  intros Hn Ht.
  assert (E : (this (Qcdiv (Qc_of_Z (n * 100)) (Qc_of_Z total))
               == inject_Z (n * 100) / inject_Z total)%Q).
  { unfold Qcdiv, Qcmult, Qcinv, Q2Qc. cbn [this].
    rewrite !Qred_correct, !this_Qc_of_Z. reflexivity. }
  rewrite E.
  assert (Hpos : (0 < inject_Z total)%Q).
  { change 0%Q with (inject_Z 0). rewrite <- Zlt_Qlt. assumption. }
  split.
  - apply Qle_shift_div_l; [assumption|].
    rewrite Qmult_0_l. change 0%Q with (inject_Z 0). rewrite <- Zle_Qle. lia.
  - apply Qle_shift_div_r; [assumption|].
    change (100 # 1)%Q with (inject_Z 100).
    rewrite <- inject_Z_mult, <- Zle_Qle. lia.
Qed.

Lemma round_half_up_2_bounds (q : Qc) :
  (0 <= this q <= 100 # 1)%Q ->
  (0 <= this (round_half_up q 2) <= 100 # 1)%Q.
Proof.
  intros [Hlo Hhi]. unfold round_half_up.
  change (pow10 2) with (inject_Z 100).
  assert (Hnum : (Qnum (this q) <? 0) = false).
  { apply Z.ltb_ge. unfold Qle in Hlo. simpl in Hlo. lia. }
  rewrite Hnum. unfold Q2Qc. cbn [this]. rewrite Qred_correct.
  rewrite (Qabs_pos _ Hlo).
  set (n0 := Qfloor (this q * inject_Z 100 + (1 # 2))%Q).
  assert (H0 : 0 <= n0).
  { change 0 with (Qfloor 0). apply Qfloor_resp_le.
    change (inject_Z 100) with (100 # 1)%Q. lra. }
  assert (H1 : n0 <= 10000).
  { change 10000 with (Qfloor ((100 # 1) * (100 # 1) + (1 # 2))%Q).
    apply Qfloor_resp_le. change (inject_Z 100) with (100 # 1)%Q. lra. }
  assert (Hpos : (0 < inject_Z 100)%Q) by reflexivity.
  split.
  - apply Qle_shift_div_l; [assumption|].
    rewrite Qmult_0_l. change 0%Q with (inject_Z 0). rewrite <- Zle_Qle. lia.
  - apply Qle_shift_div_r; [assumption|].
    change (100 # 1)%Q with (inject_Z 100).
    rewrite <- inject_Z_mult, <- Zle_Qle. lia.
Qed.

Section Distinct.
Context {B : Builtins}.

Lemma obter_qtd_distintos_value (df : SparkDataFrame) (lst : list string) :
  lst <> [] ->
  (forall c, In c lst -> names_one_column df c) ->
  obter_qtd_distintos df (Some lst)
  = Ok (mkDF lst [map (fun c => VInt (distinct_count df c)) lst]).
Proof.
  intros Hne Hcols. unfold obter_qtd_distintos, or_columns.
  rewrite (agg_global df _
             (map (fun c rs =>
                     agg_countDistinct
                       (map (cell (first_index c (columns df))) rs))
                  lst)).
  - apply (f_equal Ok), (f_equal2 mkDF).
    + rewrite map_map. cbn [output_name]. apply map_id.
    + f_equal. rewrite map_map. apply map_ext_in. intros c Hc.
      unfold agg_countDistinct, distinct_count, column_values.
      apply (f_equal VInt), (f_equal Z.of_nat).
      apply (f_equal (fun l => List.length (nodup value_eq_dec (non_null l)))).
      apply map_ext. intro r. apply cell_first_index.
      eapply one_match_In, Hcols; assumption.
  - destruct lst; [congruence | discriminate].
  - apply mapM_map_Ok. intros c Hc. cbn [compile_agg compile].
    rewrite resolve_once by (apply Hcols; assumption). reflexivity.
Qed.

(** X18.  [obter_qtd_distintos] returns one row holding, under each listed
    column (every column when [None]), the number of different non-null
    values of that column: nulls are not counted, and the number never
    exceeds the number of rows. *)
Theorem obter_qtd_distintos_result (df : SparkDataFrame)
  (lst_nm_cols : option (list string)) :
  or_columns df lst_nm_cols <> [] ->
  (forall c, In c (or_columns df lst_nm_cols) -> names_one_column df c) ->
  obter_qtd_distintos df lst_nm_cols
  = Ok (mkDF (or_columns df lst_nm_cols)
             [map (fun c => VInt (distinct_count df c))
                  (or_columns df lst_nm_cols)])
  /\ forall c, 0 <= distinct_count df c <= DF.count df.
Proof.
  intros Hne Hcols. split; [|intro c; apply distinct_count_bounds].
  rewrite <- (obter_qtd_distintos_value df (or_columns df lst_nm_cols))
    by assumption.
  destruct lst_nm_cols; reflexivity.
Qed.

(** [obter_pct_distintos] returns, under each listed column, the
    number of different non-null values as a percentage of the total (the
    number of rows when [None]), rounded to two decimal places. *)
Theorem obter_pct_distintos_result (df : SparkDataFrame)
  (lst_nm_cols : option (list string)) (tam_df : option Z) :
  or_columns df lst_nm_cols <> [] ->
  NoDup (or_columns df lst_nm_cols) ->
  (forall c, In c (or_columns df lst_nm_cols) -> names_one_column df c) ->
  or_count df tam_df <> 0 ->
  obter_pct_distintos df lst_nm_cols tam_df
  = Ok (mkDF (or_columns df lst_nm_cols)
             [map (fun c => pct (distinct_count df c) (or_count df tam_df))
                  (or_columns df lst_nm_cols)]).
Proof.
  intros Hne Hnd Hcols Ht. unfold obter_pct_distintos.
  rewrite obter_qtd_distintos_value by assumption. cbn [bind].
  apply obter_pct_single_row; [|assumption].
  exact (one_match_all_unambiguous (columns df) _ Hnd Hcols).
Qed.

(** X20.  With the number of rows as the total, every percentage returned
    by [obter_pct_ausentes] lies between 0 and 100. *)
Theorem obter_pct_ausentes_in_range (df : SparkDataFrame)
  (lst_nm_cols : option (list string)) :
  rows df <> [] ->
  or_columns df lst_nm_cols <> [] ->
  NoDup (or_columns df lst_nm_cols) ->
  (forall c, In c (or_columns df lst_nm_cols) -> names_one_column df c) ->
  exists qs,
    obter_pct_ausentes df lst_nm_cols None
    = Ok (mkDF (or_columns df lst_nm_cols) [map VDouble qs])
    /\ Forall (fun q => (0 <= this q <= 100 # 1)%Q) qs.
Proof.
  intros Hrows Hne Hnd Hcols.
  assert (Hcount : 0 < DF.count df).
  { unfold DF.count. destruct (rows df); [congruence | simpl; lia]. }
  exists (map (fun c => round_half_up
                        (Qcdiv (Qc_of_Z (count_rows df c is_null * 100))
                               (Qc_of_Z (DF.count df))) 2)
              (or_columns df lst_nm_cols)).
  split.
  - unfold obter_pct_ausentes.
    rewrite obter_qtd_ausentes_counts by assumption. cbn [bind or_count].
    rewrite obter_pct_single_row
      by (try lia; exact (one_match_all_unambiguous (columns df) _ Hnd Hcols)).
    rewrite map_map. reflexivity.
  - apply Forall_forall. intros q Hq. apply in_map_iff in Hq.
    destruct Hq as [c [<- _]].
    apply round_half_up_2_bounds, ratio_bounds; [|assumption].
    apply count_rows_bounds.
Qed.

End Distinct.

(** ** Distinct keys *)



Section DistinctKeys.
Context {B : Builtins}.

Lemma select_names (df : SparkDataFrame) (names : list string) :
  (forall c, In c names -> names_one_column df c) ->
  DF.select df (map col names)
  = Ok (mkDF names (map (key_of df names) (rows df))).
Proof.
  intro Hcols. unfold DF.select.
  rewrite (mapM_map_Ok _ _ (fun c => cell (first_index c (columns df)))).
  - cbn [bind]. apply (f_equal Ok), (f_equal2 mkDF).
    + rewrite map_map. cbn [output_name]. apply map_id.
    + apply map_ext. intro r. unfold key_of. rewrite map_map.
      apply map_ext_in. intros c Hc. apply cell_first_index.
      eapply one_match_In, Hcols; assumption.
  - intros c Hc. apply compile_col, Hcols. assumption.
Qed.

(** X21.  [selecionar_cols_distintas] returns the key columns only (there
    is at least one), each combination of values that occurs in the input
    exactly once, in an order the engine chooses. *)
Theorem selecionar_cols_distintas_result (df : SparkDataFrame)
  (cols_chave : str_or_list) :
  names_of cols_chave <> [] ->
  (forall c, In c (names_of cols_chave) -> names_one_column df c) ->
  exists table,
    selecionar_cols_distintas df cols_chave
    = Ok (mkDF (names_of cols_chave) table)
    /\ NoDup table
    /\ forall k, In k table
                 <-> exists r, In r (rows df)
                               /\ key_of df (names_of cols_chave) r = k.
Proof.
  intros _ Hcols.
  exists (engine_order
            (nodup row_eq_dec
               (map (key_of df (names_of cols_chave)) (rows df)))).
  split; [|split].
  - unfold selecionar_cols_distintas. rewrite select_names by assumption.
    reflexivity.
  - apply engine_order_NoDup, NoDup_nodup.
  - intro k. rewrite engine_order_In, nodup_In, in_map_iff.
    split; intros [r [H1 H2]]; exists r; auto.
Qed.


End DistinctKeys.

(** ** Which exceptions the grouping helpers raise *)

Section Raising.
Context {B : Builtins}.

Lemma over_group_raises agg (m : result (Row -> value)) e :
  over_group agg m = Raise e -> m = Raise e.
Proof. destruct m; simpl; [discriminate | congruence]. Qed.

Lemma compile_agg_raises cols c e :
  compile_agg cols c = Raise e -> is_analysis e.
Proof.
  induction c; simpl; intro H;
    try (apply lift1_raises in H; auto; fail);
    try (apply lift2_raises in H; destruct H; auto; fail);
    try (apply over_group_raises in H; eapply compile_raises; eassumption);
    try (inversion H; eexists; reflexivity; fail);
    auto.
Qed.

Lemma agg_grouped_raises gd exprs e :
  exprs <> [] -> DF.agg_grouped gd exprs = Raise e -> is_analysis e.
Proof.
  intros Hne H. unfold DF.agg_grouped in H.
  destruct exprs as [|x exprs]; [congruence|].
  apply bind_Raise_inv in H. destruct H as [H | [kfs [_ H]]].
  - apply mapM_Raise_inv in H. destruct H as [c [_ H]].
    eapply compile_raises; eassumption.
  - apply bind_Raise_inv in H. destruct H as [H | [gs [_ H]]]; [|discriminate].
    apply mapM_Raise_inv in H. destruct H as [c [_ H]].
    eapply compile_agg_raises; eassumption.
Qed.

Lemma withColumn_raises df name c e :
  DF.withColumn df name c = Raise e -> is_analysis e.
Proof.
  unfold DF.withColumn. intro H.
  apply bind_Raise_inv in H. destruct H as [H | [f [_ H]]].
  - eapply compile_raises; eassumption.
  - destruct (existsb _ (columns df)); discriminate.
Qed.

(** X23.  [obter_tab_freq_periodo] raises [KeyError] exactly when [periodo]
    is none of 'd', 'm' and 'a', and the key reported is [periodo]. *)
Theorem obter_tab_freq_periodo_KeyError (df : SparkDataFrame)
  (nm_col_dat periodo : string) (tam_df : option Z) :
  ((exists k, obter_tab_freq_periodo df nm_col_dat periodo tam_df
              = Raise (KeyError k))
   <-> periodo <> "d" /\ periodo <> "m" /\ periodo <> "a")
  /\ (periodo <> "d" /\ periodo <> "m" /\ periodo <> "a" ->
      obter_tab_freq_periodo df nm_col_dat periodo tam_df
      = Raise (KeyError periodo)).
Proof.
  assert (Hbad : periodo <> "d" /\ periodo <> "m" /\ periodo <> "a" ->
            obter_tab_freq_periodo df nm_col_dat periodo tam_df
            = Raise (KeyError periodo)).
  { intros [Hd [Hm Ha]]. unfold obter_tab_freq_periodo. cbn [py_dict_get].
    apply not_eq_sym in Hd, Hm, Ha.
    apply String.eqb_neq in Hd, Hm, Ha. rewrite Hd, Hm, Ha. reflexivity. }
  split; [split|exact Hbad].
  - intros [k Hk].
    destruct (String.eqb_spec "d" periodo) as [<-|Hd];
      [|destruct (String.eqb_spec "m" periodo) as [<-|Hm];
        [|destruct (String.eqb_spec "a" periodo) as [<-|Ha]]].
    4:{ repeat split; congruence. }
    all: exfalso; unfold obter_tab_freq_periodo in Hk;
      cbn [py_dict_get String.eqb Ascii.eqb Bool.eqb bind] in Hk;
      apply bind_Raise_inv in Hk; destruct Hk as [Hk | [d1 [_ Hk]]];
      [ unfold DF.count_grouped in Hk;
        apply agg_grouped_raises in Hk; [|discriminate];
        destruct Hk as [a Ha']; discriminate
      | apply bind_Raise_inv in Hk; destruct Hk as [Hk | [d3 [_ Hk]]];
        [ apply withColumn_raises in Hk; destruct Hk as [a Ha']; discriminate
        | apply orderBy_raises in Hk; destruct Hk as [a Ha']; discriminate ] ].
  - intro H. exists periodo. apply Hbad. assumption.
Qed.

End Raising.

(** ** Smallest and largest value, and the top of a ranking *)

Lemma value_min_ints x y : value_min (VInt x) (VInt y) = VInt (Z.min x y).
Proof.
  unfold value_min. rewrite value_compare_ints.
  destruct (Z.compare_spec x y); f_equal; lia.
Qed.

Lemma value_max_ints x y : value_max (VInt x) (VInt y) = VInt (Z.max x y).
Proof.
  unfold value_max. rewrite value_compare_ints.
  destruct (Z.compare_spec x y); f_equal; lia.
Qed.

Lemma agg_min_max_ints (l : list value) :
  Forall is_int_or_null l ->
  (agg_min l = VNull /\ agg_max l = VNull /\ forall n, ~ In (VInt n) l)
  \/ (exists lo hi,
        agg_min l = VInt lo /\ agg_max l = VInt hi
        /\ In (VInt lo) l /\ In (VInt hi) l
        /\ forall n, In (VInt n) l -> lo <= n <= hi).
Proof.
  induction l as [|a l IH]; intro H.
  - left. repeat split. intros n [].
  - inversion H as [|? ? Ha Hl]; subst.
    cbn [agg_min agg_max fold_right]. fold (agg_min l). fold (agg_max l).
    destruct (IH Hl)
      as [[Emin [Emax Hno]] | [lo [hi [Emin [Emax [Hlo [Hhi Hb]]]]]]];
      rewrite Emin, Emax.
    + destruct a as [| |x| | |]; try contradiction.
      * left. split; [reflexivity|]. split; [reflexivity|].
        intros n [Hn|Hn]; [discriminate | exact (Hno n Hn)].
      * right. exists x, x.
        split; [reflexivity|]. split; [reflexivity|].
        split; [left; reflexivity|]. split; [left; reflexivity|].
        intros n [Hn|Hn]; [inversion Hn; lia | destruct (Hno n Hn)].
    + destruct a as [| |x| | |]; try contradiction.
      * right. exists lo, hi.
        split; [reflexivity|]. split; [reflexivity|].
        split; [right; assumption|]. split; [right; assumption|].
        intros n [Hn|Hn]; [discriminate | auto].
      * right. exists (Z.min x lo), (Z.max x hi).
        split; [apply value_min_ints|]. split; [apply value_max_ints|].
        split; [|split].
        -- destruct (Z.min_spec x lo) as [[_ ->]|[_ ->]];
             [left; reflexivity | right; assumption].
        -- destruct (Z.max_spec x hi) as [[_ ->]|[_ ->]];
             [right; assumption | left; reflexivity].
        -- intros n [Hn|Hn]; [inversion Hn; lia | apply Hb in Hn; lia].
Qed.

Section Ranges.
Context {B : Builtins}.

(** X24.  [obter_intervalo] returns one row [valor_inicial, valor_final].
    For a column of integers (and nulls) these are the smallest and the
    largest integer of the column: both occur in it and every other lies
    between them.  When the column holds no integer, both are null. *)
Theorem obter_intervalo_result (df : SparkDataFrame) (nm_col_num : string) :
  names_one_column df nm_col_num ->
  Forall is_int_or_null (column_values df nm_col_num) ->
  ((forall n, ~ In (VInt n) (column_values df nm_col_num)) ->
   obter_intervalo df nm_col_num
   = Ok (mkDF ["valor_inicial"; "valor_final"] [[VNull; VNull]]))
  /\ ((exists n, In (VInt n) (column_values df nm_col_num)) ->
      exists lo hi,
        obter_intervalo df nm_col_num
        = Ok (mkDF ["valor_inicial"; "valor_final"] [[VInt lo; VInt hi]])
        /\ In (VInt lo) (column_values df nm_col_num)
        /\ In (VInt hi) (column_values df nm_col_num)
        /\ forall n, In (VInt n) (column_values df nm_col_num) ->
                     lo <= n <= hi).
Proof.
  intros Hone Hints.
  assert (E : obter_intervalo df nm_col_num
              = Ok (mkDF ["valor_inicial"; "valor_final"]
                         [[agg_min (column_values df nm_col_num);
                           agg_max (column_values df nm_col_num)]])).
  { unfold obter_intervalo.
    rewrite (agg_global df _
               [fun rs => agg_min (map (cell (first_index nm_col_num
                                                (columns df))) rs);
                fun rs => agg_max (map (cell (first_index nm_col_num
                                                (columns df))) rs)]).
    - cbn [map output_name]. unfold column_values.
      rewrite (map_ext _ (fun r => value_under (columns df) r nm_col_num));
        [reflexivity|].
      intro r. apply cell_first_index, (one_match_In nm_col_num). assumption.
    - discriminate.
    - cbn [mapM compile_agg compile]. rewrite resolve_once by assumption.
      reflexivity. }
  rewrite E.
  destruct (agg_min_max_ints _ Hints)
    as [[Emin [Emax Hno]] | [lo [hi [Emin [Emax [Hlo [Hhi Hb]]]]]]].
  - split.
    + intros _. rewrite Emin, Emax. reflexivity.
    + intros [n Hn]. destruct (Hno n Hn).
  - split.
    + intro Hno. destruct (Hno lo Hlo).
    + intros _. exists lo, hi. rewrite Emin, Emax. auto.
Qed.

(** X25.  [obter_top_valores] returns the descriptive columns followed by
    the value column, and the [top_n] rows with the largest values (all
    rows when there are fewer), largest first: together with the rows left
    out they are the projected input in descending order of the value. *)
Theorem obter_top_valores_result (df : SparkDataFrame) (nm_col_vlr : string)
  (top_n : Z) (lst_cols_desc : list string) :
  0 <= top_n < 2 ^ 31 ->
  ~ In nm_col_vlr lst_cols_desc ->
  (forall c, In c (lst_cols_desc ++ [nm_col_vlr]) -> names_one_column df c) ->
  (forall r, In r (rows df) ->
             is_int (value_under (columns df) r nm_col_vlr)) ->
  exists table rest,
    obter_top_valores df nm_col_vlr top_n lst_cols_desc
    = Ok (mkDF (lst_cols_desc ++ [nm_col_vlr]) table)
    /\ Permutation (table ++ rest)
         (map (key_of df (lst_cols_desc ++ [nm_col_vlr])) (rows df))
    /\ StronglySorted (descending (int_at (List.length lst_cols_desc)))
         (table ++ rest)
    /\ List.length table
       = Nat.min (Z.to_nat top_n) (List.length (rows df)).
Proof.
  intros Htop Hnot Hcols Hint.
  assert (Hvlr : names_one_column df nm_col_vlr)
    by (apply Hcols, in_or_app; right; left; reflexivity).
  assert (Hother : forall c, In c lst_cols_desc ->
                             same_name c nm_col_vlr = false).
  { intros c Hc. destruct (same_name c nm_col_vlr) eqn:E; [|reflexivity].
    exfalso. apply Hnot.
    rewrite <- (one_match_unique (columns df) nm_col_vlr c Hvlr); auto.
    apply (one_match_In c), Hcols, in_or_app. left. assumption. }
  set (names := (lst_cols_desc ++ [nm_col_vlr])%list).
  set (i := List.length lst_cols_desc).
  set (proj := map (key_of df names) (rows df)).
  set (sorted := sort_by (rows_leb [(cell i, true)]) proj).
  exists (firstn (Z.to_nat top_n) sorted), (skipn (Z.to_nat top_n) sorted).
  assert (Hperm : Permutation sorted proj) by apply sort_by_perm.
  split; [|split; [|split]].
  - unfold obter_top_valores. fold names.
    rewrite select_names by assumption. cbn [bind].
    unfold DF.orderBy. cbn [columns rows mapM compile_order compile].
    unfold names at 1.
    rewrite resolve_once
      by (apply one_match_middle;
          [exact (one_match_plain _ _ Hvlr) | assumption | intros c []]).
    rewrite first_index_app_absent by assumption.
    cbn [bind]. unfold DF.limit.
    destruct (Z.ltb_spec top_n 0) as [Hneg|_]; [lia | reflexivity].
  - rewrite firstn_skipn. assumption.
  - rewrite firstn_skipn. apply (sort_by_sorted _ (int_at i)).
    intros a b Ha Hb.
    assert (Hval : forall x, In x proj -> exists n, cell i x = VInt n).
    { intros x Hx. apply in_map_iff in Hx. destruct Hx as [r [<- Hr]].
      unfold key_of, names, i. rewrite map_app. cbn [map].
      rewrite <- (length_map (value_under (columns df) r) lst_cols_desc).
      rewrite cell_after. specialize (Hint r Hr).
      destruct (value_under (columns df) r nm_col_vlr); try contradiction.
      eauto. }
    destruct (Hval a Ha) as [na Hna]. destruct (Hval b Hb) as [nb Hnb].
    apply (rows_leb_desc_ints i a b na nb); assumption.
  - rewrite length_firstn. f_equal.
    rewrite (Permutation_length Hperm). unfold proj. apply length_map.
Qed.

(** A negative number of rows is refused by the engine's analysis. *)
Example obter_top_valores_negative :
  obter_top_valores (B := sample_builtins) df_ab "b" (- 1) ["a"]
  = Raise (AnalysisException (InvalidLimit (- 1))).
Proof. reflexivity. Qed.

End Ranges.

(** ** filtrar_ultimos_n_meses at the edges *)

Lemma add_months_date_later (m : date) (k : Z) :
  valid_date m -> 0 <= k -> date_leb m (add_months_date m k) = true.
Proof.
  intros [Hmonth Hday] Hk. destruct m as [y mo d]. cbn [d_year d_month d_day] in *.
  unfold add_months_date. cbn [d_year d_month d_day].
  set (t := y * 12 + (mo - 1) + k).
  pose proof (Z.div_mod t 12 ltac:(lia)) as Ht.
  pose proof (Z.mod_pos_bound t 12 ltac:(lia)) as Hb.
  destruct (Z.eq_dec k 0) as [->|Hpos].
  - assert (E1 : t / 12 = y) by (unfold t in *; lia).
    assert (E2 : t mod 12 + 1 = mo) by (unfold t in *; lia).
    rewrite E1, E2, Z.min_l by lia. apply date_leb_refl.
  - unfold date_leb, date_compare. cbn [d_year d_month d_day].
    destruct (Z.compare_spec y (t / 12)) as [E|L|G]; try reflexivity.
    + destruct (Z.compare_spec mo (t mod 12 + 1)) as [E'|L'|G'];
        try reflexivity; unfold t in *; lia.
    + unfold t in *. lia.
Qed.

Lemma add_months_date_earlier (m : date) (k : Z) :
  1 <= d_month m <= 12 -> k < 0 ->
  date_compare m (add_months_date m k) = Gt.
Proof.
  intros Hmonth Hk. destruct m as [y mo d]. cbn [d_year d_month d_day] in *.
  unfold add_months_date, date_compare. cbn [d_year d_month d_day].
  set (t := y * 12 + (mo - 1) + k).
  pose proof (Z.div_mod t 12 ltac:(lia)) as Ht.
  pose proof (Z.mod_pos_bound t 12 ltac:(lia)) as Hb.
  destruct (Z.compare_spec y (t / 12)) as [E|L|G]; try reflexivity.
  - destruct (Z.compare_spec mo (t mod 12 + 1)) as [E'|L'|G'];
      try reflexivity; unfold t in *; lia.
  - unfold t in *. lia.
Qed.

Lemma filter_none {A} (f : A -> bool) (l : list A) :
  (forall x, In x l -> f x = false) -> List.filter f l = [].
Proof.
  induction l as [|a l IH]; intro H; simpl; [reflexivity|].
  rewrite (H a (or_introl eq_refl)). apply IH. intros x Hx. apply H.
  right. assumption.
Qed.

Section FilterEdges.
Context {B : Builtins}.

Lemma filter_after_null (df : SparkDataFrame) (nm : string) :
  names_one_column df nm ->
  DF.filter df (gt (cast (col nm) DateType) (lit VNull))
  = Ok (mkDF (columns df) []).
Proof.
  intro Hone. unfold DF.filter. cbn [compile].
  rewrite resolve_once by exact Hone. cbn [bind lift1 lift2].
  do 2 f_equal. apply filter_none. intros r _.
  destruct (cast_value DateType (cell (first_index nm (columns df)) r));
    reflexivity.
Qed.

(** X27.  Asking for the last zero months, or for a negative number of
    months (a 32-bit integer, the bound being a date Python can hold), keeps
    no row at all: the bound is then the latest date itself or a later one,
    and the comparison is strict.  The same happens when the column holds no
    date. *)
Theorem filtrar_ultimos_n_meses_nonpositive (df : SparkDataFrame)
  (nm_col_filtrada : string) (n_meses : Z) :
  names_one_column df nm_col_filtrada ->
  (forall r, In r (rows df) ->
             is_date_or_null (value_under (columns df) r nm_col_filtrada)) ->
  (forall r d, In r (rows df) ->
               value_under (columns df) r nm_col_filtrada = VDate d ->
               valid_date d) ->
  (forall m, latest_date df nm_col_filtrada m ->
             DF.python_date (add_months_date m (- n_meses)) = true) ->
  is_int32 n_meses ->
  n_meses <= 0 ->
  filtrar_ultimos_n_meses df nm_col_filtrada n_meses
  = Ok (mkDF (columns df) []).
Proof.
  intros Hone Hdates Hvalid Hrange _ Hn. unfold filtrar_ultimos_n_meses.
  rewrite obter_data_inicial_value by exact Hone.
  destruct (agg_max_dates
              (map (fun r => value_under (columns df) r nm_col_filtrada)
                   (rows df)))
    as [[E _] | [m [E [Hin Hmax]]]].
  - apply Forall_forall. intros v Hv. apply in_map_iff in Hv.
    destruct Hv as [r [<- Hr]]. auto.
  - rewrite E. cbn [bind op_add_months cast_value DF.to_python].
    apply filter_after_null. assumption.
  - assert (Hm : latest_date df nm_col_filtrada m).
    { split.
      - apply in_map_iff in Hin. destruct Hin as [r [Hv Hr]]. eauto.
      - intros r d Hr Hv. apply Hmax. apply in_map_iff. exists r. auto. }
    rewrite E. cbn [op_add_months cast_value]. unfold DF.to_python.
    rewrite (Hrange m Hm). cbn [bind].
    rewrite filter_after by assumption. do 2 f_equal.
    apply filter_none. intros r Hr.
    pose proof (Hdates r Hr) as Hd.
    destruct (value_under (columns df) r nm_col_filtrada) as [| | | | |d] eqn:Ev;
      try contradiction; [reflexivity|].
    cbn [is_date_after].
    assert (Hvm : valid_date m).
    { apply in_map_iff in Hin. destruct Hin as [r' [Ev' Hr']]. eauto. }
    assert (Hle : date_leb d (add_months_date m (- n_meses)) = true).
    { apply (date_leb_trans d m).
      - apply Hmax. apply in_map_iff. exists r. auto.
      - apply add_months_date_later; [assumption | lia]. }
    unfold date_leb in Hle.
    destruct (date_compare d (add_months_date m (- n_meses)));
      [reflexivity | reflexivity | discriminate].
Qed.

(** X28.  For one month or more (a 32-bit integer, the bound being a date
    Python can hold), every row that bears the latest date of the column is
    kept. *)
Theorem filtrar_ultimos_n_meses_keeps_latest (df : SparkDataFrame)
  (nm_col_filtrada : string) (n_meses : Z) (m : date) :
  names_one_column df nm_col_filtrada ->
  (forall r, In r (rows df) ->
             is_date_or_null (value_under (columns df) r nm_col_filtrada)) ->
  latest_date df nm_col_filtrada m ->
  1 <= d_month m <= 12 ->
  DF.python_date (add_months_date m (- n_meses)) = true ->
  is_int32 n_meses ->
  1 <= n_meses ->
  exists table,
    filtrar_ultimos_n_meses df nm_col_filtrada n_meses
    = Ok (mkDF (columns df) table)
    /\ forall r, In r (rows df) ->
                 value_under (columns df) r nm_col_filtrada = VDate m ->
                 In r table.
Proof.
  intros Hone Hdates [[r0 [Hr0 Hv0]] Hlatest] Hmonth Hrange _ Hn.
  unfold filtrar_ultimos_n_meses.
  rewrite obter_data_inicial_value by exact Hone.
  destruct (agg_max_dates
              (map (fun r => value_under (columns df) r nm_col_filtrada)
                   (rows df)))
    as [[_ Hno] | [m' [E [Hin Hmax]]]].
  - apply Forall_forall. intros v Hv. apply in_map_iff in Hv.
    destruct Hv as [r [<- Hr]]. auto.
  - exfalso. apply (Hno m). apply in_map_iff. exists r0. auto.
  - assert (Em : m' = m).
    { apply in_map_iff in Hin. destruct Hin as [r' [Ev' Hr']].
      pose proof (Hlatest r' m' Hr' Ev') as H1.
      assert (H2 : date_leb m m' = true)
        by (apply Hmax; apply in_map_iff; exists r0; auto).
      destruct m as [y1 m1 d1], m' as [y2 m2 d2].
      revert H1 H2. date_cases. }
    subst m'. rewrite E. cbn [op_add_months cast_value].
    unfold DF.to_python. rewrite Hrange. cbn [bind].
    rewrite filter_after by assumption.
    eexists. split; [reflexivity|].
    intros r Hr Hv. apply filter_In. split; [assumption|].
    rewrite Hv. cbn [is_date_after].
    rewrite add_months_date_earlier by (try assumption; lia). reflexivity.
Qed.

End FilterEdges.

(** ** The frequencies add up *)

Lemma list_sum_count_cons (a : Row) (l s : list Row) :
  list_sum (map (count_occ row_eq_dec (a :: l)) s)
  = (list_sum (map (count_occ row_eq_dec l) s) + count_occ row_eq_dec s a)%nat.
Proof.
  unfold list_sum. induction s as [|k s IH]; [reflexivity|].
  cbn [map fold_right]. rewrite IH. cbn [count_occ].
  destruct (row_eq_dec a k) as [->|N].
  - destruct (row_eq_dec k k); [lia | congruence].
  - destruct (row_eq_dec k a); [congruence | lia].
Qed.

Lemma list_sum_frequencies (l : list Row) :
  list_sum (map (count_occ row_eq_dec l) (nodup row_eq_dec l))
  = List.length l.
Proof.
  induction l as [|a l IH]; [reflexivity|].
  cbn [nodup]. destruct (in_dec row_eq_dec a l) as [Hin|Hout].
  - rewrite list_sum_count_cons, IH.
    assert (count_occ row_eq_dec (nodup row_eq_dec l) a = 1%nat).
    { pose proof (proj1 (NoDup_count_occ row_eq_dec _)
                    (NoDup_nodup row_eq_dec l) a).
      pose proof (proj1 (count_occ_In row_eq_dec (nodup row_eq_dec l) a)
                    (proj2 (nodup_In row_eq_dec l a) Hin)).
      lia. }
    cbn [List.length]. lia.
  - cbn [map]. unfold list_sum at 1. cbn [fold_right].
    fold (list_sum (map (count_occ row_eq_dec (a :: l))
                        (nodup row_eq_dec l))).
    rewrite list_sum_count_cons, IH.
    assert (count_occ row_eq_dec (nodup row_eq_dec l) a = 0%nat).
    { apply count_occ_not_In. rewrite nodup_In. assumption. }
    assert (count_occ row_eq_dec (a :: l) a = 1%nat).
    { cbn [count_occ]. destruct (row_eq_dec a a); [|congruence].
      rewrite (proj1 (count_occ_not_In row_eq_dec l a) Hout). reflexivity. }
    cbn [List.length]. lia.
Qed.

Lemma sum_Z_of_nat (l : list nat) :
  sum_Z (map Z.of_nat l) = Z.of_nat (list_sum l).
Proof. induction l as [|a l IH]; simpl; [reflexivity | rewrite IH; lia]. Qed.

Lemma sum_Z_perm (l l' : list Z) : Permutation l l' -> sum_Z l = sum_Z l'.
Proof. intro H. induction H; simpl; lia. Qed.

Section FrequencyTotal.
Context {B : Builtins}.

(** X29.  The absolute frequencies of the table returned by
    [obter_tab_freq] add up to the number of rows of the input: every row
    is counted in exactly one line of the table.  The grouping names and the
    total are as in C8. *)
Theorem obter_tab_freq_total (df : SparkDataFrame) (nm_col : str_or_list)
  (tam_df : option Z) :
  names_of nm_col <> [] ->
  NoDup (names_of nm_col) ->
  (forall c, In c (names_of nm_col) ->
     names_one_column df c /\ free_for_table c) ->
  or_count df tam_df <> 0 ->
  is_int64 (or_count df tam_df) ->
  exists table,
    obter_tab_freq df nm_col tam_df
    = (["Tabela de frequencias"],
       Ok (mkDF (names_of nm_col ++ ["freq_absoluta"; "freq_relativa (%)"])%list
               table))
    /\ sum_Z (map (int_at (List.length (names_of nm_col))) table)
       = DF.count df.
Proof.
  intros Hne _ Hcols _ _. eexists. split.
  - apply obter_tab_freq_value; assumption.
  - set (names := names_of nm_col).
    set (ks := map (key_of df names) (rows df)).
    rewrite (sum_Z_perm _ _ (Permutation_map _ (sort_by_perm _ _))).
    rewrite (sum_Z_perm _ _
               (Permutation_map _
                  (Permutation_map _ (engine_order_perm _)))).
    rewrite map_map.
    rewrite (map_ext_in _ (fun k => Z.of_nat (count_occ row_eq_dec ks k))).
    + rewrite <- (map_map (count_occ row_eq_dec ks) Z.of_nat).
      rewrite sum_Z_of_nat, list_sum_frequencies.
      unfold ks, DF.count. rewrite length_map. reflexivity.
    + intros k Hk. apply nodup_In in Hk. apply in_map_iff in Hk.
      destruct Hk as [r [<- _]]. unfold int_at.
      replace (List.length names)
        with (List.length (key_of df names r))
        by (unfold key_of; apply length_map).
      rewrite cell_after. reflexivity.
Qed.

End FrequencyTotal.

(** ** agrupar *)

Lemma mapM_Ok_exists {A C} (f : A -> result C) (l : list A) :
  (forall x, In x l -> exists y, f x = Ok y) ->
  exists ys, mapM f l = Ok ys /\ List.length ys = List.length l.
Proof.
  induction l as [|a l IH]; intro H.
  - exists []. split; reflexivity.
  - destruct (H a (or_introl eq_refl)) as [y Hy].
    destruct IH as [ys [Hys Hlen]]; [intros x Hx; apply H; right; assumption|].
    exists (y :: ys). simpl. rewrite Hy, Hys. simpl. split; congruence.
Qed.

Section Agrupar.
Context {B : Builtins}.

(** X30.  [agrupar] returns the key columns (named once each) followed by
    one column per requested aggregate, named cont_, soma_, max_ and min_
    plus the column, in that order; there is one row per distinct
    combination of key values, in an order the engine chooses, and each row
    starts with its key.  The columns to sum hold integers whose sum fits
    64 bits. *)
Theorem agrupar_result (df : SparkDataFrame) (chv_agrup : str_or_list)
  (lst_cols_conta lst_cols_soma lst_cols_max lst_cols_min
     : option (list string)) :
  names_of chv_agrup <> [] ->
  NoDup (names_of chv_agrup) ->
  (or_empty lst_cols_conta ++ or_empty lst_cols_soma
   ++ or_empty lst_cols_max ++ or_empty lst_cols_min)%list <> [] ->
  (forall c, In c (names_of chv_agrup ++ or_empty lst_cols_conta
                   ++ or_empty lst_cols_soma ++ or_empty lst_cols_max
                   ++ or_empty lst_cols_min)%list ->
             names_one_column df c) ->
  (forall c, In c (or_empty lst_cols_soma) -> sum_fits df c) ->
  exists table,
    agrupar df chv_agrup lst_cols_conta lst_cols_soma lst_cols_max
      lst_cols_min
    = Ok (mkDF (names_of chv_agrup
                ++ map (append "cont_") (or_empty lst_cols_conta)
                ++ map (append "soma_") (or_empty lst_cols_soma)
                ++ map (append "max_") (or_empty lst_cols_max)
                ++ map (append "min_") (or_empty lst_cols_min))%list
               table)
    /\ Permutation
         (map (firstn (List.length (names_of chv_agrup))) table)
         (nodup row_eq_dec (map (key_of df (names_of chv_agrup)) (rows df))).
Proof.
  set (names := names_of chv_agrup).
  set (conta := or_empty lst_cols_conta). set (soma := or_empty lst_cols_soma).
  set (maxs := or_empty lst_cols_max). set (mins := or_empty lst_cols_min).
  intros Hne _ Haggs Hcols _.
  set (exprs := (map (fun c => alias (F.count (col c)) ("cont_" ++ c)) conta
                 ++ map (fun c => alias (sparkSum (col c)) ("soma_" ++ c)) soma
                 ++ map (fun c => alias (sparkMax (col c)) ("max_" ++ c)) maxs
                 ++ map (fun c => alias (sparkMin (col c)) ("min_" ++ c)) mins)%list).
  assert (Hexprs : exprs <> []).
  { unfold exprs. intro E. apply Haggs.
    apply (f_equal (@List.length Column)) in E.
    rewrite !length_app, !length_map in E. cbn [List.length] in E.
    destruct conta, soma, maxs, mins; simpl in *; try reflexivity; lia. }
  destruct (mapM_Ok_exists (compile_agg (columns df)) exprs) as [gs [Hgs _]].
  { intros e He. unfold exprs in He.
    repeat (apply in_app_or in He; destruct He as [He|He]);
      apply in_map_iff in He; destruct He as [c [<- Hc]];
      cbn [compile_agg compile];
      (rewrite resolve_once;
       [eexists; reflexivity
       | apply Hcols; repeat (apply in_or_app; first [left; assumption | right]);
         assumption]). }
  set (key := fun r : Row => map (fun f : Row -> value => f r)
                               (map (fun c => cell (first_index c (columns df)))
                                    names)).
  assert (Hkey : forall r, key r = key_of df names r).
  { intro r. unfold key, key_of. rewrite map_map.
    apply map_ext_in. intros c Hc. apply cell_first_index.
    eapply one_match_In, Hcols. apply in_or_app. left. assumption. }
  exists (map (fun k => (k ++ map (fun g => g (DF.members key k (rows df))) gs)%list)
              (engine_order (nodup row_eq_dec (map key (rows df))))).
  split.
  - unfold agrupar. fold conta soma maxs mins names. fold exprs.
    unfold DF.agg_grouped. cbn [DF.groupBy gd_df gd_keys].
    destruct exprs as [|e0 exprs'] eqn:Eexprs; [congruence|].
    rewrite (mapM_map_Ok _ _ (fun c => cell (first_index c (columns df)))).
    2:{ intros c Hc. apply compile_col, Hcols. apply in_or_app. left.
        assumption. }
    cbn [bind]. rewrite Hgs. cbn [bind].
    rewrite length_map, group_keys_nonempty
      by (destruct names; [congruence | discriminate]).
    apply (f_equal Ok), (f_equal2 mkDF); [|reflexivity].
    rewrite map_map. cbn [output_name]. rewrite map_id. f_equal.
    rewrite <- Eexprs. unfold exprs. rewrite !map_app, !map_map.
    reflexivity.
  - rewrite <- (engine_order_perm
                  (nodup row_eq_dec (map (key_of df names) (rows df)))).
    match goal with
    | |- Permutation ?a ?b => enough (E : a = b) by (rewrite E; reflexivity)
    end.
    rewrite map_map.
    rewrite <- (map_id (engine_order
                          (nodup row_eq_dec
                             (map (key_of df names) (rows df))))).
    rewrite (map_ext key (key_of df names) Hkey).
    apply map_ext_in. intros k Hk.
    apply engine_order_In, nodup_In in Hk.
    apply in_map_iff in Hk. destruct Hk as [r [<- _]].
    replace (List.length names) with (List.length (key_of df names r))
      by (unfold key_of; apply length_map).
    rewrite firstn_app, firstn_all, Nat.sub_diag, firstn_O, app_nil_r.
    reflexivity.
Qed.

(** Called without any column to count, sum, maximise or minimise,
    [agrupar] fails its aggregation ("exprs should not be empty") whatever
    the dataframe and the key. *)
Theorem agrupar_nothing_to_aggregate (df : SparkDataFrame)
  (chv_agrup : str_or_list)
  (lst_cols_conta lst_cols_soma lst_cols_max lst_cols_min
     : option (list string)) :
  (or_empty lst_cols_conta ++ or_empty lst_cols_soma
   ++ or_empty lst_cols_max ++ or_empty lst_cols_min)%list = [] ->
  agrupar df chv_agrup lst_cols_conta lst_cols_soma lst_cols_max lst_cols_min
  = Raise (AssertionError "exprs should not be empty").
Proof.
  intro H. unfold agrupar.
  apply app_eq_nil in H. destruct H as [-> H].
  apply app_eq_nil in H. destruct H as [-> H].
  apply app_eq_nil in H. destruct H as [-> ->].
  reflexivity.
Qed.

End Agrupar.

(** ** The further properties at work on the example data *)

Ltac distinct_names :=
  vm_compute; repeat constructor; simpl; intuition discriminate.

Ltac plain_distinct :=
  split; [vm_compute; repeat constructor | distinct_names].

Ltac listed_names :=
  let c := fresh "c" in
  let H := fresh "H" in
  intros c H; simpl in H;
  repeat (destruct H as [<-|H]; [listed|]); destruct H.

Ltac one_column_each :=
  let c := fresh "c" in
  let H := fresh "H" in
  intros c H; simpl in H;
  repeat (destruct H as [<-|H]; [names_one|]); destruct H.

Ltac each_cell :=
  let r := fresh "r" in
  let c := fresh "c" in
  let Hr := fresh "Hr" in
  let Hc := fresh "Hc" in
  intros r c Hr Hc; simpl in Hr, Hc;
  repeat (destruct Hr as [<-|Hr];
          [repeat (destruct Hc as [<-|Hc];
                   [first [exact I | reflexivity | simpl; lia]|]);
           destruct Hc|]);
  destruct Hr.

Lemma well_formed_df_ab : well_formed df_ab.
Proof. repeat constructor. Qed.

Lemma formatar_cols_moeda_result_witness :
  formatar_cols_moeda (B := sample_builtins) env_may df_ab ["a"]
  = Ok (mkDF (cols_rest df_ab ["a"] ++ ["a"])%list
             (map (moved_row (fun a => @format_currency sample_builtins a "BRL"
                                         (locale env_may))
                             (cols_rest df_ab ["a"]) ["a"] (columns df_ab))
                  (rows df_ab))).
Proof.
  apply (formatar_cols_moeda_result (B := sample_builtins) env_may df_ab ["a"]).
  - plain_distinct.
  - listed_names.
  - each_cell.
Defined.

Lemma formatar_cols_int_result_witness :
  formatar_cols_int (B := sample_builtins) df_ab ["a"]
  = Ok (mkDF (cols_rest df_ab ["a"] ++ ["a"])%list
             (map (moved_row (fun v => v)
                             (cols_rest df_ab ["a"]) ["a"] (columns df_ab))
                  (rows df_ab))).
Proof.
  apply (formatar_cols_int_result (B := sample_builtins) df_ab ["a"]).
  - plain_distinct.
  - listed_names.
  - each_cell.
Defined.

Lemma remover_espacos_extra_result_witness :
  remover_espacos_extra (B := sample_builtins) df_upper ["NOME"]
  = Ok (mkDF (cols_rest df_upper ["NOME"] ++ ["NOME"])%list
             (map (moved_row (@builtin_fn sample_builtins fn_trim)
                             (cols_rest df_upper ["NOME"]) ["NOME"]
                             (columns df_upper))
                  (rows df_upper))).
Proof.
  apply (remover_espacos_extra_result (B := sample_builtins) df_upper ["NOME"]).
  - plain_distinct.
  - listed_names.
Defined.

Lemma formatar_cols_decimal_result_witness :
  formatar_cols_decimal (B := sample_builtins) df_ab ["a"] 2
  = Ok (mkDF (columns df_ab)
             (map (transformed_row (cast_value (B := sample_builtins)
                                               (DecimalType 18 2))
                                   ["a"] (columns df_ab))
                  (rows df_ab))).
Proof.
  apply (formatar_cols_decimal_result (B := sample_builtins) df_ab ["a"] 2).
  - plain_distinct.
  - distinct_names.
  - listed_names.
  - lia.
  - each_cell.
Defined.

Lemma formatar_cols_float_result_witness :
  formatar_cols_float (B := sample_builtins) df_ab ["b"; "a"]
  = Ok (mkDF (columns df_ab)
             (map (transformed_row (cast_value (B := sample_builtins) FloatType)
                                   ["b"; "a"] (columns df_ab))
                  (rows df_ab))).
Proof.
  apply (formatar_cols_float_result (B := sample_builtins) df_ab ["b"; "a"]).
  - plain_distinct.
  - distinct_names.
  - listed_names.
  - each_cell.
Defined.

Lemma formatar_cols_zeros_a_esquerda_result_witness :
  formatar_cols_zeros_a_esquerda (B := sample_builtins) df_upper ["NOME"] 8
  = Ok (mkDF (columns df_upper)
             (map (transformed_row (@builtin_fn sample_builtins (fn_lpad 8 "0"))
                                   ["NOME"] (columns df_upper))
                  (rows df_upper))).
Proof.
  apply (formatar_cols_zeros_a_esquerda_result (B := sample_builtins)
           df_upper ["NOME"] 8).
  - plain_distinct.
  - distinct_names.
  - listed_names.
  - vm_compute. split; [discriminate | reflexivity].
Defined.

Lemma formatar_cols_decimal_repeated_name_witness :
  exists name,
    In name ["a"; "a"]
    /\ formatar_cols_decimal (B := sample_builtins) df_ab ["a"; "a"] 2
       = Raise (AnalysisException (AmbiguousReference name)).
Proof.
  apply (formatar_cols_decimal_repeated_name (B := sample_builtins) df_ab
           ["a"; "a"] 2).
  - plain_distinct.
  - listed_names.
  - lia.
  - intro H. inversion H as [|? ? Hnotin _]. apply Hnotin. left. reflexivity.
Defined.

Lemma renomear_cols_unknown_keys_witness :
  renomear_cols (B := sample_builtins) df_ab [("z", "w"); ("y", "a")]
  = Ok df_ab.
Proof.
  apply (renomear_cols_unknown_keys (B := sample_builtins) df_ab
           [("z", "w"); ("y", "a")]).
  - exact well_formed_df_ab.
  - plain_distinct.
  - intros k [<-|[<-|[]]]; simpl; intuition discriminate.
Defined.

Lemma renomear_cols_round_trip_witness :
  (x <- renomear_cols (B := sample_builtins) df_ab [("a", "id"); ("b", "a")] ;;
   renomear_cols (B := sample_builtins) x [("id", "a"); ("a", "b")])
  = Ok df_ab.
Proof.
  apply (renomear_cols_round_trip (B := sample_builtins) df_ab
           [("a", "id"); ("b", "a")] [("id", "a"); ("a", "b")]).
  - exact well_formed_df_ab.
  - plain_distinct.
  - plain_distinct.
  - intros c [<-|[<-|[]]]; reflexivity.
Defined.

Lemma renomear_cols_para_minusculo_result_witness :
  renomear_cols_para_minusculo (B := sample_builtins) df_upper
  = Ok (mkDF ["id"; "nome"] (rows df_upper)).
Proof.
  apply (renomear_cols_para_minusculo_result (B := sample_builtins) df_upper).
  - repeat constructor.
  - plain_distinct.
Defined.

Lemma renomear_cols_para_minusculo_idempotent_witness :
  (x <- renomear_cols_para_minusculo (B := sample_builtins) df_upper ;;
   renomear_cols_para_minusculo (B := sample_builtins) x)
  = renomear_cols_para_minusculo (B := sample_builtins) df_upper.
Proof.
  apply (renomear_cols_para_minusculo_idempotent (B := sample_builtins)
           df_upper).
  - repeat constructor.
  - plain_distinct.
  - distinct_names.
Defined.

Lemma remover_cols_hudi_result_witness :
  remover_cols_hudi (B := sample_builtins) df_hudi
  = Ok (mkDF ["id"] [[VInt 7]])
  /\ ((List.length (columns df_hudi) <= 5)%nat -> skipn 5 (columns df_hudi) = []).
Proof.
  apply (remover_cols_hudi_result (B := sample_builtins) df_hudi).
  - repeat constructor.
  - plain_distinct.
Defined.

Lemma obter_qtd_ausentes_result_witness :
  obter_qtd_ausentes (B := sample_builtins) df_zeros None
  = Ok (mkDF ["a"; "b"] [[VInt 1; VInt 1]])
  /\ forall c, 0 <= count_rows df_zeros c is_null <= DF.count df_zeros.
Proof.
  apply (obter_qtd_ausentes_result (B := sample_builtins) df_zeros None).
  - discriminate.
  - one_column_each.
Defined.

Lemma nulls_and_zeros_disjoint_witness :
  exists n z,
    obter_qtd_ausentes (B := sample_builtins) df_zeros (Some ["a"])
    = Ok (mkDF ["a"] [[VInt n]])
    /\ obter_qtd_zeros (B := sample_builtins) df_zeros ["a"]
       = Ok (mkDF ["a"] [[VInt z]])
    /\ 0 <= n /\ 0 <= z /\ n + z <= DF.count df_zeros.
Proof.
  apply (nulls_and_zeros_disjoint (B := sample_builtins) df_zeros "a").
  - names_one.
  - repeat constructor.
Defined.

Lemma obter_qtd_distintos_result_witness :
  obter_qtd_distintos (B := sample_builtins) df_zeros None
  = Ok (mkDF ["a"; "b"] [[VInt 2; VInt 2]])
  /\ forall c, 0 <= distinct_count df_zeros c <= DF.count df_zeros.
Proof.
  apply (obter_qtd_distintos_result (B := sample_builtins) df_zeros None).
  - discriminate.
  - one_column_each.
Defined.

Lemma obter_pct_ausentes_in_range_witness :
  exists qs,
    obter_pct_ausentes (B := sample_builtins) df_zeros None None
    = Ok (mkDF (or_columns df_zeros None) [map VDouble qs])
    /\ Forall (fun q => (0 <= this q <= 100 # 1)%Q) qs.
Proof.
  apply (obter_pct_ausentes_in_range (B := sample_builtins) df_zeros None).
  - discriminate.
  - discriminate.
  - distinct_names.
  - one_column_each.
Defined.

Lemma selecionar_cols_distintas_result_witness :
  exists table,
    selecionar_cols_distintas (B := sample_builtins) df_zeros (Str "a")
    = Ok (mkDF ["a"] table)
    /\ NoDup table
    /\ forall k, In k table
                 <-> exists r, In r (rows df_zeros)
                               /\ key_of df_zeros ["a"] r = k.
Proof.
  apply (selecionar_cols_distintas_result (B := sample_builtins) df_zeros
           (Str "a")).
  - discriminate.
  - one_column_each.
Defined.


Lemma obter_tab_freq_periodo_KeyError_witness :
  obter_tab_freq_periodo (B := sample_builtins) df_dates "d" "x" None
  = Raise (KeyError "x").
Proof.
  apply (proj2 (obter_tab_freq_periodo_KeyError (B := sample_builtins)
                  df_dates "d" "x" None)).
  repeat split; discriminate.
Defined.

Lemma obter_intervalo_result_witness :
  ((forall n, ~ In (VInt n) (column_values df_ab "a")) ->
   obter_intervalo (B := sample_builtins) df_ab "a"
   = Ok (mkDF ["valor_inicial"; "valor_final"] [[VNull; VNull]]))
  /\ ((exists n, In (VInt n) (column_values df_ab "a")) ->
      exists lo hi,
        obter_intervalo (B := sample_builtins) df_ab "a"
        = Ok (mkDF ["valor_inicial"; "valor_final"] [[VInt lo; VInt hi]])
        /\ In (VInt lo) (column_values df_ab "a")
        /\ In (VInt hi) (column_values df_ab "a")
        /\ forall n, In (VInt n) (column_values df_ab "a") -> lo <= n <= hi).
Proof.
  apply (obter_intervalo_result (B := sample_builtins) df_ab "a").
  - names_one.
  - repeat constructor.
Defined.

Lemma obter_top_valores_result_witness :
  exists table rest,
    obter_top_valores (B := sample_builtins) df_ab "b" 2 ["a"]
    = Ok (mkDF (["a"] ++ ["b"]) table)
    /\ Permutation (table ++ rest)
         (map (key_of df_ab (["a"] ++ ["b"])) (rows df_ab))
    /\ StronglySorted (descending (int_at (List.length ["a"])))
         (table ++ rest)
    /\ List.length table = Nat.min (Z.to_nat 2) (List.length (rows df_ab)).
Proof.
  apply (obter_top_valores_result (B := sample_builtins) df_ab "b" 2 ["a"]).
  - lia.
  - simpl. intuition discriminate.
  - one_column_each.
  - intros r [<- | [<- | [<- | []]]]; exact I.
Defined.

Lemma filtrar_ultimos_n_meses_nonpositive_witness :
  filtrar_ultimos_n_meses (B := sample_builtins) df_dates "d" 0
  = Ok (mkDF ["d"; "x"] []).
Proof.
  apply (filtrar_ultimos_n_meses_nonpositive (B := sample_builtins) df_dates
           "d" 0).
  - names_one.
  - intros r [<- | [<- | [<- | [<- | []]]]]; exact I.
  - intros r d [<- | [<- | [<- | [<- | []]]]] Hv; simpl in Hv;
      inversion Hv; subst; vm_compute; intuition discriminate.
  - intros m [[r [Hr Hv]] _].
    destruct Hr as [<- | [<- | [<- | [<- | []]]]]; simpl in Hv;
      inversion Hv; subst; reflexivity.
  - vm_compute. split; [discriminate | reflexivity].
  - lia.
Defined.

Lemma filtrar_ultimos_n_meses_keeps_latest_witness :
  exists table,
    filtrar_ultimos_n_meses (B := sample_builtins) df_dates "d" 3
    = Ok (mkDF (columns df_dates) table)
    /\ forall r, In r (rows df_dates) ->
                 value_under (columns df_dates) r "d"
                 = VDate (mkDate 2024 3 31) ->
                 In r table.
Proof.
  apply (filtrar_ultimos_n_meses_keeps_latest (B := sample_builtins) df_dates
           "d" 3 (mkDate 2024 3 31)).
  - names_one.
  - intros r [<- | [<- | [<- | [<- | []]]]]; exact I.
  - split.
    + exists [VDate (mkDate 2024 3 31); VInt 1].
      split; [left; reflexivity | reflexivity].
    + intros r d [<- | [<- | [<- | [<- | []]]]] Hv; simpl in Hv;
        inversion Hv; subst; reflexivity.
  - simpl. lia.
  - reflexivity.
  - vm_compute. split; [discriminate | reflexivity].
  - lia.
Defined.

Lemma obter_tab_freq_total_witness :
  exists table,
    obter_tab_freq (B := sample_builtins) df_zeros (Str "a") None
    = (["Tabela de frequencias"],
       Ok (mkDF ["a"; "freq_absoluta"; "freq_relativa (%)"] table))
    /\ sum_Z (map (int_at 1) table) = DF.count df_zeros.
Proof.
  apply (obter_tab_freq_total (B := sample_builtins) df_zeros (Str "a") None).
  - discriminate.
  - repeat constructor. intros [].
  - intros c [<- | []]. split; [names_one | repeat split].
  - discriminate.
  - vm_compute. split; [discriminate | reflexivity].
Defined.

Lemma agrupar_result_witness :
  exists table,
    agrupar (B := sample_builtins) df_zeros (Str "a") (Some ["b"])
      (Some ["b"]) (Some ["b"]) None
    = Ok (mkDF ["a"; "cont_b"; "soma_b"; "max_b"] table)
    /\ Permutation (map (firstn 1) table)
         (nodup row_eq_dec (map (key_of df_zeros ["a"]) (rows df_zeros))).
Proof.
  apply (agrupar_result (B := sample_builtins) df_zeros (Str "a")
           (Some ["b"]) (Some ["b"]) (Some ["b"]) None).
  - discriminate.
  - repeat constructor. intros [].
  - discriminate.
  - one_column_each.
  - intros c [<- | []]. split; [repeat constructor | reflexivity].
Defined.
